(** * Mean dependency distance on CoNLL-U documents

    A shallow embedding of the notebook [2conll_to_dep.ipynb]: the parser
    [parse_conll], which turns CoNLL-U text into a token table, and
    [calc_mdd], which removes punctuation, renumbers the tokens of every
    sentence, remaps the head column through a left join and aggregates the
    dependency distances per sentence or per document.

    Conventions of the embedding.
    - Python [str] is [string]; a character is a code point below 256.
    - A data frame is the list of its rows, in row order.  A missing cell
      (None / NaN) is [None].
    - The [dd] and [new_head] columns hold integers or NaN: [option Z].
      [sum_dd] is the sum of integer-valued float64 cells, kept as a [Z]
      (float64 addition is exact on integers below 2^53).
    - [mdd] is a float64: a primitive [float]. *)

From Stdlib Require Import List Bool Arith ZArith Lia.
From Stdlib Require Import Ascii String.
From Stdlib Require Import Uint63 Floats.
From Stdlib Require Import Sorted Permutation.
Import ListNotations.

Local Open Scope string_scope.
Local Open Scope list_scope.
Local Open Scope nat_scope.

Set Implicit Arguments.

(** ** Python values and exceptions *)

(** Document and sentence identifiers are either counters ([int]) or text
    read from a metadata line ([str]). *)
Inductive pyval : Type :=
| PyInt (n : Z)
| PyStr (s : string).

(** The exceptions the two functions can raise. *)
Inductive error : Type :=
| IndexError
    (* [line.split(sep, 1)[1]] when [sep] does not occur in [line] *)
| ColumnCountError (passed had : nat)
    (* pandas: "<passed> columns passed, passed data had <had> columns" *)
| LengthMismatch (values index : nat).
    (* pandas: "Length of values (..) does not match length of index (..)" *)

Inductive result (A : Type) : Type :=
| Ok (a : A)
| Raise (e : error).
Arguments Ok {A} a.
Arguments Raise {A} e.

Definition bind {A B : Type} (r : result A) (k : A -> result B) : result B :=
  match r with
  | Ok a => k a
  | Raise e => Raise e
  end.

Notation "x <- c ;; k" := (bind c (fun x => k))
  (at level 61, c at next level, right associativity).

Module Py.

(** ** The string methods used by the parser *)

Definition TAB : ascii := ascii_of_nat 9.
Definition LF : ascii := ascii_of_nat 10.

(** [str.isspace] on the code points below 256. *)
Definition is_space (c : ascii) : bool :=
  let n := nat_of_ascii c in
  ((9 <=? n) && (n <=? 13)) || ((28 <=? n) && (n <=? 32))
  || (n =? 133) || (n =? 160).

(** [str.lower] on one code point below 256: [A-Z] and the Latin-1 capitals
    (all of 0xC0..0xDE but the multiplication sign). *)
Definition lower_char (c : ascii) : ascii :=
  let n := nat_of_ascii c in
  if ((65 <=? n) && (n <=? 90))
     || ((192 <=? n) && (n <=? 222) && negb (n =? 215))
  then ascii_of_nat (n + 32) else c.

Fixpoint lower (s : string) : string :=
  match s with
  | EmptyString => EmptyString
  | String c t => String (lower_char c) (lower t)
  end.

Fixpoint lstrip (s : string) : string :=
  match s with
  | EmptyString => EmptyString
  | String c t => if is_space c then lstrip t else s
  end.

Fixpoint rstrip (s : string) : string :=
  match s with
  | EmptyString => EmptyString
  | String c t =>
      match rstrip t with
      | EmptyString => if is_space c then EmptyString else String c EmptyString
      | t' => String c t'
      end
  end.

(** [s.strip()] *)
Definition strip (s : string) : string := rstrip (lstrip s).

(** [s.split(c)] for a one-character separator: never the empty list. *)
Fixpoint split (c : ascii) (s : string) : list string :=
  match s with
  | EmptyString => [EmptyString]
  | String a t =>
      if Ascii.eqb a c then EmptyString :: split c t
      else match split c t with
           | h :: r => String a h :: r
           | [] => [String a EmptyString]
           end
  end.

(** [s.startswith(p)] *)
Definition startswith (p s : string) : bool := String.prefix p s.

Fixpoint drop (n : nat) (s : string) : string :=
  match n, s with
  | O, _ => s
  | S n', String _ t => drop n' t
  | S _, EmptyString => EmptyString
  end.

(** [s.split(sep, 1)[1]]: what follows the first occurrence of [sep];
    without an occurrence the list has one element and the index fails. *)
Fixpoint split1_snd (sep s : string) : result string :=
  if String.prefix sep s then Ok (drop (String.length sep) s)
  else match s with
       | EmptyString => Raise IndexError
       | String _ t => split1_snd sep t
       end.

(** [sep.join(l)] *)
Fixpoint join (sep : string) (l : list string) : string :=
  match l with
  | [] => EmptyString
  | [x] => x
  | x :: t => (x ++ sep ++ join sep t)%string
  end.

End Py.

(** ** Equality and order of keys *)

Definition pyval_eqb (a b : pyval) : bool :=
  match a, b with
  | PyInt x, PyInt y => Z.eqb x y
  | PyStr x, PyStr y => String.eqb x y
  | _, _ => false
  end.

(** The order in which pandas sorts the keys of an object column: numbers
    first, by value, then strings, by code points. *)
Definition pyval_compare (a b : pyval) : comparison :=
  match a, b with
  | PyInt x, PyInt y => Z.compare x y
  | PyInt _, PyStr _ => Lt
  | PyStr _, PyInt _ => Gt
  | PyStr x, PyStr y => String.compare x y
  end.

Definition opt_eqb {A : Type} (eqb : A -> A -> bool) (a b : option A) : bool :=
  match a, b with
  | Some x, Some y => eqb x y
  | None, None => true
  | _, _ => false
  end.

Definition key := (pyval * pyval)%type.

Definition key_eqb (a b : key) : bool :=
  pyval_eqb (fst a) (fst b) && pyval_eqb (snd a) (snd b).

Definition key_compare (a b : key) : comparison :=
  match pyval_compare (fst a) (fst b) with
  | Eq => pyval_compare (snd a) (snd b)
  | c => c
  end.

(** ** The token table *)

(** One row of the data frame built by [parse_conll]: the twelve columns
    [cols].  The ten CoNLL-U cells are text, or missing when the data line
    was short. *)
Record Token : Type := mkToken {
  docid : option pyval;
  sentid : pyval;
  id : option string;
  token : option string;
  lemma : option string;
  upos : option string;
  xpos : option string;
  feats : option string;
  head : option string;
  deprel : option string;
  deps : option string;
  misc : option string
}.

Definition DataFrame := list Token.

(** ** [parse_conll] *)

Module Parser.

(** A tuple appended to [data]: [(doc_id, sentence_ids[-1], *fields)]. *)
Definition raw_row := (option pyval * pyval * list string)%type.

(** The three lists the loop updates. *)
Record state : Type := mkState {
  data : list raw_row;
  doc_ids : list pyval;
  sentence_ids : list pyval
}.

Definition init : state :=
  {| data := []; doc_ids := []; sentence_ids := [PyInt 1] |}.

(** [l[-1]] *)
Definition last_item {A : Type} (l : list A) : result A :=
  match l with
  | [] => Raise IndexError
  | x :: t => Ok (List.last t x)
  end.

(** [l[-1] = v] *)
Definition set_last {A : Type} (v : A) (l : list A) : result (list A) :=
  match l with
  | [] => Raise IndexError
  | _ :: _ => Ok (List.removelast l ++ [v])
  end.

(** [len(l) + 1] *)
Definition next_int {A : Type} (l : list A) : pyval :=
  PyInt (Z.of_nat (List.length l) + 1).

(** The body of the loop: the line is stripped, then the [if]/[elif] chain
    is tried in its order. *)
Definition step (st : state) (raw : string) : result state :=
  let line := Py.strip raw in
  if Py.startswith "# newdoc id =" line then
    rest <- Py.split1_snd "# newdoc id = " line ;;
    Ok {| data := data st;
          doc_ids := doc_ids st ++ [PyStr (Py.strip rest)];
          sentence_ids := [PyInt 1] |}
  else if String.eqb line "# newdoc" then
    Ok {| data := data st;
          doc_ids := doc_ids st ++ [next_int (doc_ids st)];
          sentence_ids := [PyInt 1] |}
  else if Py.startswith "# sent_id =" line then
    rest <- Py.split1_snd "# sent_id = " line ;;
    ids <- set_last (PyStr (Py.strip rest)) (sentence_ids st) ;;
    Ok {| data := data st; doc_ids := doc_ids st; sentence_ids := ids |}
  else if Py.startswith "#" line then
    Ok st
  else if String.eqb line "" then
    Ok {| data := data st;
          doc_ids := doc_ids st;
          sentence_ids := sentence_ids st ++ [next_int (sentence_ids st)] |}
  else
    sid <- last_item (sentence_ids st) ;;
    let doc_id := match doc_ids st with
                  | [] => None
                  | x :: t => Some (List.last t x)
                  end in
    Ok {| data := data st ++ [(doc_id, sid, Py.split Py.TAB line)];
          doc_ids := doc_ids st;
          sentence_ids := sentence_ids st |}.

Fixpoint loop (st : state) (lines : list string) : result state :=
  match lines with
  | [] => Ok st
  | l :: rest => st' <- step st l ;; loop st' rest
  end.

Definition cols : list string :=
  ["docid"; "sentid"; "id"; "token"; "lemma"; "upos";
   "xpos"; "feats"; "head"; "deprel"; "deps"; "misc"].

(** The number of elements of a tuple of [data]. *)
Definition width (r : raw_row) : nat := 2 + List.length (snd r).

(** A tuple as a row of twelve cells; the cells a short tuple lacks are
    missing. *)
Definition to_token (r : raw_row) : Token :=
  let '(d, s, f) := r in
  mkToken d s (nth_error f 0) (nth_error f 1) (nth_error f 2)
          (nth_error f 3) (nth_error f 4) (nth_error f 5) (nth_error f 6)
          (nth_error f 7) (nth_error f 8) (nth_error f 9).

(** [pd.DataFrame(data, columns=cols)] on a list of tuples: the tuples are
    laid out in an array as wide as the longest of them, shorter ones filled
    with missing cells; the construction fails unless that width is the
    number of column names.  An empty list gives the empty frame. *)
Definition make_frame (rows : list raw_row) : result DataFrame :=
  match rows with
  | [] => Ok []
  | _ :: _ =>
      let had := list_max (map width rows) in
      if had =? List.length cols then Ok (map to_token rows)
      else Raise (ColumnCountError (List.length cols) had)
  end.

Definition parse_conll (conll : string) : result DataFrame :=
  st <- loop init (Py.split Py.LF conll) ;;
  make_frame (data st).

End Parser.

Definition parse_conll := Parser.parse_conll.

(** ** The example document of the notebook *)

Module Example.

Definition tsv (fields : list string) : string :=
  Py.join (String Py.TAB "") fields.

Definition doc_lines : list string :=
  [ "";
    "# newdoc id = doc1";
    "# newpar";
    "# sent_id = 1";
    "# text = I eat the pizza.";
    tsv ["1"; "I"; "I"; "PRON"; "PRP"; "Case=Nom|Number=Sing|Person=1|PronType=Prs"; "2"; "nsubj"; "_"; "_"];
    tsv ["2"; "eat"; "eat"; "VERB"; "VBP"; "Mood=Ind|Tense=Pres|VerbForm=Fin"; "0"; "root"; "_"; "_"];
    tsv ["3"; "the"; "the"; "DET"; "DT"; "Definite=Def|PronType=Art"; "4"; "det"; "_"; "_"];
    tsv ["4"; "pizza"; "pizza"; "NOUN"; "NN"; "Number=Sing"; "2"; "obj"; "_"; "SpaceAfter=No"];
    tsv ["5"; "."; "."; "PUNCT"; "."; "_"; "2"; "punct"; "_"; "_"];
    "";
    "# sent_id = 2";
    "# text = The pizza, which I liked, was eaten by me.";
    tsv ["1"; "The"; "the"; "DET"; "DT"; "Definite=Def|PronType=Art"; "2"; "det"; "_"; "_"];
    tsv ["2"; "pizza"; "pizza"; "NOUN"; "NN"; "Number=Sing"; "9"; "nsubj:pass"; "_"; "SpaceAfter=No"];
    tsv ["3"; ","; ","; "PUNCT"; ","; "_"; "2"; "punct"; "_"; "_"];
    tsv ["4"; "which"; "which"; "PRON"; "WDT"; "PronType=Rel"; "6"; "obj"; "_"; "_"];
    tsv ["5"; "I"; "I"; "PRON"; "PRP"; "Case=Nom|Number=Sing|Person=1|PronType=Prs"; "6"; "nsubj"; "_"; "_"];
    tsv ["6"; "liked"; "like"; "VERB"; "VBD"; "Mood=Ind|Tense=Past|VerbForm=Fin"; "2"; "acl:relcl"; "_"; "SpaceAfter=No"];
    tsv ["7"; ","; ","; "PUNCT"; ","; "_"; "9"; "punct"; "_"; "_"];
    tsv ["8"; "was"; "be"; "AUX"; "VBD"; "Mood=Ind|Number=Sing|Person=3|Tense=Past|VerbForm=Fin"; "9"; "aux:pass"; "_"; "_"];
    tsv ["9"; "eaten"; "eat"; "VERB"; "VBN"; "Tense=Past|VerbForm=Part|Voice=Pass"; "0"; "root"; "_"; "_"];
    tsv ["10"; "by"; "by"; "ADP"; "IN"; "_"; "11"; "case"; "_"; "_"];
    tsv ["11"; "me"; "I"; "PRON"; "PRP"; "Case=Acc|Number=Sing|Person=1|PronType=Prs"; "9"; "obl"; "_"; "SpaceAfter=No"];
    (* the escape after [SpacesAfter=] is a line break of the text *)
    tsv ["12"; "."; "."; "PUNCT"; "."; "_"; "9"; "punct"; "_"; "SpacesAfter="];
    "";
    "";
    "" ].

(** The text bound to [doc]: the lines above, each but the last followed by
    a line feed. *)
Definition doc : string := Py.join (String Py.LF "") doc_lines.

End Example.

(** ** The pandas operations used by [calc_mdd] *)

Module Pd.

(** [groupby(..., sort=False).size()]: one counter per key, in the order in
    which the keys first appear.  Rows whose key has a missing component
    belong to no group. *)
Fixpoint bump (k : key) (acc : list (key * nat)) : list (key * nat) :=
  match acc with
  | [] => [(k, 1)]
  | (k', n) :: rest =>
      if key_eqb k k' then (k', S n) :: rest else (k', n) :: bump k rest
  end.

Definition count_step (acc : list (key * nat)) (k : option key)
  : list (key * nat) :=
  match k with
  | Some k => bump k acc
  | None => acc
  end.

Definition group_sizes (keys : list (option key)) : list nat :=
  map snd (fold_left count_step keys []).

(** The keys of a sorting [groupby], each once, in increasing order. *)
Fixpoint insert_key {K : Type} (cmp : K -> K -> comparison) (k : K)
  (l : list K) : list K :=
  match l with
  | [] => [k]
  | h :: t =>
      match cmp k h with
      | Lt => k :: l
      | Eq => l
      | Gt => h :: insert_key cmp k t
      end
  end.

Definition sorted_keys {K : Type} (cmp : K -> K -> comparison)
  (keys : list K) : list K :=
  fold_right (insert_key cmp) [] keys.

(** The present cells of a column. *)
Fixpoint dropna {A : Type} (l : list (option A)) : list A :=
  match l with
  | [] => []
  | Some x :: t => x :: dropna t
  | None :: t => dropna t
  end.

(** ['sum'], which skips NaN, and is 0 on a group without numbers. *)
Definition sum (l : list (option Z)) : Z := fold_right Z.add 0%Z (dropna l).

(** ['count']: the number of present cells. *)
Definition count {A : Type} (l : list (option A)) : Z :=
  Z.of_nat (List.length (dropna l)).

(** ['nunique']: the number of distinct values. *)
Fixpoint unique (l : list pyval) : list pyval :=
  match l with
  | [] => []
  | x :: t => x :: filter (fun y => negb (pyval_eqb x y)) (unique t)
  end.

Definition nunique (l : list pyval) : Z := Z.of_nat (List.length (unique l)).

(** An integer column converted to float64. *)
Definition to_float (z : Z) : float :=
  if (z <? 0)%Z then PrimFloat.opp (PrimFloat.of_uint63 (Uint63.of_Z (- z)))
  else PrimFloat.of_uint63 (Uint63.of_Z z).

(** [a / b] on columns of numbers: float64 division; dividing by zero is
    not an error, it gives NaN or an infinity. *)
Definition true_div (a b : Z) : float :=
  PrimFloat.div (to_float a) (to_float b).

End Pd.

(** ** [calc_mdd] *)

(** [d['upos'].str.lower() != 'punct']: false on a punctuation row; a row
    whose [upos] is missing is kept. *)
Definition is_punct (t : Token) : bool :=
  match upos t with
  | Some s => String.eqb (Py.lower s) "punct"
  | None => false
  end.

Definition remove_punct (d : DataFrame) : DataFrame :=
  filter (fun t => negb (is_punct t)) d.

(** The key of a row for [groupby(['docid', 'sentid'])]. *)
Definition group_key (t : Token) : option key :=
  match docid t with
  | Some d => Some (d, sentid t)
  | None => None
  end.

(** [doc_sent_n] *)
Definition doc_sent_n (d : DataFrame) : list nat :=
  Pd.group_sizes (map group_key d).

(** [range(1, l+1)] *)
Definition range1 (l : nat) : list Z := map Z.of_nat (seq 1 l).

(** [list(chain.from_iterable([range(1, l+1) for l in doc_sent_n]))] *)
Definition new_id_values (sizes : list nat) : list Z := flat_map range1 sizes.

(** A row of [d] once the column [new_id] is there. *)
Record IRow : Type := mkIRow {
  tok : Token;
  new_id : Z
}.

(** [d['new_id'] = values]: the list is laid along the rows of [d]; a list
    of another length is refused. *)
Definition assign_new_id (d : DataFrame) (values : list Z)
  : result (list IRow) :=
  if List.length values =? List.length d
  then Ok (map (fun p => mkIRow (fst p) (snd p)) (combine d values))
  else Raise (LengthMismatch (List.length values) (List.length d)).

(** The re-indexing step: the first three statements of [calc_mdd]. *)
Definition reindex (d0 : DataFrame) : result (list IRow) :=
  let d := remove_punct d0 in
  assign_new_id d (new_id_values (doc_sent_n d)).

(** A row of [ref]: the columns [docid], [sentid], [id] and [new_id] of [d],
    the last two renamed [head] and [new_head]. *)
Record RefRow : Type := mkRefRow {
  ref_docid : option pyval;
  ref_sentid : pyval;
  ref_head : option string;
  ref_new_head : Z
}.

Definition make_ref (d : list IRow) : list RefRow :=
  map (fun r => mkRefRow (docid (tok r)) (sentid (tok r)) (id (tok r))
                         (new_id r)) d.

(** A row of the merged frame: the columns of [d] and [new_head], which is
    missing where the join found nothing. *)
Record MRow : Type := mkMRow {
  lhs : IRow;
  new_head : option Z
}.

(** Equality of the join keys [['docid', 'sentid', 'head']]; [merge] lets a
    missing key match a missing key. *)
Definition on_keys (r : IRow) (f : RefRow) : bool :=
  opt_eqb pyval_eqb (docid (tok r)) (ref_docid f)
  && pyval_eqb (sentid (tok r)) (ref_sentid f)
  && opt_eqb String.eqb (head (tok r)) (ref_head f).

(** The rows a left join makes of one row of [d]: one per matching row of
    [ref], or a single one without [new_head]. *)
Definition join_row (ref : list RefRow) (r : IRow) : list MRow :=
  match filter (on_keys r) ref with
  | [] => [mkMRow r None]
  | ms => map (fun f => mkMRow r (Some (ref_new_head f))) ms
  end.

(** [pd.merge(d, ref, how='left', on=['docid', 'sentid', 'head'])] *)
Definition merge_left (d : list IRow) (ref : list RefRow) : list MRow :=
  flat_map (join_row ref) d.

(** [d['dd'] = (d['new_head'] - d['new_id']).abs()] *)
Definition dd (m : MRow) : option Z :=
  match new_head m with
  | Some h => Some (Z.abs (h - new_id (lhs m)))
  | None => None
  end.

(** The frame on which the aggregation runs. *)
Definition merged (d0 : DataFrame) : result (list MRow) :=
  d <- reindex d0 ;;
  Ok (merge_left d (make_ref d)).

Definition m_key (m : MRow) : option key := group_key (tok (lhs m)).
Definition m_docid (m : MRow) : option pyval := docid (tok (lhs m)).

Definition in_group (k : key) (m : MRow) : bool :=
  opt_eqb key_eqb (m_key m) (Some k).

Definition in_doc (k : pyval) (m : MRow) : bool :=
  opt_eqb pyval_eqb (m_docid m) (Some k).

(** The rows returned with [by_sentence=True]. *)
Record SentRow : Type := mkSentRow {
  s_docid : pyval;
  s_sentid : pyval;
  s_sum_dd : Z;
  s_n_tokens : Z;
  s_mdd : float
}.

(** The rows returned with [by_sentence=False]. *)
Record DocRow : Type := mkDocRow {
  d_docid : pyval;
  d_sum_dd : Z;
  d_n_tokens : Z;
  d_n_sents : Z;
  d_mdd : float
}.

Inductive AggFrame : Type :=
| BySentence (rows : list SentRow)
| ByDocument (rows : list DocRow).

(** One output row of [groupby(['docid', 'sentid']).agg({'dd': 'sum',
    'token': 'count'})] with its [mdd]. *)
Definition sent_row (m : list MRow) (k : key) : SentRow :=
  let g := filter (in_group k) m in
  let s := Pd.sum (map dd g) in
  let n := Pd.count (map (fun r => token (tok (lhs r))) g) in
  mkSentRow (fst k) (snd k) s n (Pd.true_div s (n - 1)).

(** One output row of [groupby(['docid']).agg({'dd': 'sum',
    'token': 'count', 'sentid': 'nunique'})] with its [mdd]. *)
Definition doc_row (m : list MRow) (k : pyval) : DocRow :=
  let g := filter (in_doc k) m in
  let s := Pd.sum (map dd g) in
  let n := Pd.count (map (fun r => token (tok (lhs r))) g) in
  let ns := Pd.nunique (map (fun r => sentid (tok (lhs r))) g) in
  mkDocRow k s n ns (Pd.true_div s (n - ns)).

Definition agg_by_sentence (m : list MRow) : list SentRow :=
  map (sent_row m) (Pd.sorted_keys key_compare (Pd.dropna (map m_key m))).

Definition agg_by_document (m : list MRow) : list DocRow :=
  map (doc_row m) (Pd.sorted_keys pyval_compare (Pd.dropna (map m_docid m))).

Definition calc_mdd (d : DataFrame) (by_sentence : bool) : result AggFrame :=
  m <- merged d ;;
  if by_sentence then Ok (BySentence (agg_by_sentence m))
  else Ok (ByDocument (agg_by_document m)).

(** [doc_df[doc_df.sentid == s]] *)
Definition select_sentid (s : pyval) (d : DataFrame) : DataFrame :=
  filter (fun t => pyval_eqb (sentid t) s) d.

(** ** Notions used to state the properties *)

(** [x] rounds to [num / 10^4] at four decimals. *)
Definition approx4 (x : float) (num : Z) : bool :=
  PrimFloat.ltb (PrimFloat.abs (PrimFloat.sub x (Pd.true_div num 10000)))
                (Pd.true_div 5 100000).

(** Every row has a document identifier. *)
Definition has_docid (d : DataFrame) : Prop :=
  forall t, In t d -> docid t <> None.

(** The rows of a frame with the column [new_id] that belong to a group. *)
Definition i_in_group (k : key) (r : IRow) : bool :=
  opt_eqb key_eqb (group_key (tok r)) (Some k).

(** The [new_id] cells of a group, in row order. *)
Definition group_new_ids (k : key) (d : list IRow) : list Z :=
  map new_id (filter (i_in_group k) d).

(** The retained rows of a group, in row order. *)
Definition group_rows (k : key) (d : DataFrame) : DataFrame :=
  filter (fun t => opt_eqb key_eqb (group_key t) (Some k)) (remove_punct d).

(** What identifies a token in the table: its sentence and its original
    index. *)
Definition index_key (t : Token) : option pyval * pyval * option string :=
  (docid t, sentid t, id t).

(** The original indices are unique within every (docid, sentid) group of
    retained rows. *)
Definition unique_ids (d : DataFrame) : Prop :=
  NoDup (map index_key (remove_punct d)).

(** The rows of one sentence numbered from 1, in their order. *)
Definition number (l : list Token) : list IRow :=
  map (fun p => mkIRow (fst p) (snd p)) (combine l (range1 (List.length l))).

(** A document given sentence by sentence: every sentence has its own
    (docid, sentid) key, which all its rows carry. *)
Definition sentences := list (key * list Token).

Definition well_formed (D : sentences) : Prop :=
  NoDup (map fst D)
  /\ Forall (fun ks => Forall (fun t => group_key t = Some (fst ks)) (snd ks)) D.

(** The token table of the document: its sentences one after the other. *)
Definition table (D : sentences) : DataFrame := flat_map snd D.

(** The counters of a table made of whole sentences: one per sentence that
    keeps a row, in the order of the sentences. *)
Definition block_counts (D : sentences) : list (key * nat) :=
  flat_map (fun ks => match List.length (remove_punct (snd ks)) with
                      | O => []
                      | S n => [(fst ks, S n)]
                      end) D.

(** The row of a sentence in the frame returned with [by_sentence=True]. *)
Definition find_sent_row (k : key) (rows : list SentRow) : option SentRow :=
  find (fun r => key_eqb (s_docid r, s_sentid r) k) rows.

(** [str.upper] on an ASCII letter. *)
Definition upper_char (c : ascii) : ascii :=
  let n := nat_of_ascii c in
  if (97 <=? n) && (n <=? 122) then ascii_of_nat (n - 32) else c.

(** [s] is the tag [tag], written in lower case, up to the case of each
    letter: character by character, [s] has the letter of [tag] or its
    capital. *)
Fixpoint caseless_eqb (s tag : string) : bool :=
  match s, tag with
  | EmptyString, EmptyString => true
  | String a s', String b tag' =>
      (Ascii.eqb a b || Ascii.eqb a (upper_char b)) && caseless_eqb s' tag'
  | _, _ => false
  end.

(** A row carries the punctuation tag. *)
Definition punct_tagged (t : Token) : Prop :=
  exists s, upos t = Some s /\ caseless_eqb s "punct" = true.

(** Two rows are the same word of the same sentence: they may differ in
    their index, in their head and in cells the aggregation does not read. *)
Definition same_word (t t' : Token) : Prop :=
  docid t = docid t' /\ sentid t = sentid t' /\ token t = token t'.

(** Two tables have the same words once punctuation is left out. *)
Definition same_words (d d' : DataFrame) : Prop :=
  Forall2 same_word (remove_punct d) (remove_punct d').

(** The head references of the two tables agree: within a sentence, a word
    has another word as its head in one table exactly when it has it in the
    other. *)
Definition heads_consistent (d d' : DataFrame) : Prop :=
  forall t t' u u',
    In (t, t') (combine (remove_punct d) (remove_punct d')) ->
    In (u, u') (combine (remove_punct d) (remove_punct d')) ->
    docid t = docid u -> sentid t = sentid u ->
    (head t = id u <-> head t' = id u').

(** Two rows of merged frames agree on all that the aggregation reads. *)
Definition same_row (m m' : MRow) : Prop :=
  same_word (tok (lhs m)) (tok (lhs m'))
  /\ new_id (lhs m) = new_id (lhs m')
  /\ new_head m = new_head m'.

(** A function applied to a result. *)
Definition fmap {A B : Type} (f : A -> B) (r : result A) : result B :=
  match r with
  | Ok a => Ok (f a)
  | Raise e => Raise e
  end.

(** The lines of a text that the parser takes for data: after stripping,
    neither empty nor starting with [#]. *)
Definition is_data_line (raw : string) : bool :=
  let line := Py.strip raw in
  negb (Py.startswith "#" line) && negb (String.eqb line "").

Definition data_lines (conll : string) : list string :=
  filter is_data_line (Py.split Py.LF conll).

(** The tab-separated fields of a data line. *)
Definition fields (raw : string) : list string :=
  Py.split Py.TAB (Py.strip raw).

(** The strict orders of the keys. *)
Definition pyval_lt (a b : pyval) : Prop := pyval_compare a b = Lt.
Definition key_lt (a b : key) : Prop := key_compare a b = Lt.

(** The key of a row returned by sentence. *)
Definition sent_key (r : SentRow) : key := (s_docid r, s_sentid r).

(** The sum of a list of integers. *)
Definition zsum (l : list Z) : Z := fold_right Z.add 0%Z l.

(** The rows returned by sentence that belong to a document. *)
Definition rows_of_doc (k : pyval) (rows : list SentRow) : list SentRow :=
  filter (fun r => pyval_eqb (s_docid r) k) rows.

(** What a row of the merged frame adds to ['sum'] of [dd] and to
    ['count'] of [token]. *)
Definition dd_weight (m : MRow) : Z :=
  match dd m with
  | Some v => v
  | None => 0%Z
  end.

Definition token_weight (m : MRow) : Z :=
  match token (tok (lhs m)) with
  | Some _ => 1%Z
  | None => 0%Z
  end.

(** ** The aggregates, token by token *)

(** Every retained row has a [token] cell. *)
Definition tokens_present (d : DataFrame) : Prop :=
  forall t, In t (remove_punct d) -> token t <> None.

(** The retained rows of a document, in row order. *)
Definition doc_rows_kept (k : pyval) (d : DataFrame) : DataFrame :=
  filter (fun t => opt_eqb pyval_eqb (docid t) (Some k)) (remove_punct d).

(** The rows of a frame with the column [new_id] that belong to a
    document. *)
Definition i_in_doc (k : pyval) (r : IRow) : bool :=
  opt_eqb pyval_eqb (docid (tok r)) (Some k).

(** [y] is a token of the sentence of [x] whose original index is the head
    of [x]. *)
Definition head_index_of (x y : IRow) : bool :=
  opt_eqb pyval_eqb (docid (tok x)) (docid (tok y))
  && pyval_eqb (sentid (tok x)) (sentid (tok y))
  && opt_eqb String.eqb (head (tok x)) (id (tok y)).

(** The head of a retained token among the retained tokens: the first one
    of its sentence whose original index is its head, if there is one. *)
Definition head_token (R : list IRow) (x : IRow) : option IRow :=
  find (head_index_of x) R.

(** The new index of the head of a retained token. *)
Definition new_head_of (R : list IRow) (x : IRow) : option Z :=
  option_map new_id (head_token R x).

(** The dependency distance of a retained token: the distance between its
    new index and the new index of its head; none when no retained token
    of its sentence is its head. *)
Definition token_dd (R : list IRow) (x : IRow) : option Z :=
  option_map (fun h => Z.abs (h - new_id x)) (new_head_of R x).

(** What a retained token adds to the sum of distances. *)
Definition token_distance (R : list IRow) (x : IRow) : Z :=
  match token_dd R x with
  | Some v => v
  | None => 0%Z
  end.

(** The row of a document in the frame returned with [by_sentence=False]. *)
Definition find_doc_row (k : pyval) (rows : list DocRow) : option DocRow :=
  find (fun r => pyval_eqb (d_docid r) k) rows.

(** The other kinds of line the parser tells apart, each on the stripped
    line.  A line that gives an identifier: the two branches that split the
    line and index the result. *)
Definition is_id_line (raw : string) : bool :=
  let line := Py.strip raw in
  Py.startswith "# newdoc id =" line || Py.startswith "# sent_id =" line.

(** A line that starts a document. *)
Definition is_newdoc_line (raw : string) : bool :=
  let line := Py.strip raw in
  Py.startswith "# newdoc id =" line || String.eqb line "# newdoc".

(** A line that separates sentences. *)
Definition is_blank_line (raw : string) : bool :=
  String.eqb (Py.strip raw) "".

(** [doc_ids[-1] if doc_ids else None] *)
Definition current_doc (doc_ids : list pyval) : option pyval :=
  match doc_ids with
  | [] => None
  | x :: t => Some (List.last t x)
  end.

(** The first, second, fourth and seventh field of a data line. *)
Definition field (n : nat) (raw : string) : option string :=
  nth_error (fields raw) n.

(** ** Small inputs *)

Module Cases.

(** A complete row: the cells the aggregation does not read are [_]. *)
Definition word (doc sent i form pos h : string) : Token :=
  mkToken (Some (PyStr doc)) (PyStr sent) (Some i) (Some form) (Some "_")
          (Some pos) (Some "_") (Some "_") (Some h) (Some "_") (Some "_")
          (Some "_").

(** The data line of such a row. *)
Definition line (i form pos h : string) : string :=
  Example.tsv [i; form; "_"; pos; "_"; "_"; h; "_"; "_"; "_"].

Definition text (lines : list string) : string :=
  Py.join (String Py.LF "") lines.

(** A sentence of one word. *)
Definition lone : DataFrame := [word "d" "1" "1" "Hello" "INTJ" "0"].

(** Its only row in the merged frame. *)
Definition lone_merged : MRow :=
  mkMRow (mkIRow (word "d" "1" "1" "Hello" "INTJ" "0") 1) None.

(** A sentence with a comma, and the same sentence without it, its words
    renumbered and the head of the first word renumbered with them. *)
Definition with_comma : DataFrame :=
  [word "d" "1" "1" "well" "INTJ" "3";
   word "d" "1" "2" "," "PUNCT" "3";
   word "d" "1" "3" "go" "VERB" "0"].

Definition without_comma : DataFrame :=
  [word "d" "1" "1" "well" "INTJ" "2";
   word "d" "1" "2" "go" "VERB" "0"].

(** A word whose head is a comma. *)
Definition comma_head : DataFrame :=
  [word "d" "1" "1" "well" "INTJ" "2";
   word "d" "1" "2" "," "PUNCT" "3";
   word "d" "1" "3" "go" "VERB" "0"].

(** A document of two sentences. *)
Definition second : DataFrame :=
  [word "d" "2" "1" "Stop" "VERB" "0";
   word "d" "2" "2" "," "PUNCT" "1";
   word "d" "2" "3" "please" "INTJ" "1";
   word "d" "2" "4" "now" "ADV" "1"].

Definition two_sentences : sentences :=
  [((PyStr "d", PyStr "1"), comma_head); ((PyStr "d", PyStr "2"), second)].

(** Three sentences whose identifiers are not in increasing order. *)
Definition unsorted_sentences : sentences :=
  [((PyStr "d", PyStr "9"),
    [mkToken (Some (PyStr "d")) (PyStr "9") (Some "1") (Some "go") (Some "_")
             (Some "VERB") (Some "_") (Some "_") (Some "0") (Some "_")
             (Some "_") (Some "_")]);
   ((PyStr "d", PyStr "10"),
    [mkToken (Some (PyStr "d")) (PyStr "10") (Some "1") (Some "stop")
             (Some "_") (Some "VERB") (Some "_") (Some "_") (Some "0")
             (Some "_") (Some "_") (Some "_")]);
   ((PyStr "d", PyInt 2),
    [mkToken (Some (PyStr "d")) (PyInt 2) (Some "1") (Some "wait") (Some "_")
             (Some "VERB") (Some "_") (Some "_") (Some "0") (Some "_")
             (Some "_") (Some "_")])].

(** The rows that [calc_mdd] returns for [two_sentences]. *)
Definition two_sentences_rows : list SentRow :=
  [mkSentRow (PyStr "d") (PyStr "1") 0 2 (Pd.true_div 0 1);
   mkSentRow (PyStr "d") (PyStr "2") 3 3 (Pd.true_div 3 2)].

Definition two_sentences_doc_row : DocRow :=
  mkDocRow (PyStr "d") 3 5 2 (Pd.true_div 3 3).

(** Two rows of one sentence with the same [id]. *)
Definition twice : DataFrame :=
  [word "d" "1" "1" "a" "NOUN" "1";
   word "d" "1" "1" "b" "NOUN" "1"].

(** The sentence identifier [a] is given to two sentences, with another
    sentence between them. *)
Definition reused_sent_id : string :=
  text ["# newdoc id = d";
        "# sent_id = a";
        line "1" "go" "VERB" "0";
        "";
        "# sent_id = b";
        line "1" "stop" "VERB" "0";
        "";
        "# sent_id = a";
        line "1" "wait" "VERB" "0"].

(** A text without any [# newdoc] line. *)
Definition no_newdoc : string :=
  text ["# sent_id = 1";
        line "1" "go" "VERB" "0";
        line "2" "now" "ADV" "1"].

(** A text of data lines and a comment only. *)
Definition no_newdoc_plain : string :=
  text ["# text = go now";
        line "1" "go" "VERB" "0";
        line "2" "now" "ADV" "1";
        ""].

(** A document line without identifier, after a data line. *)
Definition empty_doc_id : string :=
  text [line "1" "go" "VERB" "0";
        "# newdoc id = ";
        "# sent_id = 1"].

(** A data line of ten fields followed by a line that has an index and
    nothing else. *)
Definition bare_index : string :=
  text ["# newdoc id = d";
        line "1" "go" "VERB" "2";
        "2"].

(** A data line of ten fields followed by one of nine. *)
Definition short_line : string :=
  text ["# newdoc id = d";
        line "1" "go" "VERB" "0";
        Example.tsv ["2"; "now"; "_"; "ADV"; "_"; "_"; "1"; "_"; "_"]].

(** A data line of eleven fields. *)
Definition long_line : string :=
  text ["# newdoc id = d";
        Example.tsv ["1"; "go"; "_"; "VERB"; "_"; "_"; "0"; "_"; "_"; "_"; "x"]].

End Cases.

(** * Properties *)

Unset Implicit Arguments.

(** ** Equality tests and comparisons *)

Lemma pyval_eqb_eq (a b : pyval) : pyval_eqb a b = true <-> a = b.
Proof.
  destruct a as [x|x], b as [y|y]; simpl; split; intro H;
    try discriminate; try (inversion H; subst).
  - apply Z.eqb_eq in H. now subst.
  - apply Z.eqb_refl.
  - apply String.eqb_eq in H. now subst.
  - apply String.eqb_refl.
Qed.

Lemma pyval_eqb_refl (a : pyval) : pyval_eqb a a = true.
Proof. now apply pyval_eqb_eq. Qed.

Lemma key_eqb_eq (a b : key) : key_eqb a b = true <-> a = b.
Proof.
  destruct a as [a1 a2], b as [b1 b2]. unfold key_eqb. simpl.
  rewrite andb_true_iff, !pyval_eqb_eq. split.
  - intros [-> ->]. reflexivity.
  - intros H. inversion H. auto.
Qed.

Lemma key_eqb_refl (a : key) : key_eqb a a = true.
Proof. now apply key_eqb_eq. Qed.

Lemma key_eqb_neq (a b : key) : key_eqb a b = false <-> a <> b.
Proof.
  rewrite <- key_eqb_eq. destruct (key_eqb a b); split; congruence.
Qed.

Lemma opt_eqb_eq {A : Type} (eqb : A -> A -> bool) :
  (forall x y, eqb x y = true <-> x = y) ->
  forall a b, opt_eqb eqb a b = true <-> a = b.
Proof.
  intros Heq [x|] [y|]; simpl; split; intro H; try discriminate; auto.
  - apply Heq in H. now subst.
  - inversion H. now apply Heq.
Qed.

Lemma opt_key_eqb_eq (a b : option key) :
  opt_eqb key_eqb a b = true <-> a = b.
Proof. apply opt_eqb_eq, key_eqb_eq. Qed.

Lemma opt_pyval_eqb_eq (a b : option pyval) :
  opt_eqb pyval_eqb a b = true <-> a = b.
Proof. apply opt_eqb_eq, pyval_eqb_eq. Qed.

Lemma opt_string_eqb_eq (a b : option string) :
  opt_eqb String.eqb a b = true <-> a = b.
Proof. apply opt_eqb_eq, String.eqb_eq. Qed.

Lemma pyval_compare_eq (a b : pyval) : pyval_compare a b = Eq -> a = b.
Proof.
  destruct a as [x|x], b as [y|y]; simpl; intro H; try discriminate.
  - apply Z.compare_eq in H. now subst.
  - apply String.compare_eq_iff in H. now subst.
Qed.

Lemma key_compare_eq (a b : key) : key_compare a b = Eq -> a = b.
Proof.
  destruct a as [a1 a2], b as [b1 b2]. unfold key_compare. simpl.
  destruct (pyval_compare a1 b1) eqn:E1; try discriminate.
  intro E2. apply pyval_compare_eq in E1, E2. now subst.
Qed.

(** The join condition says that the three key cells are the same. *)
Lemma on_keys_true (r : IRow) (f : RefRow) :
  on_keys r f = true <->
  docid (tok r) = ref_docid f /\ sentid (tok r) = ref_sentid f
  /\ head (tok r) = ref_head f.
Proof.
  unfold on_keys.
  rewrite !andb_true_iff, opt_pyval_eqb_eq, pyval_eqb_eq, opt_string_eqb_eq.
  tauto.
Qed.

(** ** Sorted keys *)

Section SortedKeys.
Context {K : Type} (cmp : K -> K -> comparison).
Hypothesis cmp_eq : forall a b, cmp a b = Eq -> a = b.

Lemma insert_key_In (k x : K) (l : list K) :
  In x (Pd.insert_key cmp k l) <-> x = k \/ In x l.
Proof.
  induction l as [|h t IH]; simpl.
  - intuition.
  - destruct (cmp k h) eqn:E; simpl.
    + apply cmp_eq in E. subst. intuition.
    + intuition.
    + rewrite IH. intuition.
Qed.

Lemma sorted_keys_In (x : K) (l : list K) :
  In x (Pd.sorted_keys cmp l) <-> In x l.
Proof.
  induction l as [|h t IH]; simpl.
  - tauto.
  - rewrite insert_key_In, IH. intuition.
Qed.
End SortedKeys.

(** ** Columns with missing cells *)

Lemma dropna_app {A : Type} (l1 l2 : list (option A)) :
  Pd.dropna (l1 ++ l2) = Pd.dropna l1 ++ Pd.dropna l2.
Proof.
  induction l1 as [|[x|] t IH]; simpl; auto. now rewrite IH.
Qed.

Lemma dropna_In {A : Type} (x : A) (l : list (option A)) :
  In x (Pd.dropna l) <-> In (Some x) l.
Proof.
  induction l as [|[y|] t IH]; simpl.
  - tauto.
  - rewrite IH. split; intros [H|H]; auto; left; congruence.
  - rewrite IH. split; [auto|intros [H|H]; [discriminate|auto]].
Qed.

Lemma dropna_length_le {A : Type} (l : list (option A)) :
  List.length (Pd.dropna l) <= List.length l.
Proof. induction l as [|[x|] t IH]; simpl; lia. Qed.

Lemma dropna_length_full {A : Type} (l : list (option A)) :
  List.length (Pd.dropna l) = List.length l <-> ~ In None l.
Proof.
  induction l as [|[x|] t IH]; simpl.
  - tauto.
  - split.
    + intros H [H1|H1]; [discriminate|]. apply IH; auto.
    + intros H. f_equal. apply IH. tauto.
  - pose proof (dropna_length_le t). split; [lia|tauto].
Qed.

Lemma sum_app (l1 l2 : list (option Z)) :
  Pd.sum (l1 ++ l2) = (Pd.sum l1 + Pd.sum l2)%Z.
Proof.
  unfold Pd.sum. rewrite dropna_app.
  induction (Pd.dropna l1) as [|x t IH]; simpl; lia.
Qed.

Lemma count_app {A : Type} (l1 l2 : list (option A)) :
  Pd.count (l1 ++ l2) = (Pd.count l1 + Pd.count l2)%Z.
Proof.
  unfold Pd.count. rewrite dropna_app, length_app. lia.
Qed.

(** ** The re-indexing step *)

Lemma bump_total (k : key) (acc : list (key * nat)) :
  list_sum (map snd (Pd.bump k acc)) = S (list_sum (map snd acc)).
Proof.
  induction acc as [|[k' n] t IH]; simpl; auto.
  destruct (key_eqb k k'); simpl; auto. rewrite IH. lia.
Qed.

Lemma count_groups_total (ks : list (option key)) (acc : list (key * nat)) :
  list_sum (map snd (fold_left Pd.count_step ks acc))
  = list_sum (map snd acc) + List.length (Pd.dropna ks).
Proof.
  revert acc. induction ks as [|[k|] t IH]; intro acc; simpl.
  - lia.
  - rewrite IH, bump_total. lia.
  - apply IH.
Qed.

Lemma range1_length (l : nat) : List.length (range1 l) = l.
Proof. unfold range1. now rewrite length_map, length_seq. Qed.

Lemma new_id_values_length (sizes : list nat) :
  List.length (new_id_values sizes) = list_sum sizes.
Proof.
  induction sizes as [|n t IH]; simpl; auto.
  rewrite length_app, range1_length, IH. reflexivity.
Qed.

(** The values made for [new_id] are as many as the rows that have a key. *)
Lemma new_id_values_count (d : DataFrame) :
  List.length (new_id_values (doc_sent_n d))
  = List.length (Pd.dropna (map group_key d)).
Proof.
  unfold doc_sent_n, Pd.group_sizes.
  rewrite new_id_values_length, count_groups_total. reflexivity.
Qed.

Lemma group_key_present (d : DataFrame) :
  has_docid d -> ~ In None (map group_key d).
Proof.
  intros H Hin. apply in_map_iff in Hin. destruct Hin as [t [Hk Ht]].
  apply H in Ht. unfold group_key in Hk. destruct (docid t); congruence.
Qed.

Lemma combine_tok (d : DataFrame) (v : list Z) :
  List.length v = List.length d ->
  map tok (map (fun p => mkIRow (fst p) (snd p)) (combine d v)) = d.
Proof.
  revert v. induction d as [|t d IH]; intros [|z v] H; simpl in *;
    try discriminate; auto.
  f_equal. apply IH. lia.
Qed.

Lemma combine_new_id (d : DataFrame) (v : list Z) :
  List.length v = List.length d ->
  map new_id (map (fun p => mkIRow (fst p) (snd p)) (combine d v)) = v.
Proof.
  revert v. induction d as [|t d IH]; intros [|z v] H; simpl in *;
    try discriminate; auto.
  f_equal. apply IH. lia.
Qed.

(** When every retained row has a document identifier the assignment of
    [new_id] goes through, and the rows are the retained ones, in order. *)
Lemma reindex_ok (d : DataFrame) :
  has_docid (remove_punct d) ->
  exists r, reindex d = Ok r
            /\ map tok r = remove_punct d
            /\ map new_id r = new_id_values (doc_sent_n (remove_punct d)).
Proof.
  intro H. unfold reindex, assign_new_id.
  assert (L : List.length (new_id_values (doc_sent_n (remove_punct d)))
              = List.length (remove_punct d)).
  { rewrite new_id_values_count.
    rewrite <- (length_map group_key (remove_punct d)).
    apply dropna_length_full. now apply group_key_present. }
  rewrite L, Nat.eqb_refl. eexists. split; [reflexivity|].
  split; [now apply combine_tok | now apply combine_new_id].
Qed.

(** A retained row without document identifier makes the assignment fail:
    such rows are in no group, and the values are too few. *)
Lemma reindex_raises (d : DataFrame) :
  ~ has_docid (remove_punct d) ->
  exists n, reindex d = Raise (LengthMismatch n (List.length (remove_punct d)))
            /\ n < List.length (remove_punct d).
Proof.
  intro H. unfold reindex, assign_new_id.
  set (k := remove_punct d) in *.
  assert (L : List.length (new_id_values (doc_sent_n k)) < List.length k).
  { rewrite new_id_values_count.
    pose proof (dropna_length_le (map group_key k)) as Hle.
    rewrite length_map in Hle.
    destruct (Nat.eq_dec (List.length (Pd.dropna (map group_key k)))
                         (List.length k)) as [E|E]; [|lia].
    exfalso. apply H. intros t Ht Hd.
    rewrite <- (length_map group_key k) in E.
    apply dropna_length_full in E. apply E.
    apply in_map_iff. exists t. split; auto.
    unfold group_key. now rewrite Hd. }
  exists (List.length (new_id_values (doc_sent_n k))). split; auto.
  destruct (Nat.eqb_spec (List.length (new_id_values (doc_sent_n k)))
                         (List.length k)); [lia|reflexivity].
Qed.

Lemma merged_ok (d : DataFrame) :
  has_docid (remove_punct d) ->
  exists r, reindex d = Ok r
            /\ map tok r = remove_punct d
            /\ merged d = Ok (merge_left r (make_ref r)).
Proof.
  intro H. destruct (reindex_ok d H) as [r [E [T _]]].
  exists r. unfold merged. rewrite E. auto.
Qed.

Lemma calc_mdd_ok (d : DataFrame) (by_sentence : bool) :
  has_docid (remove_punct d) ->
  exists frame, calc_mdd d by_sentence = Ok frame.
Proof.
  intro H. destruct (merged_ok d H) as [r [_ [_ E]]].
  unfold calc_mdd. rewrite E. simpl. destruct by_sentence; eauto.
Qed.

(** The tokens of a text without [# newdoc] line have no document
    identifier, and [calc_mdd] raises on their table. *)
Lemma no_newdoc_raises :
  exists df,
    parse_conll Cases.no_newdoc = Ok df
    /\ map docid df = [None; None]
    /\ calc_mdd df true = Raise (LengthMismatch 0 2)
    /\ calc_mdd df false = Raise (LengthMismatch 0 2).
Proof.
  eexists. split; [vm_compute; reflexivity|].
  repeat split; vm_compute; reflexivity.
Qed.

(** ** The left join *)

Lemma join_row_lhs (ref : list RefRow) (r : IRow) (m : MRow) :
  In m (join_row ref r) -> lhs m = r.
Proof.
  unfold join_row. destruct (filter (on_keys r) ref) as [|f fs] eqn:E.
  - simpl. intros [<-|[]]. reflexivity.
  - intro H. apply in_map_iff in H. destruct H as [x [<- _]]. reflexivity.
Qed.

Lemma join_row_unmatched (ref : list RefRow) (r : IRow) :
  (forall f, In f ref -> on_keys r f = false) ->
  join_row ref r = [mkMRow r None].
Proof.
  intro H. unfold join_row.
  replace (filter (on_keys r) ref) with (@nil RefRow); auto.
  symmetry. induction ref as [|f t IH]; simpl; auto.
  rewrite (H f (or_introl eq_refl)). apply IH.
  intros g Hg. apply H. now right.
Qed.

Lemma merge_left_In (d : list IRow) (ref : list RefRow) (m : MRow) :
  In m (merge_left d ref) -> In (lhs m) d /\ In m (join_row ref (lhs m)).
Proof.
  unfold merge_left. rewrite in_flat_map. intros [r [Hr Hm]].
  rewrite (join_row_lhs _ _ _ Hm). auto.
Qed.

Lemma make_ref_In (d : list IRow) (f : RefRow) :
  In f (make_ref d) ->
  exists r, In r d /\ ref_docid f = docid (tok r)
            /\ ref_sentid f = sentid (tok r) /\ ref_head f = id (tok r)
            /\ ref_new_head f = new_id r.
Proof.
  unfold make_ref. rewrite in_map_iff. intros [r [<- Hr]].
  exists r. simpl. auto.
Qed.

(** A row whose head is the [id] of no retained row of its group finds
    nothing in [ref]. *)
Lemma dangling_unmatched (d : list IRow) (r : IRow) :
  (forall u, In u d -> group_key (tok u) = group_key (tok r) ->
             id (tok u) <> head (tok r)) ->
  forall f, In f (make_ref d) -> on_keys r f = false.
Proof.
  intros H f Hf. destruct (on_keys r f) eqn:E; auto. exfalso.
  apply on_keys_true in E. destruct E as [E1 [E2 E3]].
  apply make_ref_In in Hf. destruct Hf as [u [Hu [F1 [F2 [F3 _]]]]].
  apply (H u Hu).
  - unfold group_key. rewrite <- F1, <- F2, <- E1, <- E2. reflexivity.
  - congruence.
Qed.

Lemma reindex_has_docid (d : DataFrame) (r : list IRow) :
  reindex d = Ok r -> has_docid (remove_punct d).
Proof.
  intros E t Ht Hd.
  assert (N : ~ has_docid (remove_punct d)).
  { intro H. exact (H t Ht Hd). }
  destruct (reindex_raises d N) as [n [F _]]. congruence.
Qed.

Lemma merged_inv (d : DataFrame) (m : list MRow) :
  merged d = Ok m ->
  exists r, reindex d = Ok r /\ map tok r = remove_punct d
            /\ m = merge_left r (make_ref r).
Proof.
  unfold merged. destruct (reindex d) as [r|e] eqn:E; simpl; [|discriminate].
  intro H. inversion H. subst. exists r. split; auto. split; auto.
  destruct (reindex_ok d (reindex_has_docid d r E)) as [r' [E' [T _]]].
  congruence.
Qed.

Lemma calc_mdd_inv (d : DataFrame) (by_sentence : bool) (frame : AggFrame) :
  calc_mdd d by_sentence = Ok frame ->
  exists m, merged d = Ok m
            /\ frame = if by_sentence then BySentence (agg_by_sentence m)
                       else ByDocument (agg_by_document m).
Proof.
  unfold calc_mdd. destruct (merged d) as [m|e]; simpl; [|discriminate].
  intro H. exists m. split; auto. destruct by_sentence; congruence.
Qed.

(** ** Floating-point quotients *)

(** Whatever is divided by zero, the float64 quotient is NaN or an
    infinity. *)
Lemma div_by_zero (x : float) :
  PrimFloat.div x (Pd.to_float 0) = nan
  \/ PrimFloat.div x (Pd.to_float 0) = infinity
  \/ PrimFloat.div x (Pd.to_float 0) = neg_infinity.
Proof.
  rewrite <- (SF2Prim_Prim2SF (PrimFloat.div x (Pd.to_float 0))).
  rewrite div_spec.
  change (Prim2SF (Pd.to_float 0)) with (S754_zero false).
  destruct (Prim2SF x) as [s | s | | s m e]; simpl.
  all: try (destruct s; vm_compute; auto).
  all: vm_compute; auto.
Qed.

Lemma true_div_zero (a : Z) :
  Pd.true_div a 0 = nan \/ Pd.true_div a 0 = infinity
  \/ Pd.true_div a 0 = neg_infinity.
Proof. apply div_by_zero. Qed.

(** The [mdd] of the rows of the two aggregated frames. *)
Lemma sent_rows_mdd (m : list MRow) (r : SentRow) :
  In r (agg_by_sentence m) ->
  s_mdd r = Pd.true_div (s_sum_dd r) (s_n_tokens r - 1).
Proof.
  unfold agg_by_sentence. intro H. apply in_map_iff in H.
  destruct H as [k [<- _]]. reflexivity.
Qed.

Lemma doc_rows_mdd (m : list MRow) (r : DocRow) :
  In r (agg_by_document m) ->
  d_mdd r = Pd.true_div (d_sum_dd r) (d_n_tokens r - d_n_sents r).
Proof.
  unfold agg_by_document. intro H. apply in_map_iff in H.
  destruct H as [k [<- _]]. reflexivity.
Qed.

(** ** The claims *)

(** C1. On the two-sentence example document, parsed by [parse_conll],
    [calc_mdd] by document returns the single row sum_dd = 20, n_tokens = 13,
    n_sents = 2, mdd = 20/11 (1.8182 at four decimals), and by sentence the
    two rows sum_dd = 4, n_tokens = 4, mdd = 4/3 (1.3333 at four decimals)
    and sum_dd = 16, n_tokens = 9, mdd = 2.0, in this order. *)
Theorem worked_example_aggregates :
  exists doc_df,
    parse_conll Example.doc = Ok doc_df
    /\ calc_mdd doc_df false
       = Ok (ByDocument
               [mkDocRow (PyStr "doc1") 20 13 2 (Pd.true_div 20 11)])
    /\ approx4 (Pd.true_div 20 11) 18182 = true
    /\ calc_mdd doc_df true
       = Ok (BySentence
               [mkSentRow (PyStr "doc1") (PyStr "1") 4 4 (Pd.true_div 4 3);
                mkSentRow (PyStr "doc1") (PyStr "2") 16 9 (Pd.to_float 2)])
    /\ approx4 (Pd.true_div 4 3) 13333 = true.
Proof.
  eexists. split; [vm_compute; reflexivity|].
  repeat split; vm_compute; reflexivity.
Qed.

(** The check of the notebook: the second sentence of the example, taken
    alone, has the row it has in the whole document. *)
Lemma worked_example_second_sentence_alone :
  exists doc_df,
    parse_conll Example.doc = Ok doc_df
    /\ calc_mdd (select_sentid (PyStr "2") doc_df) true
       = Ok (BySentence
               [mkSentRow (PyStr "doc1") (PyStr "2") 16 9 (Pd.to_float 2)]).
Proof.
  eexists. split; vm_compute; reflexivity.
Qed.


(** C3, as the code has it.  The join looks the head [0] up like any other:
    in a table where no retained row of the sentence has the [id] 0, the
    root finds nothing, so its [new_head] is missing (not 0) and its [dd] is
    missing (not 0); a missing [dd] adds nothing to a sum. *)
Theorem root_head_unmatched (d : DataFrame) (m : list MRow) (r : MRow) :
  merged d = Ok m ->
  In r m ->
  head (tok (lhs r)) = Some "0" ->
  (forall u, In u (remove_punct d) ->
             group_key u = group_key (tok (lhs r)) -> id u <> Some "0") ->
  new_head r = None
  /\ dd r = None
  /\ forall g, Pd.sum (map dd (r :: g)) = Pd.sum (map dd g).
Proof.
  intros E Hr Hh Hv.
  apply merged_inv in E. destruct E as [R [_ [T ->]]].
  apply merge_left_In in Hr. destruct Hr as [Hl Hj].
  rewrite join_row_unmatched in Hj.
  - destruct Hj as [<-|[]]. simpl. unfold dd. simpl. auto.
  - apply dangling_unmatched. intros u Hu Hk. rewrite Hh.
    apply Hv; auto. rewrite <- T. now apply in_map.
Qed.

Lemma root_head_unmatched_witness :
  merged Cases.lone = Ok [Cases.lone_merged]
  /\ new_head Cases.lone_merged = None
  /\ dd Cases.lone_merged = None
  /\ forall g, Pd.sum (map dd (Cases.lone_merged :: g)) = Pd.sum (map dd g).
Proof.
  split; [vm_compute; reflexivity|].
  apply (root_head_unmatched Cases.lone [Cases.lone_merged]).
  - vm_compute. reflexivity.
  - left. reflexivity.
  - reflexivity.
  - intros u [<-|[]] _. discriminate.
Defined.

(** C3 as stated fails on the example document itself: the root of the
    first sentence, [eat], has neither [new_head = 0] nor [dd = 0]. *)
Lemma root_new_head_is_not_zero :
  exists doc_df m r,
    parse_conll Example.doc = Ok doc_df
    /\ merged doc_df = Ok m
    /\ nth_error m 1 = Some r
    /\ token (tok (lhs r)) = Some "eat"
    /\ head (tok (lhs r)) = Some "0"
    /\ new_head r <> Some 0%Z
    /\ dd r <> Some 0%Z.
Proof.
  eexists. eexists. eexists.
  split; [vm_compute; reflexivity|].
  split; [vm_compute; reflexivity|].
  split; [vm_compute; reflexivity|].
  repeat split; try reflexivity; discriminate.
Qed.

Lemma merge_left_app (d1 d2 : list IRow) (ref : list RefRow) :
  merge_left (d1 ++ d2) ref = merge_left d1 ref ++ merge_left d2 ref.
Proof. unfold merge_left. apply flat_map_app. Qed.

Lemma group_key_docid (t : Token) (k : key) :
  group_key t = Some k -> docid t = Some (fst k) /\ sentid t = snd k.
Proof.
  unfold group_key. destruct (docid t); intro H; inversion H. auto.
Qed.

(** What one row without [dd] adds to the aggregates of its group. *)
Lemma sent_row_insert (m1 m2 : list MRow) (r : MRow) (k : key) :
  m_key r = Some k -> dd r = None -> token (tok (lhs r)) <> None ->
  s_sum_dd (sent_row (m1 ++ r :: m2) k) = s_sum_dd (sent_row (m1 ++ m2) k)
  /\ s_n_tokens (sent_row (m1 ++ r :: m2) k)
     = (s_n_tokens (sent_row (m1 ++ m2) k) + 1)%Z.
Proof.
  intros Hk Hd Ht. unfold sent_row. simpl.
  rewrite !filter_app. simpl.
  assert (G : in_group k r = true).
  { unfold in_group. rewrite Hk. apply opt_key_eqb_eq. reflexivity. }
  rewrite G. rewrite !map_app. simpl.
  rewrite !sum_app, !count_app.
  rewrite Hd. split.
  - unfold Pd.sum at 2. simpl. reflexivity.
  - destruct (token (tok (lhs r))) as [w|]; [|congruence].
    unfold Pd.count at 2. simpl Pd.dropna. simpl List.length.
    unfold Pd.count. lia.
Qed.

Lemma doc_row_insert (m1 m2 : list MRow) (r : MRow) (k : pyval) :
  m_docid r = Some k -> dd r = None -> token (tok (lhs r)) <> None ->
  d_sum_dd (doc_row (m1 ++ r :: m2) k) = d_sum_dd (doc_row (m1 ++ m2) k)
  /\ d_n_tokens (doc_row (m1 ++ r :: m2) k)
     = (d_n_tokens (doc_row (m1 ++ m2) k) + 1)%Z.
Proof.
  intros Hk Hd Ht. unfold doc_row. simpl.
  rewrite !filter_app. simpl.
  assert (G : in_doc k r = true).
  { unfold in_doc. rewrite Hk. apply opt_pyval_eqb_eq. reflexivity. }
  rewrite G. rewrite !map_app. simpl.
  rewrite !sum_app, !count_app.
  rewrite Hd. split.
  - unfold Pd.sum at 2. simpl. reflexivity.
  - destruct (token (tok (lhs r))) as [w|]; [|congruence].
    unfold Pd.count at 2. simpl Pd.dropna. simpl List.length.
    unfold Pd.count. lia.
Qed.

Lemma map_tok_split (R : list IRow) (l1 l2 : list Token) (t : Token) :
  map tok R = l1 ++ t :: l2 ->
  exists R1 x R2, R = R1 ++ x :: R2 /\ tok x = t.
Proof.
  intro H. apply map_eq_app in H. destruct H as [R1 [R' [-> [_ H]]]].
  apply map_eq_cons in H. destruct H as [x [R2 [-> [Hx _]]]].
  exists R1, x, R2. auto.
Qed.


(** C6, as the code has it.  A group whose denominator is zero raises
    nothing and is not marked: [calc_mdd] returns its row like any other,
    with the float64 quotient by zero as [mdd], which is NaN when sum_dd is
    0 and otherwise NaN or an infinity. *)
Theorem zero_denominator_gives_nan_or_infinity
  (d : DataFrame) (by_sentence : bool) :
  has_docid (remove_punct d) ->
  exists frame,
    calc_mdd d by_sentence = Ok frame
    /\ match frame with
       | BySentence rows =>
           forall r, In r rows -> (s_n_tokens r - 1 = 0)%Z ->
             (s_mdd r = nan \/ s_mdd r = infinity \/ s_mdd r = neg_infinity)
             /\ (s_sum_dd r = 0%Z -> s_mdd r = nan)
       | ByDocument rows =>
           forall r, In r rows -> (d_n_tokens r - d_n_sents r = 0)%Z ->
             (d_mdd r = nan \/ d_mdd r = infinity \/ d_mdd r = neg_infinity)
             /\ (d_sum_dd r = 0%Z -> d_mdd r = nan)
       end.
Proof.
  intro H. destruct (calc_mdd_ok d by_sentence H) as [frame E].
  exists frame. split; auto.
  destruct (calc_mdd_inv d by_sentence frame E) as [m [_ ->]].
  destruct by_sentence; intros r Hr Hz.
  - rewrite (sent_rows_mdd m r Hr), Hz. split.
    + apply true_div_zero.
    + intros ->. reflexivity.
  - rewrite (doc_rows_mdd m r Hr), Hz. split.
    + apply true_div_zero.
    + intros ->. reflexivity.
Qed.

Lemma zero_denominator_gives_nan_or_infinity_witness :
  exists frame,
    calc_mdd Cases.lone true = Ok frame
    /\ match frame with
       | BySentence rows =>
           forall r, In r rows -> (s_n_tokens r - 1 = 0)%Z ->
             (s_mdd r = nan \/ s_mdd r = infinity \/ s_mdd r = neg_infinity)
             /\ (s_sum_dd r = 0%Z -> s_mdd r = nan)
       | ByDocument rows =>
           forall r, In r rows -> (d_n_tokens r - d_n_sents r = 0)%Z ->
             (d_mdd r = nan \/ d_mdd r = infinity \/ d_mdd r = neg_infinity)
             /\ (d_sum_dd r = 0%Z -> d_mdd r = nan)
       end.
Proof.
  apply (zero_denominator_gives_nan_or_infinity Cases.lone true).
  intros u [<-|[]]. discriminate.
Defined.

(** C6 as stated fails on a sentence of one word: [calc_mdd] returns, and
    the row of the sentence carries NaN as its [mdd]; by document the same
    happens. *)
Lemma lone_token_mdd_is_nan :
  calc_mdd Cases.lone true
  = Ok (BySentence [mkSentRow (PyStr "d") (PyStr "1") 0 1 nan])
  /\ calc_mdd Cases.lone false
     = Ok (ByDocument [mkDocRow (PyStr "d") 0 1 1 nan]).
Proof. split; vm_compute; reflexivity. Qed.

(** ** The parser and the width of data lines *)

Lemma prefix_hash (p line : string) :
  String.prefix (String "#" p) line = true -> String.prefix "#" line = true.
Proof.
  destruct line as [|c l]; [discriminate|].
  change (String.prefix (String "#" p) (String c l))
    with (if ascii_dec "#" c then String.prefix p l else false).
  change (String.prefix "#" (String c l))
    with (if ascii_dec "#" c then String.prefix "" l else false).
  destruct (ascii_dec "#" c); [|discriminate].
  intros _. now destruct l.
Qed.

(** What one line adds to [data]. *)
Lemma step_data (st st' : Parser.state) (raw : string) :
  Parser.step st raw = Ok st' ->
  map snd (Parser.data st')
  = map snd (Parser.data st)
    ++ (if is_data_line raw then [fields raw] else []).
Proof.
  unfold Parser.step, is_data_line, fields, Py.startswith.
  set (line := Py.strip raw).
  destruct (String.prefix "# newdoc id =" line) eqn:E1.
  { rewrite (prefix_hash _ _ E1). simpl.
    destruct (Py.split1_snd "# newdoc id = " line); simpl; [|discriminate].
    intro H. inversion H. simpl. now rewrite app_nil_r. }
  destruct (String.eqb line "# newdoc") eqn:E2.
  { apply String.eqb_eq in E2. rewrite E2. simpl.
    intro H. inversion H. simpl. now rewrite app_nil_r. }
  destruct (String.prefix "# sent_id =" line) eqn:E3.
  { rewrite (prefix_hash _ _ E3). simpl.
    destruct (Py.split1_snd "# sent_id = " line); simpl; [|discriminate].
    destruct (Parser.set_last _ (Parser.sentence_ids st)); simpl;
      [|discriminate].
    intro H. inversion H. simpl. now rewrite app_nil_r. }
  destruct (String.prefix "#" line) eqn:E4.
  { simpl. intro H. inversion H. now rewrite app_nil_r. }
  destruct (String.eqb line "") eqn:E5.
  { simpl. intro H. inversion H. simpl. now rewrite app_nil_r. }
  simpl. destruct (Parser.last_item (Parser.sentence_ids st)); simpl;
    [|discriminate].
  intro H. inversion H. simpl. now rewrite map_app.
Qed.

Lemma loop_data (lines : list string) (st st' : Parser.state) :
  Parser.loop st lines = Ok st' ->
  map snd (Parser.data st')
  = map snd (Parser.data st) ++ map fields (filter is_data_line lines).
Proof.
  revert st. induction lines as [|l rest IH]; intros st; simpl.
  - intro H. inversion H. now rewrite app_nil_r.
  - destruct (Parser.step st l) as [st1|e] eqn:E; simpl; [|discriminate].
    intro H. apply IH in H. rewrite H, (step_data _ _ _ E).
    rewrite <- app_assoc. f_equal.
    destruct (is_data_line l); reflexivity.
Qed.

Lemma list_max_widths (rows : list Parser.raw_row) :
  rows <> [] ->
  list_max (map Parser.width rows)
  = 2 + list_max (map (@List.length string) (map snd rows)).
Proof.
  induction rows as [|r [|r' t] IH]; intro H; [congruence| |].
  - simpl. unfold Parser.width. lia.
  - change (list_max (map Parser.width (r :: r' :: t)))
      with (Nat.max (Parser.width r) (list_max (map Parser.width (r' :: t)))).
    rewrite IH by discriminate.
    change (list_max (map (@List.length string) (map snd (r :: r' :: t))))
      with (Nat.max (List.length (snd r))
              (list_max (map (@List.length string) (map snd (r' :: t))))).
    unfold Parser.width. lia.
Qed.

(** C7, as the code has it.  The parser does not look at the number of
    fields of a line; only the construction of the frame does, and only at
    the widest tuple.  When the text has data lines and its metadata lines
    go through: if the widest data line does not have ten fields, the parse
    raises the column-count error of the frame (which carries the two
    counts, neither a line number nor a line) and returns no row; if it has
    ten, the parse returns one row per data line, narrower lines too. *)
Theorem parse_checks_widest_line_only (conll : string) (st : Parser.state) :
  Parser.loop Parser.init (Py.split Py.LF conll) = Ok st ->
  data_lines conll <> [] ->
  let widest := list_max (map (@List.length string)
                              (map fields (data_lines conll))) in
  (widest <> 10 ->
   parse_conll conll = Raise (ColumnCountError 12 (2 + widest)))
  /\ (widest = 10 ->
      parse_conll conll = Ok (map Parser.to_token (Parser.data st))
      /\ map snd (Parser.data st) = map fields (data_lines conll)).
Proof.
  intros E Hne widest.
  pose proof (loop_data _ _ _ E) as D. simpl in D.
  fold (data_lines conll) in D.
  assert (Hrows : Parser.data st <> []).
  { intro N. rewrite N in D. simpl in D.
    destruct (data_lines conll); [congruence|discriminate]. }
  pose proof (list_max_widths _ Hrows) as W. rewrite D in W.
  fold widest in W.
  unfold parse_conll, Parser.parse_conll. rewrite E. simpl.
  unfold Parser.make_frame.
  destruct (Parser.data st) as [|r t] eqn:Er; [congruence|].
  rewrite W. change (List.length Parser.cols) with 12. split.
  - intro H. destruct (Nat.eqb_spec (2 + widest) 12); [lia|reflexivity].
  - intro H. rewrite H. simpl. auto.
Qed.

Lemma parse_checks_widest_line_only_witness :
  exists st,
    Parser.loop Parser.init (Py.split Py.LF Cases.long_line) = Ok st
    /\ parse_conll Cases.long_line = Raise (ColumnCountError 12 13).
Proof.
  eexists. split; [vm_compute; reflexivity|].
  eapply (parse_checks_widest_line_only Cases.long_line).
  - vm_compute. reflexivity.
  - vm_compute. discriminate.
  - vm_compute. discriminate.
Defined.

(** C7 as stated fails on a text with a line of ten fields and a line of
    nine: the parse returns both rows, the second with its last cell
    missing. *)
Lemma short_line_is_parsed :
  map (fun l => List.length (fields l)) (data_lines Cases.short_line)
  = [10; 9]
  /\ exists df,
       parse_conll Cases.short_line = Ok df
       /\ map token df = [Some "go"; Some "now"]
       /\ map misc df = [Some "_"; None].
Proof.
  split; [vm_compute; reflexivity|].
  eexists. split; [vm_compute; reflexivity|].
  split; reflexivity.
Qed.

(** ** Tables made of whole sentences *)

Lemma filter_flat_map {A B : Type} (p : B -> bool) (f : A -> list B)
  (l : list A) :
  filter p (flat_map f l) = flat_map (fun x => filter p (f x)) l.
Proof.
  induction l as [|x t IH]; simpl; auto. now rewrite filter_app, IH.
Qed.

Lemma remove_punct_table (D : sentences) :
  remove_punct (table D) = flat_map (fun ks => remove_punct (snd ks)) D.
Proof. apply filter_flat_map. Qed.

Lemma bump_fresh (k : key) (acc : list (key * nat)) :
  ~ In k (map fst acc) -> Pd.bump k acc = acc ++ [(k, 1)].
Proof.
  induction acc as [|[k' n] t IH]; simpl; intro H; auto.
  destruct (key_eqb k k') eqn:E.
  - apply key_eqb_eq in E. subst. tauto.
  - rewrite IH; tauto.
Qed.

Lemma bump_last (k : key) (n : nat) (acc : list (key * nat)) :
  ~ In k (map fst acc) ->
  Pd.bump k (acc ++ [(k, n)]) = acc ++ [(k, S n)].
Proof.
  induction acc as [|[k' n'] t IH]; simpl; intro H.
  - now rewrite key_eqb_refl.
  - destruct (key_eqb k k') eqn:E.
    + apply key_eqb_eq in E. subst. tauto.
    + rewrite IH; tauto.
Qed.

Lemma count_more (k : key) (n m : nat) (acc : list (key * nat)) :
  ~ In k (map fst acc) ->
  fold_left Pd.count_step (repeat (Some k) n) (acc ++ [(k, m)])
  = acc ++ [(k, m + n)].
Proof.
  intro H. revert m. induction n as [|n IH]; intro m; simpl.
  - now rewrite Nat.add_0_r.
  - rewrite bump_last by assumption. rewrite IH. do 3 f_equal. lia.
Qed.

(** The counter of a sentence whose rows come one after the other. *)
Lemma count_block (k : key) (n : nat) (acc : list (key * nat)) :
  ~ In k (map fst acc) ->
  fold_left Pd.count_step (repeat (Some k) (S n)) acc = acc ++ [(k, S n)].
Proof.
  intro H. simpl. rewrite bump_fresh by assumption.
  now rewrite count_more.
Qed.

Lemma block_keys (k : key) (l : list Token) :
  Forall (fun t => group_key t = Some k) l ->
  map group_key l = repeat (Some k) (List.length l).
Proof.
  induction 1 as [|t l Ht _ IH]; simpl; auto. now rewrite Ht, IH.
Qed.

Lemma remove_punct_block (k : key) (l : list Token) :
  Forall (fun t => group_key t = Some k) l ->
  Forall (fun t => group_key t = Some k) (remove_punct l).
Proof.
  intro H. apply Forall_forall. intros t Ht.
  apply filter_In in Ht. destruct Ht as [Ht _].
  rewrite Forall_forall in H. now apply H.
Qed.

Lemma block_counts_keys (D : sentences) (k : key) :
  In k (map fst (block_counts D)) -> In k (map fst D).
Proof.
  induction D as [|[k' s] D IH]; simpl; auto.
  rewrite map_app, in_app_iff.
  destruct (List.length (remove_punct s)); simpl; intuition.
Qed.

Lemma count_blocks (D : sentences) (acc : list (key * nat)) :
  well_formed D ->
  (forall k, In k (map fst D) -> ~ In k (map fst acc)) ->
  fold_left Pd.count_step
    (map group_key (flat_map (fun ks => remove_punct (snd ks)) D)) acc
  = acc ++ block_counts D.
Proof.
  revert acc. induction D as [|[k s] D IH]; intros acc [Hnd Hbl] Hacc; simpl.
  - now rewrite app_nil_r.
  - inversion Hnd as [|? ? Hk Hnd']. subst.
    inversion Hbl as [|? ? Hs Hbl']. subst. simpl in Hs.
    rewrite map_app, fold_left_app.
    rewrite (block_keys k _ (remove_punct_block k s Hs)).
    destruct (List.length (remove_punct s)) as [|n] eqn:L.
    + simpl. apply IH; [split; auto|].
      intros k' Hk'. apply Hacc. now right.
    + rewrite count_block by (apply Hacc; now left).
      rewrite IH; [now rewrite <- app_assoc | split; auto |].
      intros k' Hk'. rewrite map_app, in_app_iff. simpl.
      intros [H|[H|[]]].
      * revert H. apply Hacc. now right.
      * subst. contradiction.
Qed.

Lemma new_id_values_blocks (D : sentences) :
  new_id_values (map snd (block_counts D))
  = flat_map (fun ks => range1 (List.length (remove_punct (snd ks)))) D.
Proof.
  induction D as [|[k s] D IH]; simpl; auto.
  unfold new_id_values in *. rewrite map_app, flat_map_app, IH.
  destruct (List.length (remove_punct s)); simpl; auto.
  now rewrite app_nil_r.
Qed.

Lemma combine_blocks {A B : Type} (l1 l2 : list A) (r1 r2 : list B) :
  List.length l1 = List.length r1 ->
  combine (l1 ++ l2) (r1 ++ r2) = combine l1 r1 ++ combine l2 r2.
Proof.
  revert r1. induction l1 as [|x l1 IH]; intros [|y r1] H; simpl in *;
    try discriminate; auto.
  f_equal. apply IH. lia.
Qed.

Lemma number_blocks (D : sentences) :
  map (fun p => mkIRow (fst p) (snd p))
      (combine (flat_map (fun ks => remove_punct (snd ks)) D)
               (flat_map (fun ks => range1 (List.length (remove_punct (snd ks)))) D))
  = flat_map (fun ks => number (remove_punct (snd ks))) D.
Proof.
  induction D as [|[k s] D IH]; simpl; auto.
  rewrite combine_blocks by (now rewrite range1_length).
  rewrite map_app, IH. reflexivity.
Qed.

Lemma well_formed_has_docid (D : sentences) :
  well_formed D -> has_docid (remove_punct (table D)).
Proof.
  intros [_ Hbl] t Ht. apply filter_In in Ht. destruct Ht as [Ht _].
  unfold table in Ht. apply in_flat_map in Ht. destruct Ht as [ks [Hks Ht]].
  rewrite Forall_forall in Hbl. specialize (Hbl ks Hks).
  rewrite Forall_forall in Hbl. specialize (Hbl t Ht).
  unfold group_key in Hbl. destruct (docid t); congruence.
Qed.

(** In a table made of whole sentences, each with its own key, the
    re-indexing numbers every sentence from 1. *)
Lemma reindex_blocks (D : sentences) :
  well_formed D ->
  reindex (table D) = Ok (flat_map (fun ks => number (remove_punct (snd ks))) D).
Proof.
  intro H. unfold reindex, doc_sent_n, Pd.group_sizes.
  rewrite remove_punct_table.
  rewrite (count_blocks D [] H) by (intros k _ []).
  simpl app. rewrite new_id_values_blocks.
  unfold assign_new_id. rewrite number_blocks.
  replace (List.length (flat_map (fun ks => range1 (List.length (remove_punct (snd ks)))) D))
    with (List.length (flat_map (fun ks => remove_punct (snd ks)) D)).
  - now rewrite Nat.eqb_refl.
  - clear H. induction D as [|[k s] D IH]; simpl; auto.
    rewrite !length_app, range1_length, IH. reflexivity.
Qed.

Lemma number_tok (l : list Token) : map tok (number l) = l.
Proof. unfold number. apply combine_tok. apply range1_length. Qed.

Lemma number_new_id (l : list Token) :
  map new_id (number l) = range1 (List.length l).
Proof. unfold number. apply combine_new_id. apply range1_length. Qed.

Lemma number_key (k : key) (l : list Token) :
  Forall (fun t => group_key t = Some k) l ->
  Forall (fun r => group_key (tok r) = Some k) (number l).
Proof.
  intro H. apply Forall_forall. intros r Hr.
  rewrite Forall_forall in H. apply H.
  rewrite <- (number_tok l). now apply in_map.
Qed.

Lemma filter_all {A : Type} (p : A -> bool) (l : list A) :
  Forall (fun x => p x = true) l -> filter p l = l.
Proof. induction 1 as [|x l Hx _ IH]; simpl; auto. now rewrite Hx, IH. Qed.

Lemma filter_none {A : Type} (p : A -> bool) (l : list A) :
  Forall (fun x => p x = false) l -> filter p l = [].
Proof. induction 1 as [|x l Hx _ IH]; simpl; auto. now rewrite Hx. Qed.

Lemma same_key_true (k k' : key) (o : option key) :
  o = Some k' -> opt_eqb key_eqb o (Some k) = key_eqb k' k.
Proof. intros ->. reflexivity. Qed.

(** The rows of a group in the re-indexed table of whole sentences are the
    retained rows of the group, numbered from 1. *)
Lemma reindexed_group (D : sentences) (k : key) :
  well_formed D ->
  filter (i_in_group k) (flat_map (fun ks => number (remove_punct (snd ks))) D)
  = number (group_rows k (table D)).
Proof.
  unfold group_rows. rewrite remove_punct_table.
  induction D as [|[k' s] D IH]; intros [Hnd Hbl]; simpl; auto.
  inversion Hnd as [|? ? Hk Hnd']. subst.
  inversion Hbl as [|? ? Hs Hbl']. subst. simpl in Hs.
  pose proof (remove_punct_block k' s Hs) as Hs'.
  rewrite !filter_app.
  destruct (key_eqb k' k) eqn:E.
  - apply key_eqb_eq in E. subst k'.
    rewrite (filter_all (i_in_group k)).
    2:{ eapply Forall_impl; [|apply (number_key k _ Hs')].
        intros r Hr. unfold i_in_group. rewrite (same_key_true k k _ Hr).
        apply key_eqb_refl. }
    rewrite (filter_all _ (remove_punct s)).
    2:{ eapply Forall_impl; [|apply Hs'].
        intros t Ht. simpl. rewrite (same_key_true k k _ Ht).
        apply key_eqb_refl. }
    rewrite (filter_none (i_in_group k)).
    2:{ apply Forall_forall. intros r Hr. apply in_flat_map in Hr.
        destruct Hr as [[k2 s2] [Hin Hr]]. simpl in Hr.
        rewrite Forall_forall in Hbl'. specialize (Hbl' _ Hin). simpl in Hbl'.
        pose proof (number_key k2 _ (remove_punct_block k2 s2 Hbl')) as Hn.
        rewrite Forall_forall in Hn. specialize (Hn r Hr).
        unfold i_in_group. rewrite (same_key_true k k2 _ Hn).
        apply key_eqb_neq. intros ->. apply Hk.
        apply in_map_iff. exists (k, s2). auto. }
    rewrite (filter_none _ (flat_map _ D)).
    2:{ apply Forall_forall. intros t Ht. apply in_flat_map in Ht.
        destruct Ht as [[k2 s2] [Hin Ht]]. simpl in Ht.
        rewrite Forall_forall in Hbl'. specialize (Hbl' _ Hin). simpl in Hbl'.
        pose proof (remove_punct_block k2 s2 Hbl') as Hn.
        rewrite Forall_forall in Hn. specialize (Hn t Ht).
        rewrite (same_key_true k k2 _ Hn).
        apply key_eqb_neq. intros ->. apply Hk.
        apply in_map_iff. exists (k, s2). auto. }
    now rewrite !app_nil_r.
  - rewrite (filter_none (i_in_group k) (number _)).
    2:{ eapply Forall_impl; [|apply (number_key k' _ Hs')].
        intros r Hr. unfold i_in_group. now rewrite (same_key_true k k' _ Hr). }
    rewrite (filter_none _ (remove_punct s)).
    2:{ eapply Forall_impl; [|apply Hs'].
        intros t Ht. simpl. now rewrite (same_key_true k k' _ Ht). }
    simpl. apply IH. split; auto.
Qed.

(** The retained rows of a sentence of the document are its group. *)
Lemma group_rows_sentence (D : sentences) (k : key) (s : list Token) :
  well_formed D -> In (k, s) D -> group_rows k (table D) = remove_punct s.
Proof.
  unfold group_rows. rewrite remove_punct_table.
  induction D as [|[k' s'] D IH]; intros [Hnd Hbl] Hin; [destruct Hin|].
  inversion Hnd as [|? ? Hk Hnd']. subst.
  inversion Hbl as [|? ? Hs Hbl']. subst. simpl in Hs.
  simpl. rewrite filter_app.
  assert (Rest : forall k0, ~ In k0 (map fst D) ->
            filter (fun t => opt_eqb key_eqb (group_key t) (Some k0))
                   (flat_map (fun ks => remove_punct (snd ks)) D) = []).
  { intros k0 Hk0. apply filter_none. apply Forall_forall.
    intros t Ht. apply in_flat_map in Ht.
    destruct Ht as [[k2 s2] [Hin2 Ht]]. simpl in Ht.
    rewrite Forall_forall in Hbl'. specialize (Hbl' _ Hin2). simpl in Hbl'.
    pose proof (remove_punct_block k2 s2 Hbl') as Hn.
    rewrite Forall_forall in Hn. specialize (Hn t Ht).
    rewrite (same_key_true k0 k2 _ Hn).
    apply key_eqb_neq. intros ->. apply Hk0.
    apply in_map_iff. exists (k0, s2). auto. }
  destruct Hin as [Heq|Hin].
  - inversion Heq. subst. rewrite (Rest k Hk), app_nil_r.
    apply filter_all. eapply Forall_impl; [|apply (remove_punct_block k s Hs)].
    intros t Ht. simpl. rewrite (same_key_true k k _ Ht). apply key_eqb_refl.
  - rewrite (filter_none _ (remove_punct s')).
    + simpl. apply IH; [split; auto|auto].
    + eapply Forall_impl; [|apply (remove_punct_block k' s' Hs)].
      intros t Ht. simpl. rewrite (same_key_true k k' _ Ht).
      apply key_eqb_neq. intros ->. apply Hk.
      apply in_map_iff. exists (k, s). auto.
Qed.

(** C8, as the code has it.  The values of [new_id] are laid along the rows
    by position, one run [1..n] per group in the order in which the groups
    first appear.  In a table made of whole sentences, each with its own
    (docid, sentid) key, every group therefore gets exactly [1, ..., k] in
    the order of its rows, k being the number of its retained tokens. *)
Theorem new_ids_contiguous_in_whole_sentences (D : sentences) :
  well_formed D ->
  exists R,
    reindex (table D) = Ok R
    /\ map tok R = remove_punct (table D)
    /\ forall k,
         group_new_ids k R = range1 (List.length (group_rows k (table D))).
Proof.
  intro H. exists (flat_map (fun ks => number (remove_punct (snd ks))) D).
  split; [now apply reindex_blocks|]. split.
  - rewrite remove_punct_table. clear H.
    induction D as [|[k s] D IH]; simpl; auto.
    now rewrite map_app, number_tok, IH.
  - intro k. unfold group_new_ids.
    rewrite (reindexed_group D k H). apply number_new_id.
Qed.

Lemma new_ids_contiguous_in_whole_sentences_witness :
  exists R,
    reindex (table Cases.two_sentences) = Ok R
    /\ map tok R = remove_punct (table Cases.two_sentences)
    /\ forall k,
         group_new_ids k R
         = range1 (List.length (group_rows k (table Cases.two_sentences))).
Proof.
  apply (new_ids_contiguous_in_whole_sentences Cases.two_sentences).
  split.
  - repeat constructor; simpl; intuition discriminate.
  - repeat constructor.
Defined.

(** C8 as stated fails when the rows of a group are not next to each other.
    In the text [reused_sent_id] two sentences carry the identifier [a],
    with sentence [b] between them: the group (d, a) has two tokens and
    gets the values 1 and 1, the group (d, b) has one token and gets 2. *)
Lemma reused_sentence_id_breaks_numbering :
  exists df R,
    parse_conll Cases.reused_sent_id = Ok df
    /\ reindex df = Ok R
    /\ map (fun r => (sentid (tok r), new_id r)) R
       = [(PyStr "a", 1%Z); (PyStr "b", 2%Z); (PyStr "a", 1%Z)]
    /\ group_new_ids (PyStr "d", PyStr "a") R = [1%Z; 1%Z]
    /\ range1 (List.length (group_rows (PyStr "d", PyStr "a") df))
       = [1%Z; 2%Z]
    /\ group_new_ids (PyStr "d", PyStr "b") R = [2%Z].
Proof.
  eexists. eexists.
  split; [vm_compute; reflexivity|].
  split; [vm_compute; reflexivity|].
  repeat split; vm_compute; reflexivity.
Qed.

(** ** The join and the aggregation, group by group *)

Lemma in_group_lhs (k : key) (m : MRow) :
  in_group k m = i_in_group k (lhs m).
Proof. reflexivity. Qed.

Lemma filter_join_row (k : key) (ref : list RefRow) (r : IRow) :
  filter (in_group k) (join_row ref r)
  = if i_in_group k r then join_row ref r else [].
Proof.
  destruct (i_in_group k r) eqn:E.
  - apply filter_all. apply Forall_forall. intros m Hm.
    now rewrite in_group_lhs, (join_row_lhs _ _ _ Hm).
  - apply filter_none. apply Forall_forall. intros m Hm.
    now rewrite in_group_lhs, (join_row_lhs _ _ _ Hm).
Qed.

Lemma filter_merge_left (k : key) (R : list IRow) (ref : list RefRow) :
  filter (in_group k) (merge_left R ref)
  = merge_left (filter (i_in_group k) R) ref.
Proof.
  unfold merge_left. induction R as [|r R IH]; simpl; auto.
  rewrite filter_app, filter_join_row, IH.
  destruct (i_in_group k r); reflexivity.
Qed.

Lemma i_in_group_key (k : key) (r : IRow) :
  i_in_group k r = true <-> group_key (tok r) = Some k.
Proof. unfold i_in_group. apply opt_key_eqb_eq. Qed.

(** A row only ever matches rows of [ref] that come from its own group. *)
Lemma matches_in_group (k : key) (r : IRow) (R : list IRow) :
  i_in_group k r = true ->
  filter (on_keys r) (make_ref R)
  = filter (on_keys r) (make_ref (filter (i_in_group k) R)).
Proof.
  intro Hr. induction R as [|x R IH]; simpl; auto.
  destruct (i_in_group k x) eqn:Ex; simpl.
  - now rewrite IH.
  - destruct (on_keys r _) eqn:E; auto. exfalso.
    apply on_keys_true in E. simpl in E. destruct E as [E1 [E2 _]].
    apply i_in_group_key in Hr.
    assert (group_key (tok x) = Some k).
    { rewrite <- Hr. unfold group_key. now rewrite E1, E2. }
    apply i_in_group_key in H. congruence.
Qed.

Lemma merge_left_ext (R : list IRow) (ref1 ref2 : list RefRow) :
  (forall r, In r R -> filter (on_keys r) ref1 = filter (on_keys r) ref2) ->
  merge_left R ref1 = merge_left R ref2.
Proof.
  unfold merge_left. induction R as [|r R IH]; intro H; simpl; auto.
  rewrite IH by (intros; apply H; now right).
  unfold join_row. rewrite (H r) by now left. reflexivity.
Qed.

(** The rows of one group in the merged frame are the merged frame of the
    group alone. *)
Lemma merge_group (k : key) (R : list IRow) :
  filter (in_group k) (merge_left R (make_ref R))
  = merge_left (filter (i_in_group k) R)
               (make_ref (filter (i_in_group k) R)).
Proof.
  rewrite filter_merge_left. apply merge_left_ext.
  intros r Hr. apply filter_In in Hr. destruct Hr as [_ Hr].
  now apply matches_in_group.
Qed.

Lemma sent_row_same_group (k : key) (m1 m2 : list MRow) :
  filter (in_group k) m1 = filter (in_group k) m2 ->
  sent_row m1 k = sent_row m2 k.
Proof. intro H. unfold sent_row. now rewrite H. Qed.

Lemma find_sent_row_map (k : key) (m : list MRow) (keys : list key) :
  find_sent_row k (map (sent_row m) keys)
  = if existsb (fun x => key_eqb x k) keys then Some (sent_row m k) else None.
Proof.
  unfold find_sent_row. induction keys as [|[x1 x2] t IH]; simpl; auto.
  destruct (key_eqb (x1, x2) k) eqn:E; simpl; auto.
  apply key_eqb_eq in E. now subst.
Qed.

Lemma key_in_merged (k : key) (m : list MRow) :
  In (Some k) (map m_key m) <-> exists r, In r (filter (in_group k) m).
Proof.
  split.
  - intro H. apply in_map_iff in H. destruct H as [r [Hk Hr]].
    exists r. apply filter_In. split; auto.
    unfold in_group. rewrite Hk. apply opt_key_eqb_eq. reflexivity.
  - intros [r Hr]. apply filter_In in Hr. destruct Hr as [Hr Hk].
    apply in_map_iff. exists r. split; auto.
    now apply opt_key_eqb_eq in Hk.
Qed.

(** The row of a group in the frame returned by sentence: present when the
    group has rows, and then made of these rows alone. *)
Lemma find_sent_row_agg (k : key) (m : list MRow) :
  find_sent_row k (agg_by_sentence m)
  = match filter (in_group k) m with
    | [] => None
    | _ :: _ => Some (sent_row m k)
    end.
Proof.
  unfold agg_by_sentence. rewrite find_sent_row_map.
  destruct (existsb _ _) eqn:E.
  - apply existsb_exists in E. destruct E as [x [Hx Hk]].
    apply key_eqb_eq in Hk. subst x.
    apply (proj1 (sorted_keys_In key_compare key_compare_eq k _)) in Hx.
    apply (proj1 (dropna_In k _)) in Hx.
    apply (proj1 (key_in_merged k m)) in Hx. destruct Hx as [r Hr].
    destruct (filter (in_group k) m); [destruct Hr|reflexivity].
  - destruct (filter (in_group k) m) as [|r g] eqn:F; auto.
    assert (H : In (Some k) (map m_key m)).
    { apply key_in_merged. exists r. rewrite F. now left. }
    apply (proj2 (dropna_In k _)) in H.
    apply (proj2 (sorted_keys_In key_compare key_compare_eq k _)) in H.
    assert (existsb (fun x => key_eqb x k)
              (Pd.sorted_keys key_compare (Pd.dropna (map m_key m))) = true).
    { apply existsb_exists. exists k. split; auto. apply key_eqb_refl. }
    congruence.
Qed.

Lemma string_compare_refl (s : string) : String.compare s s = Eq.
Proof.
  pose proof (String.compare_antisym s s) as H.
  destruct (String.compare s s); simpl in H; congruence.
Qed.

Lemma pyval_compare_refl (a : pyval) : pyval_compare a a = Eq.
Proof.
  destruct a; simpl; [apply Z.compare_refl | apply string_compare_refl].
Qed.

Lemma key_compare_refl (k : key) : key_compare k k = Eq.
Proof. unfold key_compare. now rewrite !pyval_compare_refl. Qed.

(** A frame whose rows all belong to one group has one key. *)
Lemma one_group_keys (k : key) (m : list MRow) :
  m <> [] -> Forall (fun r => m_key r = Some k) m ->
  Pd.sorted_keys key_compare (Pd.dropna (map m_key m)) = [k].
Proof.
  intros Hne H. induction H as [|r m Hr Hm IH]; [congruence|].
  simpl map. rewrite Hr. simpl Pd.dropna.
  change (Pd.sorted_keys key_compare (k :: Pd.dropna (map m_key m)))
    with (Pd.insert_key key_compare k
            (Pd.sorted_keys key_compare (Pd.dropna (map m_key m)))).
  destruct m as [|r' m'].
  - reflexivity.
  - rewrite IH by discriminate. simpl. now rewrite key_compare_refl.
Qed.

Lemma merge_left_nonempty (R : list IRow) (ref : list RefRow) :
  R <> [] -> merge_left R ref <> [].
Proof.
  destruct R as [|r R]; [congruence|]. intros _.
  unfold merge_left. simpl. unfold join_row.
  destruct (filter (on_keys r) ref); discriminate.
Qed.

Lemma number_nonempty (l : list Token) : l <> [] -> number l <> [].
Proof.
  intros H N. apply (f_equal (map tok)) in N. rewrite number_tok in N.
  now apply H.
Qed.

Lemma well_formed_single (D : sentences) (k : key) (s : list Token) :
  well_formed D -> In (k, s) D -> well_formed [(k, s)].
Proof.
  intros [_ Hbl] Hin. split.
  - repeat constructor. intros [].
  - rewrite Forall_forall in Hbl. constructor; [|constructor].
    exact (Hbl _ Hin).
Qed.

(** C4. In a document made of whole sentences, each with its own key,
    aggregating the tokens of one sentence alone by sentence gives the
    row that the sentence has when the whole document is aggregated by
    sentence: the same sum_dd, n_tokens and mdd.  When the sentence keeps a
    token, that row is the only row of the first result; when it keeps none,
    neither result has a row for it. *)
Theorem sentence_alone_same_row (D : sentences) (k : key) (s : list Token) :
  well_formed D ->
  In (k, s) D ->
  exists rowsD rowsS,
    calc_mdd (table D) true = Ok (BySentence rowsD)
    /\ calc_mdd s true = Ok (BySentence rowsS)
    /\ find_sent_row k rowsD = find_sent_row k rowsS
    /\ (remove_punct s <> [] ->
        exists row, rowsS = [row] /\ find_sent_row k rowsD = Some row).
Proof.
  intros HD Hin.
  pose proof (well_formed_single D k s HD Hin) as HS.
  pose proof (reindex_blocks D HD) as ED.
  pose proof (reindex_blocks _ HS) as ES.
  unfold table in ES. simpl in ES. rewrite !app_nil_r in ES.
  set (RD := flat_map (fun ks => number (remove_punct (snd ks))) D) in *.
  set (RS := number (remove_punct s)) in *.
  set (mD := merge_left RD (make_ref RD)).
  set (mS := merge_left RS (make_ref RS)).
  assert (KS : Forall (fun r => group_key (tok r) = Some k) RS).
  { apply number_key, remove_punct_block.
    destruct HS as [_ HS]. now inversion HS. }
  assert (FS : filter (i_in_group k) RS = RS).
  { apply filter_all. eapply Forall_impl; [|exact KS].
    intros r Hr. now apply i_in_group_key. }
  assert (GD : filter (in_group k) mD = mS).
  { unfold mD. rewrite merge_group. unfold RD.
    rewrite (reindexed_group D k HD), (group_rows_sentence D k s HD Hin).
    reflexivity. }
  assert (GS : filter (in_group k) mS = mS).
  { unfold mS at 1. rewrite merge_group, FS. reflexivity. }
  exists (agg_by_sentence mD), (agg_by_sentence mS).
  split; [unfold calc_mdd, merged; rewrite ED; reflexivity|].
  split; [unfold calc_mdd, merged; rewrite ES; reflexivity|].
  assert (Same : sent_row mD k = sent_row mS k).
  { apply sent_row_same_group. now rewrite GD, GS. }
  split.
  - rewrite !find_sent_row_agg, GD, GS, Same. reflexivity.
  - intro Hne. exists (sent_row mS k). split.
    + unfold agg_by_sentence. rewrite (one_group_keys k mS); [reflexivity| |].
      * apply merge_left_nonempty, number_nonempty, Hne.
      * apply Forall_forall. intros r Hr. rewrite <- GS in Hr.
        apply filter_In in Hr. destruct Hr as [_ Hr].
        now apply opt_key_eqb_eq in Hr.
    + rewrite find_sent_row_agg, GD, Same.
      pose proof (merge_left_nonempty RS (make_ref RS)
                    (number_nonempty _ Hne)) as N.
      fold mS in N. destruct mS; [congruence|reflexivity].
Qed.

Lemma sentence_alone_same_row_witness :
  exists rowsD rowsS,
    calc_mdd (table Cases.two_sentences) true = Ok (BySentence rowsD)
    /\ calc_mdd Cases.second true = Ok (BySentence rowsS)
    /\ find_sent_row (PyStr "d", PyStr "2") rowsD
       = find_sent_row (PyStr "d", PyStr "2") rowsS
    /\ (remove_punct Cases.second <> [] ->
        exists row,
          rowsS = [row]
          /\ find_sent_row (PyStr "d", PyStr "2") rowsD = Some row).
Proof.
  apply (sentence_alone_same_row Cases.two_sentences
           (PyStr "d", PyStr "2") Cases.second).
  - split.
    + repeat constructor; simpl; intuition discriminate.
    + repeat constructor.
  - right. left. reflexivity.
Defined.

(** ** Unique indices and the number of rows of the join *)

Lemma on_keys_index (r x : IRow) :
  on_keys r (mkRefRow (docid (tok x)) (sentid (tok x)) (id (tok x)) (new_id x))
  = true ->
  index_key (tok x) = (docid (tok r), sentid (tok r), head (tok r)).
Proof.
  intro H. apply on_keys_true in H. simpl in H.
  destruct H as [H1 [H2 H3]]. unfold index_key. congruence.
Qed.

Lemma unique_match (r : IRow) (R : list IRow) :
  NoDup (map index_key (map tok R)) ->
  List.length (filter (on_keys r) (make_ref R)) <= 1.
Proof.
  induction R as [|x R IH]; simpl; intro H; [lia|].
  inversion H as [|? ? Hx HR]. subst.
  destruct (on_keys r _) eqn:E; [|now apply IH].
  simpl. rewrite (filter_none (on_keys r) (make_ref R)); [simpl; lia|].
  apply Forall_forall. intros f Hf.
  unfold make_ref in Hf. apply in_map_iff in Hf. destruct Hf as [y [<- Hy]].
  destruct (on_keys r (mkRefRow (docid (tok y)) (sentid (tok y))
                               (id (tok y)) (new_id y))) eqn:E'; auto.
  exfalso. apply Hx.
  apply on_keys_index in E, E'. rewrite E, <- E'.
  apply in_map, in_map, Hy.
Qed.

Lemma join_row_single (ref : list RefRow) (r : IRow) :
  List.length (filter (on_keys r) ref) <= 1 ->
  map lhs (join_row ref r) = [r].
Proof.
  unfold join_row. destruct (filter (on_keys r) ref) as [|f [|f' fs]];
    simpl; intro H; auto. lia.
Qed.

(** With unique indices the join makes one row of every row. *)
Lemma merge_left_rows (R : list IRow) :
  NoDup (map index_key (map tok R)) ->
  map lhs (merge_left R (make_ref R)) = R.
Proof.
  intro H. unfold merge_left.
  assert (G : forall R', map lhs (flat_map (join_row (make_ref R)) R') = R').
  { induction R' as [|r R' IH]; simpl; auto.
    rewrite map_app, IH, (join_row_single _ _ (unique_match r R H)).
    reflexivity. }
  apply G.
Qed.

Lemma map_filter_comm {A B : Type} (f : A -> B) (p : B -> bool) (l : list A) :
  map f (filter (fun x => p (f x)) l) = filter p (map f l).
Proof.
  induction l as [|x l IH]; simpl; auto.
  destruct (p (f x)); simpl; now rewrite IH.
Qed.


(** ** The punctuation filter *)

Lemma lower_char_letter (a b : ascii) :
  In b (list_ascii_of_string "punct") ->
  Ascii.eqb (Py.lower_char a) b = Ascii.eqb a b || Ascii.eqb a (upper_char b).
Proof.
  intros [<-|[<-|[<-|[<-|[<-|[]]]]]];
    destruct a as [[] [] [] [] [] [] [] []]; vm_compute; reflexivity.
Qed.

Lemma lower_eqb_caseless (tag s : string) :
  Forall (fun b => In b (list_ascii_of_string "punct"))
         (list_ascii_of_string tag) ->
  String.eqb (Py.lower s) tag = caseless_eqb s tag.
Proof.
  revert s. induction tag as [|b tag IH]; intros s H.
  - destruct s; reflexivity.
  - destruct s as [|a s]; [reflexivity|].
    simpl in H. inversion H as [|? ? Hb Ht]. subst.
    simpl. rewrite (lower_char_letter a b Hb), (IH s Ht).
    destruct (Ascii.eqb a b || Ascii.eqb a (upper_char b)); reflexivity.
Qed.

(** The test of the filter is the comparison with the tag up to case. *)
Lemma is_punct_tagged (t : Token) : is_punct t = true <-> punct_tagged t.
Proof.
  unfold is_punct, punct_tagged. destruct (upos t) as [s|].
  - rewrite (lower_eqb_caseless "punct" s) by (repeat constructor; simpl; tauto).
    split.
    + intro H. exists s. auto.
    + intros [s' [E H]]. inversion E. now subst.
  - split; [discriminate|]. intros [s [E _]]. discriminate.
Qed.

Lemma remove_punct_In (d : DataFrame) (t : Token) :
  In t (remove_punct d) <-> In t d /\ ~ punct_tagged t.
Proof.
  unfold remove_punct. rewrite filter_In, <- is_punct_tagged.
  destruct (is_punct t); simpl; intuition congruence.
Qed.

(** ** Tables with the same words *)

Lemma Forall2_combine {A B : Type} (Q : A -> B -> Prop) (l : list A)
  (l' : list B) :
  List.length l = List.length l' ->
  (forall a b, In (a, b) (combine l l') -> Q a b) ->
  Forall2 Q l l'.
Proof.
  revert l'. induction l as [|x l IH]; intros [|y l'] HL H; simpl in *;
    try discriminate; constructor.
  - apply H. now left.
  - apply IH; [lia|]. intros a b Hab. apply H. now right.
Qed.

Lemma Forall2_In_combine {A B : Type} (Q : A -> B -> Prop) (l : list A)
  (l' : list B) :
  Forall2 Q l l' -> forall a b, In (a, b) (combine l l') -> Q a b.
Proof.
  induction 1 as [|x y l l' Hxy _ IH]; simpl; intros a b; [tauto|].
  intros [E|Hin]; [now inversion E; subst|now apply IH].
Qed.

Lemma In_combine_map {A B C D : Type} (f : A -> C) (g : B -> D)
  (l : list A) (l' : list B) (a : A) (b : B) :
  In (a, b) (combine l l') -> In (f a, g b) (combine (map f l) (map g l')).
Proof.
  revert l'. induction l as [|x l IH]; intros [|y l']; simpl; try tauto.
  intros [E|Hin]; [inversion E; subst; now left|right; now apply IH].
Qed.

Lemma In_combine_same {A : Type} (v : list A) (a b : A) :
  In (a, b) (combine v v) -> a = b.
Proof.
  induction v as [|x v IH]; simpl; [tauto|].
  intros [E|Hin]; [inversion E; now subst|now apply IH].
Qed.

Lemma Forall2_map_eq {A A' B : Type} (f : A -> B) (g : A' -> B)
  (l : list A) (l' : list A') :
  Forall2 (fun a b => f a = g b) l l' -> map f l = map g l'.
Proof. induction 1 as [|x y l l' E _ IH]; simpl; congruence. Qed.

Lemma Forall2_map_both {A A' B B' : Type} (Q : B -> B' -> Prop)
  (f : A -> B) (g : A' -> B') (l : list A) (l' : list A') :
  Forall2 (fun a b => Q (f a) (g b)) l l' -> Forall2 Q (map f l) (map g l').
Proof. induction 1; simpl; constructor; auto. Qed.

Lemma Forall2_weaken {A B : Type} (Q Q' : A -> B -> Prop) (l : list A)
  (l' : list B) :
  (forall a b, Q a b -> Q' a b) -> Forall2 Q l l' -> Forall2 Q' l l'.
Proof. intros H. induction 1; constructor; auto. Qed.

Lemma map_filter_Forall2 {A A' B : Type} (p : A -> bool) (p' : A' -> bool)
  (f : A -> B) (f' : A' -> B) (l : list A) (l' : list A') :
  Forall2 (fun a b => p a = p' b /\ f a = f' b) l l' ->
  map f (filter p l) = map f' (filter p' l').
Proof.
  induction 1 as [|x y l l' [Hp Hf] _ IH]; simpl; auto.
  rewrite <- Hp. destruct (p x); simpl; congruence.
Qed.

Lemma Forall2_flat_map {A A' B B' : Type} (Q : B -> B' -> Prop)
  (f : A -> list B) (g : A' -> list B') (l : list A) (l' : list A') :
  Forall2 (fun a b => Forall2 Q (f a) (g b)) l l' ->
  Forall2 Q (flat_map f l) (flat_map g l').
Proof.
  induction 1 as [|x y l l' H _ IH]; simpl; [constructor|].
  now apply Forall2_app.
Qed.

Lemma join_row_heads (ref : list RefRow) (r : IRow) :
  join_row ref r
  = match map ref_new_head (filter (on_keys r) ref) with
    | [] => [mkMRow r None]
    | hs => map (fun h => mkMRow r (Some h)) hs
    end.
Proof.
  unfold join_row. destruct (filter (on_keys r) ref) as [|f fs]; auto.
  simpl. f_equal. now rewrite map_map.
Qed.

Lemma join_rows_same (ref ref' : list RefRow) (r r' : IRow) :
  same_word (tok r) (tok r') -> new_id r = new_id r' ->
  map ref_new_head (filter (on_keys r) ref)
  = map ref_new_head (filter (on_keys r') ref') ->
  Forall2 same_row (join_row ref r) (join_row ref' r').
Proof.
  intros Hw Hn Hh. rewrite !join_row_heads, Hh.
  destruct (map ref_new_head (filter (on_keys r') ref')) as [|h hs].
  - constructor; [|constructor]. split; [exact Hw|]. split; auto.
  - apply Forall2_map_both.
    generalize (h :: hs). intro l. induction l; constructor; auto.
    split; [exact Hw|]. split; auto.
Qed.

(** Two frames with the column [new_id] whose rows are, one by one, the
    same words with the same [new_id] and the same head references give
    merged frames whose rows agree one by one. *)
Lemma merged_same (R R' : list IRow) :
  List.length R = List.length R' ->
  (forall x x', In (x, x') (combine R R') ->
                same_word (tok x) (tok x') /\ new_id x = new_id x') ->
  (forall r r' x x',
      In (r, r') (combine R R') -> In (x, x') (combine R R') ->
      docid (tok r) = docid (tok x) -> sentid (tok r) = sentid (tok x) ->
      (head (tok r) = id (tok x) <-> head (tok r') = id (tok x'))) ->
  Forall2 same_row (merge_left R (make_ref R)) (merge_left R' (make_ref R')).
Proof.
  intros HL Hpair Hcons. unfold merge_left.
  apply Forall2_flat_map. apply Forall2_combine; auto.
  intros r r' Hr. destruct (Hpair r r' Hr) as [Hw Hn].
  apply join_rows_same; auto.
  apply map_filter_Forall2. unfold make_ref. apply Forall2_map_both.
  apply Forall2_combine; auto.
  intros x x' Hx. destruct (Hpair x x' Hx) as [[Xd [Xs _]] Xn].
  simpl. split; auto.
  apply eq_true_iff_eq. rewrite !on_keys_true. simpl.
  destruct Hw as [Rd [Rs _]].
  split; intros [E1 [E2 E3]].
  - split; [congruence|]. split; [congruence|].
    apply (Hcons r r' x x' Hr Hx E1 E2). exact E3.
  - assert (D1 : docid (tok r) = docid (tok x)) by congruence.
    assert (D2 : sentid (tok r) = sentid (tok x)) by congruence.
    split; auto. split; auto.
    apply (Hcons r r' x x' Hr Hx D1 D2). exact E3.
Qed.

Lemma same_row_key (m m' : MRow) : same_row m m' -> m_key m = m_key m'.
Proof.
  intros [[Hd [Hs _]] _]. unfold m_key, group_key. now rewrite Hd, Hs.
Qed.

Lemma same_row_docid (m m' : MRow) : same_row m m' -> m_docid m = m_docid m'.
Proof. intros [[Hd _] _]. exact Hd. Qed.

Lemma same_row_dd (m m' : MRow) : same_row m m' -> dd m = dd m'.
Proof. intros [_ [Hn Hh]]. unfold dd. now rewrite Hn, Hh. Qed.

(** The aggregation reads nothing else than what [same_row] compares. *)
Lemma agg_same (M M' : list MRow) :
  Forall2 same_row M M' ->
  agg_by_sentence M = agg_by_sentence M'
  /\ agg_by_document M = agg_by_document M'.
Proof.
  intro H. split.
  - unfold agg_by_sentence.
    rewrite (Forall2_map_eq m_key m_key M M')
      by (eapply Forall2_weaken; [|exact H]; apply same_row_key).
    apply map_ext. intro k. unfold sent_row.
    rewrite (map_filter_Forall2 (in_group k) (in_group k) dd dd M M').
    2:{ eapply Forall2_weaken; [|exact H]. intros a b Hab. split.
        - unfold in_group. now rewrite (same_row_key a b Hab).
        - now apply same_row_dd. }
    rewrite (map_filter_Forall2 (in_group k) (in_group k)
               (fun r => token (tok (lhs r))) (fun r => token (tok (lhs r)))
               M M').
    2:{ eapply Forall2_weaken; [|exact H]. intros a b Hab. split.
        - unfold in_group. now rewrite (same_row_key a b Hab).
        - apply Hab. }
    reflexivity.
  - unfold agg_by_document.
    rewrite (Forall2_map_eq m_docid m_docid M M')
      by (eapply Forall2_weaken; [|exact H]; apply same_row_docid).
    apply map_ext. intro k. unfold doc_row.
    rewrite (map_filter_Forall2 (in_doc k) (in_doc k) dd dd M M').
    2:{ eapply Forall2_weaken; [|exact H]. intros a b Hab. split.
        - unfold in_doc. now rewrite (same_row_docid a b Hab).
        - now apply same_row_dd. }
    rewrite (map_filter_Forall2 (in_doc k) (in_doc k)
               (fun r => token (tok (lhs r))) (fun r => token (tok (lhs r)))
               M M').
    2:{ eapply Forall2_weaken; [|exact H]. intros a b Hab. split.
        - unfold in_doc. now rewrite (same_row_docid a b Hab).
        - apply Hab. }
    rewrite (map_filter_Forall2 (in_doc k) (in_doc k)
               (fun r => sentid (tok (lhs r))) (fun r => sentid (tok (lhs r)))
               M M').
    2:{ eapply Forall2_weaken; [|exact H]. intros a b Hab. split.
        - unfold in_doc. now rewrite (same_row_docid a b Hab).
        - apply Hab. }
    reflexivity.
Qed.

Lemma same_word_key (t t' : Token) :
  same_word t t' -> group_key t = group_key t'.
Proof. intros [Hd [Hs _]]. unfold group_key. now rewrite Hd, Hs. Qed.

(** Tables with the same words and the same head references are numbered
    alike and aggregated alike. *)
Lemma same_words_same_result (d d' : DataFrame) (by_sentence : bool) :
  same_words d d' ->
  heads_consistent d d' ->
  fmap (map new_id) (reindex d) = fmap (map new_id) (reindex d')
  /\ calc_mdd d by_sentence = calc_mdd d' by_sentence.
Proof.
  unfold same_words, heads_consistent, calc_mdd, merged, reindex.
  set (L := remove_punct d). set (L' := remove_punct d').
  intros HW HC.
  pose proof (Forall2_length HW) as HL.
  assert (HK : map group_key L = map group_key L').
  { apply Forall2_map_eq. eapply Forall2_weaken; [|exact HW].
    apply same_word_key. }
  unfold doc_sent_n. rewrite <- HK.
  set (v := new_id_values (Pd.group_sizes (map group_key L))).
  unfold assign_new_id. rewrite <- HL.
  destruct (Nat.eqb_spec (List.length v) (List.length L)) as [Hv|Hv];
    [|split; reflexivity].
  assert (Hv' : List.length v = List.length L') by congruence.
  set (R := map (fun p => mkIRow (fst p) (snd p)) (combine L v)).
  set (R' := map (fun p => mkIRow (fst p) (snd p)) (combine L' v)).
  assert (T : map tok R = L) by now apply combine_tok.
  assert (T' : map tok R' = L') by now apply combine_tok.
  assert (N : map new_id R = v) by now apply combine_new_id.
  assert (N' : map new_id R' = v) by now apply combine_new_id.
  simpl. rewrite N, N'. split; [reflexivity|].
  assert (Pair : forall x x', In (x, x') (combine R R') ->
                   In (tok x, tok x') (combine L L')).
  { intros x x' Hx. rewrite <- T, <- T'. now apply In_combine_map. }
  assert (S : Forall2 same_row (merge_left R (make_ref R))
                      (merge_left R' (make_ref R'))).
  { apply merged_same.
    - rewrite <- (length_map tok R), <- (length_map tok R'), T, T'. exact HL.
    - intros x x' Hx. split.
      + apply (Forall2_In_combine _ _ _ HW). now apply Pair.
      + apply (In_combine_same v). rewrite <- N at 1. rewrite <- N'.
        now apply In_combine_map.
    - intros r r' x x' Hr Hx. apply HC; now apply Pair. }
  destruct (agg_same _ _ S) as [A1 A2].
  destruct by_sentence; congruence.
Qed.

(** C9. The filter keeps exactly the rows whose [upos] is not the
    punctuation tag up to case.  Two tables that differ by punctuation rows
    only (their other rows being, in order, the same words of the same
    sentences, with head references that agree, whatever the indices)
    receive the same [new_id] values and the same aggregated rows: the
    same sum_dd, n_tokens and mdd, by sentence and by document. *)
Theorem punctuation_exclusion (d d' : DataFrame) (by_sentence : bool) :
  same_words d d' ->
  heads_consistent d d' ->
  (forall t, In t (remove_punct d) <-> In t d /\ ~ punct_tagged t)
  /\ fmap (map new_id) (reindex d) = fmap (map new_id) (reindex d')
  /\ calc_mdd d by_sentence = calc_mdd d' by_sentence.
Proof.
  intros HW HC. split; [intro t; apply remove_punct_In|].
  now apply same_words_same_result.
Qed.

Lemma punctuation_exclusion_witness :
  (forall t, In t (remove_punct Cases.with_comma)
             <-> In t Cases.with_comma /\ ~ punct_tagged t)
  /\ fmap (map new_id) (reindex Cases.with_comma)
     = fmap (map new_id) (reindex Cases.without_comma)
  /\ calc_mdd Cases.with_comma true = calc_mdd Cases.without_comma true.
Proof.
  apply (punctuation_exclusion Cases.with_comma Cases.without_comma true).
  - unfold same_words. simpl. repeat constructor.
  - unfold heads_consistent. simpl.
    intros t t' u u' [E|[E|[]]] [F|[F|[]]] _ _;
      inversion E; inversion F; subst; simpl;
        split; intro H; try discriminate H; reflexivity.
Defined.

(** * Further properties of the parser *)

(** ** Lines that can make the loop fail *)

Lemma set_last_ok {A : Type} (v : A) (l : list A) :
  l <> [] -> exists l', Parser.set_last v l = Ok l'
                        /\ List.length l' = List.length l.
Proof.
  destruct l as [|x t]; [congruence|]. intros _.
  eexists. split; [reflexivity|].
  rewrite length_app. simpl List.length at 2.
  assert (L : List.length (removelast (x :: t)) = List.length t).
  { clear. revert x. induction t as [|y t IH]; intro x; simpl; auto.
    simpl in IH. now rewrite IH. }
  rewrite L. simpl. lia.
Qed.

Lemma last_item_ok {A : Type} (l : list A) :
  l <> [] -> exists x, Parser.last_item l = Ok x.
Proof. destruct l; [congruence|]. intros _. eexists. reflexivity. Qed.

Lemma last_item_app {A : Type} (l : list A) (x : A) :
  Parser.last_item (l ++ [x]) = Ok x.
Proof.
  destruct l as [|y l]; simpl; auto. f_equal. apply last_last.
Qed.

(** A line that gives no identifier is taken without error, and the list of
    sentence identifiers stays non-empty. *)
Lemma step_ok (st : Parser.state) (raw : string) :
  is_id_line raw = false ->
  Parser.sentence_ids st <> [] ->
  exists st', Parser.step st raw = Ok st' /\ Parser.sentence_ids st' <> [].
Proof.
  unfold is_id_line, Parser.step. set (line := Py.strip raw).
  intros H Hne. apply orb_false_iff in H. destruct H as [H1 H2].
  rewrite H1, H2.
  destruct (String.eqb line "# newdoc").
  { eexists. split; [reflexivity|]. simpl. discriminate. }
  destruct (Py.startswith "#" line).
  { eexists. split; [reflexivity|]. assumption. }
  destruct (String.eqb line "").
  { eexists. split; [reflexivity|]. simpl.
    destruct (Parser.sentence_ids st); discriminate. }
  destruct (last_item_ok _ Hne) as [x ->]. simpl.
  eexists. split; [reflexivity|]. assumption.
Qed.

Lemma loop_ok (lines : list string) (st : Parser.state) :
  Forall (fun l => is_id_line l = false) lines ->
  Parser.sentence_ids st <> [] ->
  exists st', Parser.loop st lines = Ok st'.
Proof.
  revert st. induction lines as [|l rest IH]; intros st H Hne; simpl.
  - eauto.
  - inversion H as [|? ? Hl Hrest]. subst.
    destruct (step_ok st l Hl Hne) as [st1 [-> Hne1]]. simpl.
    now apply IH.
Qed.

Lemma make_frame_cases (rows : list Parser.raw_row) :
  (exists df, Parser.make_frame rows = Ok df)
  \/ (exists had, Parser.make_frame rows = Raise (ColumnCountError 12 had)
                  /\ had <> 12).
Proof.
  unfold Parser.make_frame. destruct rows as [|r t]; [left; eauto|].
  change (List.length Parser.cols) with 12.
  destruct (Nat.eqb_spec (list_max (map Parser.width (r :: t))) 12).
  - left. eauto.
  - right. eauto.
Qed.

(** X1. A text in which no line gives an identifier (no stripped line
    starts with [# newdoc id =] or [# sent_id =]) never fails in the loop:
    the parse returns a table, or fails on the number of columns only. *)
Theorem parse_without_id_lines (conll : string) :
  Forall (fun l => is_id_line l = false) (Py.split Py.LF conll) ->
  (exists df, parse_conll conll = Ok df)
  \/ (exists had, parse_conll conll = Raise (ColumnCountError 12 had)
                  /\ had <> 12).
Proof.
  intro H. unfold parse_conll, Parser.parse_conll.
  destruct (loop_ok _ Parser.init H) as [st ->]; [discriminate|].
  simpl. apply make_frame_cases.
Qed.

Lemma parse_without_id_lines_witness :
  (exists df, parse_conll Cases.no_newdoc_plain = Ok df)
  \/ (exists had,
        parse_conll Cases.no_newdoc_plain = Raise (ColumnCountError 12 had)
        /\ had <> 12).
Proof.
  apply (parse_without_id_lines Cases.no_newdoc_plain).
  vm_compute. repeat constructor.
Defined.

Lemma loop_app (l1 l2 : list string) (st : Parser.state) :
  Parser.loop st (l1 ++ l2)
  = (st1 <- Parser.loop st l1 ;; Parser.loop st1 l2).
Proof.
  revert st. induction l1 as [|l l1 IH]; intro st; simpl; auto.
  destruct (Parser.step st l); simpl; auto.
Qed.

Lemma step_empty_id (st : Parser.state) (raw : string) :
  Py.strip raw = "# newdoc id =" \/ Py.strip raw = "# sent_id =" ->
  Parser.step st raw = Raise IndexError.
Proof.
  unfold Parser.step. intros [-> | ->]; reflexivity.
Qed.

(** X2. A line that announces an identifier and gives none (after
    stripping it is [# newdoc id =] or [# sent_id =]) makes the parse raise
    IndexError, wherever it stands after lines that were taken. *)
Theorem parse_empty_id_raises
  (conll : string) (before after : list string) (raw : string)
  (st : Parser.state) :
  Py.split Py.LF conll = before ++ raw :: after ->
  Parser.loop Parser.init before = Ok st ->
  Py.strip raw = "# newdoc id =" \/ Py.strip raw = "# sent_id =" ->
  parse_conll conll = Raise IndexError.
Proof.
  intros Hs Hb Hraw. unfold parse_conll, Parser.parse_conll.
  rewrite Hs, loop_app, Hb. simpl.
  now rewrite (step_empty_id st raw Hraw).
Qed.

Lemma parse_empty_id_raises_witness :
  parse_conll Cases.empty_doc_id = Raise IndexError.
Proof.
  eapply (parse_empty_id_raises Cases.empty_doc_id
            [Cases.line "1" "go" "VERB" "0"] ["# sent_id = 1"]
            "# newdoc id = ").
  - vm_compute. reflexivity.
  - vm_compute. reflexivity.
  - left. vm_compute. reflexivity.
Defined.

(** ** The rows of the table *)

Lemma make_frame_ok (rows : list Parser.raw_row) (df : DataFrame) :
  Parser.make_frame rows = Ok df -> df = map Parser.to_token rows.
Proof.
  unfold Parser.make_frame. destruct rows as [|r t].
  - intro H. now inversion H.
  - destruct (_ =? _); intro H; now inversion H.
Qed.

Lemma parse_ok_inv (conll : string) (df : DataFrame) :
  parse_conll conll = Ok df ->
  exists st, Parser.loop Parser.init (Py.split Py.LF conll) = Ok st
             /\ df = map Parser.to_token (Parser.data st).
Proof.
  unfold parse_conll, Parser.parse_conll.
  destruct (Parser.loop _ _) as [st|e]; simpl; [|discriminate].
  intro H. exists st. split; auto. now apply make_frame_ok.
Qed.

Lemma to_token_cells (rows : list Parser.raw_row) :
  map id (map Parser.to_token rows)
  = map (fun f => nth_error f 0) (map snd rows)
  /\ map token (map Parser.to_token rows)
     = map (fun f => nth_error f 1) (map snd rows)
  /\ map upos (map Parser.to_token rows)
     = map (fun f => nth_error f 3) (map snd rows)
  /\ map head (map Parser.to_token rows)
     = map (fun f => nth_error f 6) (map snd rows).
Proof.
  rewrite !map_map. repeat split; apply map_ext; intros [[d s] f]; reflexivity.
Qed.

(** X3. When the parse returns, the table has one row per data line of the
    text, in the order of the lines, and the columns [id], [token], [upos]
    and [head] hold the first, second, fourth and seventh tab-separated
    field of the stripped line (missing where the line has fewer fields). *)
Theorem parsed_rows_are_data_lines (conll : string) (df : DataFrame) :
  parse_conll conll = Ok df ->
  List.length df = List.length (data_lines conll)
  /\ map id df = map (field 0) (data_lines conll)
  /\ map token df = map (field 1) (data_lines conll)
  /\ map upos df = map (field 3) (data_lines conll)
  /\ map head df = map (field 6) (data_lines conll).
Proof.
  intro H. apply parse_ok_inv in H. destruct H as [st [E ->]].
  pose proof (loop_data _ _ _ E) as D. simpl in D.
  fold (data_lines conll) in D.
  destruct (to_token_cells (Parser.data st)) as [C0 [C1 [C3 C6]]].
  assert (L : List.length (Parser.data st) = List.length (data_lines conll)).
  { transitivity (List.length (map snd (Parser.data st))).
    - symmetry. apply length_map.
    - rewrite D. apply length_map. }
  rewrite C0, C1, C3, C6, D, !map_map, length_map.
  repeat split; auto.
Qed.

Lemma parsed_rows_are_data_lines_witness :
  exists df,
    parse_conll Cases.short_line = Ok df
    /\ List.length df = List.length (data_lines Cases.short_line)
    /\ map id df = map (field 0) (data_lines Cases.short_line)
    /\ map token df = map (field 1) (data_lines Cases.short_line)
    /\ map upos df = map (field 3) (data_lines Cases.short_line)
    /\ map head df = map (field 6) (data_lines Cases.short_line).
Proof.
  eexists. split; [vm_compute; reflexivity|].
  apply (parsed_rows_are_data_lines Cases.short_line).
  vm_compute. reflexivity.
Defined.

(** ** White space around a line *)

Lemma rstrip_space_end (s : string) (c : ascii) :
  Py.is_space c = true ->
  Py.rstrip (s ++ String c EmptyString) = Py.rstrip s.
Proof.
  intro H. induction s as [|a s IH]; simpl.
  - now rewrite H.
  - now rewrite IH.
Qed.

Lemma strip_space_end (s : string) (c : ascii) :
  Py.is_space c = true ->
  Py.strip (s ++ String c EmptyString) = Py.strip s.
Proof.
  intro H. unfold Py.strip. induction s as [|a s IH]; simpl.
  - now rewrite H.
  - destruct (Py.is_space a); auto.
    change (String a (s ++ String c EmptyString))
      with (String a s ++ String c EmptyString)%string.
    now apply rstrip_space_end.
Qed.

Lemma strip_space_start (s : string) (c : ascii) :
  Py.is_space c = true -> Py.strip (String c s) = Py.strip s.
Proof. intro H. unfold Py.strip. simpl. now rewrite H. Qed.

(** X4. White space at either end of a line does not count: the loop does
    with a line what it does with the line without it.  In particular a
    data line that ends with a tab, that is with an empty last field, is
    taken without that field. *)
Theorem white_space_around_line (st : Parser.state) (raw : string)
  (c : ascii) :
  Py.is_space c = true ->
  Parser.step st (String c raw) = Parser.step st raw
  /\ Parser.step st (raw ++ String c EmptyString) = Parser.step st raw
  /\ fields (raw ++ String c EmptyString) = fields raw.
Proof.
  intro H. unfold Parser.step, fields.
  rewrite (strip_space_start raw c H), (strip_space_end raw c H). auto.
Qed.

Lemma white_space_around_line_witness :
  Parser.step Parser.init (String Py.TAB (Cases.line "1" "go" "VERB" "0"))
  = Parser.step Parser.init (Cases.line "1" "go" "VERB" "0")
  /\ Parser.step Parser.init
       (Cases.line "1" "go" "VERB" "0" ++ String Py.TAB EmptyString)
     = Parser.step Parser.init (Cases.line "1" "go" "VERB" "0")
  /\ fields (Cases.line "1" "go" "VERB" "0" ++ String Py.TAB EmptyString)
     = fields (Cases.line "1" "go" "VERB" "0").
Proof.
  apply (white_space_around_line Parser.init
           (Cases.line "1" "go" "VERB" "0") Py.TAB).
  vm_compute. reflexivity.
Defined.

(** ** What each kind of line does to the three lists *)

Lemma prefix_nonempty (p line : string) (c : ascii) :
  String.prefix (String c p) line = true -> String.eqb line "" = false.
Proof. destruct line; [discriminate|reflexivity]. Qed.

Lemma not_hash_prefix (p line : string) :
  String.prefix "#" line = false -> String.prefix (String "#" p) line = false.
Proof.
  intro H. destruct (String.prefix (String "#" p) line) eqn:E; auto.
  apply prefix_hash in E. congruence.
Qed.

(** A line that starts a document. *)
Lemma step_newdoc (st st' : Parser.state) (raw : string) :
  is_newdoc_line raw = true ->
  Parser.step st raw = Ok st' ->
  Parser.data st' = Parser.data st
  /\ Parser.sentence_ids st' = [PyInt 1]
  /\ exists v, Parser.doc_ids st' = Parser.doc_ids st ++ [v]
               /\ (v = Parser.next_int (Parser.doc_ids st)
                   \/ exists s, v = PyStr s).
Proof.
  unfold is_newdoc_line, Parser.step. set (line := Py.strip raw).
  destruct (Py.startswith "# newdoc id =" line) eqn:E1.
  - intros _. destruct (Py.split1_snd _ line); simpl; [|discriminate].
    intro H. inversion H. simpl. repeat split; auto.
    eexists. split; [reflexivity|]. right. eauto.
  - simpl. intros ->. intro H. inversion H. simpl. repeat split; auto.
    eexists. split; [reflexivity|]. now left.
Qed.

(** A line that separates sentences. *)
Lemma step_blank (st : Parser.state) (raw : string) :
  is_blank_line raw = true ->
  Parser.step st raw
  = Ok {| Parser.data := Parser.data st;
          Parser.doc_ids := Parser.doc_ids st;
          Parser.sentence_ids :=
            Parser.sentence_ids st ++ [Parser.next_int (Parser.sentence_ids st)] |}.
Proof.
  unfold is_blank_line, Parser.step. intro H.
  apply String.eqb_eq in H. rewrite H. reflexivity.
Qed.

(** A data line. *)
Lemma step_data_line (st : Parser.state) (raw : string) :
  is_data_line raw = true ->
  Parser.step st raw
  = (sid <- Parser.last_item (Parser.sentence_ids st) ;;
     Ok {| Parser.data :=
             Parser.data st
             ++ [(current_doc (Parser.doc_ids st), sid, fields raw)];
           Parser.doc_ids := Parser.doc_ids st;
           Parser.sentence_ids := Parser.sentence_ids st |}).
Proof.
  unfold is_data_line, Parser.step, fields, Py.startswith.
  set (line := Py.strip raw). intro H.
  apply andb_true_iff in H. destruct H as [H1 H2].
  apply negb_true_iff in H1, H2.
  rewrite (not_hash_prefix _ _ H1), (not_hash_prefix _ _ H1), H1, H2.
  destruct (String.eqb line "# newdoc") eqn:E; [|reflexivity].
  apply String.eqb_eq in E. rewrite E in H1. discriminate.
Qed.

(** Any other line that does not start a document: a sentence identifier
    or a comment. *)
Lemma step_other (st st' : Parser.state) (raw : string) :
  is_newdoc_line raw = false ->
  is_blank_line raw = false ->
  is_data_line raw = false ->
  Parser.step st raw = Ok st' ->
  Parser.data st' = Parser.data st
  /\ Parser.doc_ids st' = Parser.doc_ids st
  /\ List.length (Parser.sentence_ids st')
     = List.length (Parser.sentence_ids st).
Proof.
  unfold is_newdoc_line, is_blank_line, is_data_line, Parser.step,
    Py.startswith.
  set (line := Py.strip raw). intros H1 H2 H3.
  apply orb_false_iff in H1. destruct H1 as [N1 N2].
  unfold Py.startswith in N1. rewrite N1, N2, H2.
  rewrite H2 in H3. rewrite andb_true_r in H3. apply negb_false_iff in H3.
  rewrite H3.
  destruct (String.prefix "# sent_id =" line).
  - destruct (Py.split1_snd _ line) as [rest|]; simpl; [|discriminate].
    destruct (Parser.sentence_ids st) as [|x t] eqn:Es; simpl; [discriminate|].
    intro H. inversion H. simpl. repeat split; auto.
    destruct (set_last_ok (PyStr (Py.strip rest)) (x :: t)) as [l' [E L]];
      [discriminate|].
    simpl in E. inversion E. subst l'. exact L.
  - intro H. inversion H. auto.
Qed.

(** Every line is of one of the four kinds. *)
Lemma line_kinds (raw : string) :
  is_newdoc_line raw = true
  \/ (is_newdoc_line raw = false /\ is_blank_line raw = true
      /\ is_data_line raw = false)
  \/ (is_newdoc_line raw = false /\ is_blank_line raw = false
      /\ is_data_line raw = true)
  \/ (is_newdoc_line raw = false /\ is_blank_line raw = false
      /\ is_data_line raw = false).
Proof.
  destruct (is_newdoc_line raw) eqn:N; [now left|right].
  unfold is_blank_line, is_data_line.
  destruct (String.eqb (Py.strip raw) ""); simpl.
  - left. now rewrite andb_false_r.
  - right. rewrite andb_true_r.
    destruct (Py.startswith "#" (Py.strip raw)); simpl; auto.
Qed.

(** ** The sentence counter *)

Lemma step_sentence_ids (st st' : Parser.state) (raw : string) :
  is_newdoc_line raw = false ->
  Parser.step st raw = Ok st' ->
  List.length (Parser.sentence_ids st')
  = List.length (Parser.sentence_ids st)
    + (if is_blank_line raw then 1 else 0).
Proof.
  intros N E.
  destruct (line_kinds raw) as [K|[[_ [B D]]|[[_ [B D]]|[_ [B D]]]]];
    [congruence| | |]; rewrite B.
  - rewrite (step_blank st raw B) in E. inversion E. simpl.
    now rewrite length_app.
  - rewrite (step_data_line st raw D) in E.
    destruct (Parser.last_item (Parser.sentence_ids st)); simpl in E;
      [|discriminate].
    inversion E. simpl. lia.
  - destruct (step_other st st' raw N B D E) as [_ [_ L]]. lia.
Qed.

Lemma loop_sentence_ids (lines : list string) (st st' : Parser.state) :
  Forall (fun l => is_newdoc_line l = false) lines ->
  Parser.loop st lines = Ok st' ->
  List.length (Parser.sentence_ids st')
  = List.length (Parser.sentence_ids st)
    + List.length (filter is_blank_line lines).
Proof.
  revert st. induction lines as [|l rest IH]; intros st H; simpl.
  - intro E. inversion E. lia.
  - inversion H as [|? ? Hl Hrest]. subst.
    destruct (Parser.step st l) as [st1|] eqn:E1; simpl; [|discriminate].
    intro E. rewrite (IH st1 Hrest E), (step_sentence_ids st st1 l Hl E1).
    destruct (is_blank_line l); simpl; lia.
Qed.

(** X5. Within a document the sentence identifier that a blank line gives
    to the next sentence is a counter of the blank lines: a data line right
    after a blank line gets the integer 1 + the length of [sentence_ids]
    before the blank line, which grows by one with every blank line and
    with nothing else.  So a second blank line in a row skips a number, and
    a [# sent_id =] line renames one sentence without moving the counter. *)
Theorem sentence_id_counts_blank_lines
  (st st' : Parser.state) (lines : list string) (blank next : string) :
  Forall (fun l => is_newdoc_line l = false) lines ->
  is_blank_line blank = true ->
  is_data_line next = true ->
  Parser.loop st (lines ++ [blank; next]) = Ok st' ->
  exists rows doc,
    Parser.data st'
    = rows
      ++ [(doc,
           PyInt (Z.of_nat (List.length (Parser.sentence_ids st)
                            + List.length (filter is_blank_line lines)) + 1),
           fields next)].
Proof.
  intros Hl Hb Hd. rewrite loop_app.
  destruct (Parser.loop st lines) as [st1|] eqn:E1; simpl; [|discriminate].
  rewrite (step_blank st1 blank Hb). simpl.
  rewrite (step_data_line _ next Hd). simpl.
  rewrite last_item_app. simpl. intro H. inversion H. simpl.
  exists (Parser.data st1), (current_doc (Parser.doc_ids st1)).
  unfold Parser.next_int.
  now rewrite (loop_sentence_ids lines st st1 Hl E1).
Qed.

Lemma sentence_id_counts_blank_lines_witness :
  exists st',
    Parser.loop Parser.init
      (["# sent_id = first"; Cases.line "1" "go" "VERB" "0"; ""]
         ++ [""; Cases.line "1" "stop" "VERB" "0"]) = Ok st'
    /\ exists rows doc,
         Parser.data st'
         = rows
           ++ [(doc, PyInt 3, fields (Cases.line "1" "stop" "VERB" "0"))].
Proof.
  eexists. split; [vm_compute; reflexivity|].
  apply (sentence_id_counts_blank_lines Parser.init _
           ["# sent_id = first"; Cases.line "1" "go" "VERB" "0"; ""]
           "" (Cases.line "1" "stop" "VERB" "0")).
  - vm_compute. repeat constructor.
  - reflexivity.
  - vm_compute. reflexivity.
  - vm_compute. reflexivity.
Defined.

(** ** Document identifiers *)

Lemma step_doc_ids (st st' : Parser.state) (raw : string) :
  Parser.step st raw = Ok st' ->
  (is_newdoc_line raw = true
   /\ exists v, Parser.doc_ids st' = Parser.doc_ids st ++ [v]
                /\ (v = Parser.next_int (Parser.doc_ids st)
                    \/ exists s, v = PyStr s))
  \/ (is_newdoc_line raw = false
      /\ Parser.doc_ids st' = Parser.doc_ids st).
Proof.
  intro E.
  destruct (line_kinds raw) as [K|[[N [B D]]|[[N [B D]]|[N [B D]]]]].
  - left. split; auto. now destruct (step_newdoc st st' raw K E) as [_ [_ H]].
  - right. split; auto. rewrite (step_blank st raw B) in E. now inversion E.
  - right. split; auto. rewrite (step_data_line st raw D) in E.
    destruct (Parser.last_item _); simpl in E; [|discriminate].
    now inversion E.
  - right. split; auto. now destruct (step_other st st' raw N B D E) as [_ [H _]].
Qed.

Lemma loop_doc_ids (lines : list string) (st st' : Parser.state) :
  (forall i n, nth_error (Parser.doc_ids st) i = Some (PyInt n) ->
               n = (Z.of_nat i + 1)%Z) ->
  Parser.loop st lines = Ok st' ->
  List.length (Parser.doc_ids st')
  = List.length (Parser.doc_ids st)
    + List.length (filter is_newdoc_line lines)
  /\ (forall i n, nth_error (Parser.doc_ids st') i = Some (PyInt n) ->
                  n = (Z.of_nat i + 1)%Z).
Proof.
  revert st. induction lines as [|l rest IH]; intros st Inv; simpl.
  - intro E. inversion E. subst. split; [lia|auto].
  - destruct (Parser.step st l) as [st1|] eqn:E1; simpl; [|discriminate].
    intro E.
    destruct (step_doc_ids st st1 l E1) as [[K [v [Hv Hkind]]]|[K Hsame]];
      rewrite K.
    + assert (Inv1 : forall i n,
                 nth_error (Parser.doc_ids st1) i = Some (PyInt n) ->
                 n = (Z.of_nat i + 1)%Z).
      { intros i n. rewrite Hv.
        destruct (Nat.lt_ge_cases i (List.length (Parser.doc_ids st)))
          as [Hi|Hi].
        - rewrite nth_error_app1 by assumption. apply Inv.
        - rewrite nth_error_app2 by assumption.
          destruct (i - List.length (Parser.doc_ids st)) as [|j] eqn:Ej;
            simpl; [|destruct j; discriminate].
          destruct Hkind as [->|[s ->]]; [|discriminate].
          unfold Parser.next_int. intro H. inversion H. lia. }
      destruct (IH st1 Inv1 E) as [L I]. split; auto.
      rewrite L, Hv, length_app. simpl. lia.
    + rewrite <- Hsame. apply IH; auto. now rewrite Hsame.
Qed.

(** X6. When the loop ends, there are as many document identifiers as the
    text has lines that start a document, and an identifier that is an
    integer (one made for a bare [# newdoc] line) is its own position in
    that list, counted from 1: two documents never share such a number,
    and the numbers skip the positions of the named documents. *)
Theorem implicit_doc_ids_by_position (lines : list string)
  (st : Parser.state) :
  Parser.loop Parser.init lines = Ok st ->
  List.length (Parser.doc_ids st) = List.length (filter is_newdoc_line lines)
  /\ (forall i n, nth_error (Parser.doc_ids st) i = Some (PyInt n) ->
                  n = (Z.of_nat i + 1)%Z)
  /\ (forall i j n, nth_error (Parser.doc_ids st) i = Some (PyInt n) ->
                    nth_error (Parser.doc_ids st) j = Some (PyInt n) ->
                    i = j).
Proof.
  intro E.
  destruct (loop_doc_ids lines Parser.init st) as [L I]; auto.
  { intros i n. simpl. destruct i; discriminate. }
  split; [exact L|]. split; [exact I|].
  intros i j n Hi Hj. apply I in Hi, Hj. lia.
Qed.

Lemma implicit_doc_ids_by_position_witness :
  exists st,
    Parser.loop Parser.init ["# newdoc"; "# newdoc id = b"; "# newdoc"]
    = Ok st
    /\ Parser.doc_ids st = [PyInt 1; PyStr "b"; PyInt 3]
    /\ List.length (Parser.doc_ids st)
       = List.length (filter is_newdoc_line
                        ["# newdoc"; "# newdoc id = b"; "# newdoc"])
    /\ (forall i n, nth_error (Parser.doc_ids st) i = Some (PyInt n) ->
                    n = (Z.of_nat i + 1)%Z)
    /\ (forall i j n, nth_error (Parser.doc_ids st) i = Some (PyInt n) ->
                      nth_error (Parser.doc_ids st) j = Some (PyInt n) ->
                      i = j).
Proof.
  eexists. split; [vm_compute; reflexivity|].
  split; [reflexivity|].
  apply (implicit_doc_ids_by_position
           ["# newdoc"; "# newdoc id = b"; "# newdoc"]).
  vm_compute. reflexivity.
Defined.

(** The rows read while no document has started have no [docid]; the rows
    read after one has started have one. *)
Lemma step_rows_docid (st st' : Parser.state) (raw : string) :
  Parser.step st raw = Ok st' ->
  (Parser.doc_ids st <> [] -> Parser.doc_ids st' <> [])
  /\ (Parser.doc_ids st <> [] ->
      Forall (fun r => fst (fst r) <> None) (Parser.data st) ->
      Forall (fun r : Parser.raw_row => fst (fst r) <> None) (Parser.data st'))
  /\ (is_newdoc_line raw = false -> Parser.doc_ids st = [] ->
      Forall (fun r => fst (fst r) = None) (Parser.data st) ->
      Parser.doc_ids st' = []
      /\ Forall (fun r : Parser.raw_row => fst (fst r) = None)
                (Parser.data st')).
Proof.
  intro E.
  destruct (line_kinds raw) as [K|[[N [B D]]|[[N [B D]]|[N [B D]]]]].
  - destruct (step_newdoc st st' raw K E) as [Hd [_ [v [Hv _]]]].
    rewrite Hd, Hv. split; [|split].
    + intros _. destruct (Parser.doc_ids st); discriminate.
    + auto.
    + congruence.
  - rewrite (step_blank st raw B) in E. inversion E. simpl. auto.
  - rewrite (step_data_line st raw D) in E.
    destruct (Parser.last_item _) as [sid|]; simpl in E; [|discriminate].
    inversion E. simpl. split; [auto|]. split.
    + intros Hne F. apply Forall_app. split; auto.
      constructor; [|constructor]. simpl.
      destruct (Parser.doc_ids st); [congruence|discriminate].
    + intros _ Hnil F. split; auto. apply Forall_app. split; auto.
      constructor; [|constructor]. simpl. now rewrite Hnil.
  - destruct (step_other st st' raw N B D E) as [Hd [Hi _]].
    rewrite Hd, Hi. auto.
Qed.

Lemma loop_rows_without_doc (lines : list string) (st st' : Parser.state) :
  Forall (fun l => is_newdoc_line l = false) lines ->
  Parser.doc_ids st = [] ->
  Forall (fun r => fst (fst r) = None) (Parser.data st) ->
  Parser.loop st lines = Ok st' ->
  Forall (fun r : Parser.raw_row => fst (fst r) = None) (Parser.data st').
Proof.
  revert st. induction lines as [|l rest IH]; intros st H Hnil F; simpl.
  - intro E. now inversion E; subst.
  - inversion H as [|? ? Hl Hrest]. subst.
    destruct (Parser.step st l) as [st1|] eqn:E1; simpl; [|discriminate].
    destruct (step_rows_docid st st1 l E1) as [_ [_ S]].
    destruct (S Hl Hnil F) as [Hnil1 F1]. now apply IH.
Qed.

Lemma loop_rows_with_doc (lines : list string) (st st' : Parser.state) :
  Parser.doc_ids st <> [] ->
  Forall (fun r => fst (fst r) <> None) (Parser.data st) ->
  Parser.loop st lines = Ok st' ->
  Forall (fun r : Parser.raw_row => fst (fst r) <> None) (Parser.data st').
Proof.
  revert st. induction lines as [|l rest IH]; intros st Hne F; simpl.
  - intro E. now inversion E; subst.
  - destruct (Parser.step st l) as [st1|] eqn:E1; simpl; [|discriminate].
    destruct (step_rows_docid st st1 l E1) as [S1 [S2 _]].
    apply IH; auto.
Qed.

Lemma to_token_docid (r : Parser.raw_row) :
  docid (Parser.to_token r) = fst (fst r).
Proof. now destruct r as [[d s] f]. Qed.

(** ** From the text to the aggregation *)

Lemma count_none (n : nat) (acc : list (key * nat)) :
  fold_left Pd.count_step (repeat None n) acc = acc.
Proof. revert acc. induction n as [|n IH]; intro acc; simpl; auto. Qed.

Lemma keys_without_docid (l : list Token) :
  Forall (fun t => docid t = None) l ->
  map group_key l = repeat None (List.length l).
Proof.
  induction 1 as [|t l Ht _ IH]; simpl; auto.
  unfold group_key at 1. now rewrite Ht, IH.
Qed.

Lemma calc_mdd_without_docid (d : DataFrame) (by_sentence : bool) :
  (forall t, In t d -> docid t = None) ->
  remove_punct d <> [] ->
  calc_mdd d by_sentence
  = Raise (LengthMismatch 0 (List.length (remove_punct d))).
Proof.
  intros H Hne. unfold calc_mdd, merged, reindex, doc_sent_n, Pd.group_sizes.
  assert (F : Forall (fun t => docid t = None) (remove_punct d)).
  { apply Forall_forall. intros t Ht. apply H.
    apply filter_In in Ht. tauto. }
  rewrite (keys_without_docid _ F), count_none. simpl. unfold assign_new_id. simpl.
  destruct (remove_punct d); [congruence|reflexivity].
Qed.

(** X7. A text without any line that starts a document parses into rows
    without [docid], and [calc_mdd] raises on that table as soon as it keeps
    a row: the rows without [docid] belong to no group, so no value is made
    for [new_id], and the assignment of the empty list to the column is
    refused. *)
Theorem text_without_newdoc_cannot_be_aggregated
  (conll : string) (df : DataFrame) (by_sentence : bool) :
  Forall (fun l => is_newdoc_line l = false) (Py.split Py.LF conll) ->
  parse_conll conll = Ok df ->
  (forall t, In t df -> docid t = None)
  /\ (remove_punct df <> [] ->
      calc_mdd df by_sentence
      = Raise (LengthMismatch 0 (List.length (remove_punct df)))).
Proof.
  intros Hl Hp. apply parse_ok_inv in Hp. destruct Hp as [st [E ->]].
  pose proof (loop_rows_without_doc _ Parser.init st Hl eq_refl
                (Forall_nil _) E) as F.
  assert (N : forall t, In t (map Parser.to_token (Parser.data st)) ->
                        docid t = None).
  { intros t Ht. apply in_map_iff in Ht. destruct Ht as [r [<- Hr]].
    rewrite to_token_docid. rewrite Forall_forall in F. now apply F. }
  split; auto. intro Hne. now apply calc_mdd_without_docid.
Qed.

Lemma text_without_newdoc_cannot_be_aggregated_witness :
  exists df,
    parse_conll Cases.no_newdoc = Ok df
    /\ (forall t, In t df -> docid t = None)
    /\ (remove_punct df <> [] ->
        calc_mdd df true
        = Raise (LengthMismatch 0 (List.length (remove_punct df)))).
Proof.
  eexists. split; [vm_compute; reflexivity|].
  apply (text_without_newdoc_cannot_be_aggregated Cases.no_newdoc).
  - vm_compute. repeat constructor.
  - vm_compute. reflexivity.
Defined.

(** X8. When a line that starts a document comes before the first data
    line, every row of the parsed table has a [docid], and [calc_mdd]
    returns a frame for it, by sentence and by document. *)
Theorem text_with_leading_newdoc_is_aggregated
  (conll : string) (before after : list string) (start : string)
  (df : DataFrame) (by_sentence : bool) :
  Py.split Py.LF conll = before ++ start :: after ->
  Forall (fun l => is_data_line l = false) before ->
  is_newdoc_line start = true ->
  parse_conll conll = Ok df ->
  has_docid df
  /\ exists frame, calc_mdd df by_sentence = Ok frame.
Proof.
  intros Hs Hb Hn Hp. apply parse_ok_inv in Hp. destruct Hp as [st [E ->]].
  rewrite Hs, loop_app in E.
  destruct (Parser.loop Parser.init before) as [st1|] eqn:E1; simpl in E;
    [|discriminate].
  destruct (Parser.step st1 start) as [st2|] eqn:E2; simpl in E;
    [|discriminate].
  assert (D1 : Parser.data st1 = []).
  { pose proof (loop_data _ _ _ E1) as D. simpl in D.
    rewrite (filter_none is_data_line before Hb) in D. simpl in D.
    now apply map_eq_nil in D. }
  destruct (step_newdoc st1 st2 start Hn E2) as [D2 [_ [v [Hv _]]]].
  assert (F : Forall (fun r : Parser.raw_row => fst (fst r) <> None)
                     (Parser.data st)).
  { apply (loop_rows_with_doc after st2 st); auto.
    - rewrite Hv. destruct (Parser.doc_ids st1); discriminate.
    - rewrite D2, D1. constructor. }
  assert (H : has_docid (map Parser.to_token (Parser.data st))).
  { intros t Ht. apply in_map_iff in Ht. destruct Ht as [r [<- Hr]].
    rewrite to_token_docid. rewrite Forall_forall in F. now apply F. }
  split; auto. apply calc_mdd_ok.
  intros t Ht. apply H. apply filter_In in Ht. tauto.
Qed.

Lemma text_with_leading_newdoc_is_aggregated_witness :
  exists df,
    parse_conll Cases.reused_sent_id = Ok df
    /\ has_docid df
    /\ exists frame, calc_mdd df true = Ok frame.
Proof.
  eexists. split; [vm_compute; reflexivity|].
  eapply (text_with_leading_newdoc_is_aggregated Cases.reused_sent_id
            [] _ "# newdoc id = d").
  - vm_compute. reflexivity.
  - constructor.
  - reflexivity.
  - vm_compute. reflexivity.
Defined.

(** * Further properties of the aggregation *)

(** ** When [calc_mdd] raises *)

(** X9. [calc_mdd] returns a frame exactly when every retained row has a
    [docid].  Otherwise it raises the length mismatch of the assignment to
    [new_id], with the number of retained rows that have a [docid] as the
    number of values and the number of retained rows as the length of the
    index; it raises nothing else. *)
Theorem calc_mdd_raises_exactly (d : DataFrame) (by_sentence : bool) :
  match calc_mdd d by_sentence with
  | Ok _ => has_docid (remove_punct d)
  | Raise e =>
      e = LengthMismatch
            (List.length (Pd.dropna (map group_key (remove_punct d))))
            (List.length (remove_punct d))
      /\ List.length (Pd.dropna (map group_key (remove_punct d)))
         < List.length (remove_punct d)
      /\ ~ has_docid (remove_punct d)
  end.
Proof.
  destruct (calc_mdd d by_sentence) as [frame|e] eqn:E.
  - apply calc_mdd_inv in E. destruct E as [m [E _]].
    apply merged_inv in E. destruct E as [R [E _]].
    exact (reindex_has_docid d R E).
  - assert (N : ~ has_docid (remove_punct d)).
    { intro H. destruct (calc_mdd_ok d by_sentence H) as [f F]. congruence. }
    destruct (reindex_raises d N) as [n [F L]].
    unfold calc_mdd, merged in E. rewrite F in E. simpl in E.
    inversion E. subst e.
    assert (Hn : n = List.length (Pd.dropna (map group_key (remove_punct d)))).
    { unfold reindex, assign_new_id in F.
      rewrite new_id_values_count in F.
      destruct (_ =? _); [discriminate|]. now inversion F. }
    rewrite <- Hn. auto.
Qed.

(** ** The rows of the returned frames and the groups of the table *)

Lemma join_row_nonempty (ref : list RefRow) (r : IRow) :
  exists m, In m (join_row ref r).
Proof.
  unfold join_row. destruct (filter (on_keys r) ref) as [|f fs].
  - eexists. now left.
  - eexists. simpl. now left.
Qed.

Lemma merge_left_covers (R : list IRow) (ref : list RefRow) (x : IRow) :
  In x R <-> exists m, In m (merge_left R ref) /\ lhs m = x.
Proof.
  split.
  - intro Hx. destruct (join_row_nonempty ref x) as [m Hm].
    exists m. split; [|now apply (join_row_lhs ref x)].
    unfold merge_left. apply in_flat_map. eauto.
  - intros [m [Hm <-]]. now apply merge_left_In in Hm.
Qed.

Lemma merged_keys (d : DataFrame) (m : list MRow) (o : option key) :
  merged d = Ok m ->
  In o (map m_key m) <-> In o (map group_key (remove_punct d)).
Proof.
  intro E. apply merged_inv in E. destruct E as [R [_ [T ->]]].
  rewrite <- T, !in_map_iff. split.
  - intros [x [Hk Hx]]. apply merge_left_In in Hx. destruct Hx as [Hx _].
    exists (tok (lhs x)). split; auto. now apply in_map.
  - intros [t [Hk Ht]]. apply in_map_iff in Ht. destruct Ht as [x [<- Hx]].
    apply (merge_left_covers R (make_ref R)) in Hx. destruct Hx as [y [Hy <-]].
    exists y. auto.
Qed.

Lemma merged_docids (d : DataFrame) (m : list MRow) (o : option pyval) :
  merged d = Ok m ->
  In o (map m_docid m) <-> In o (map docid (remove_punct d)).
Proof.
  intro E. apply merged_inv in E. destruct E as [R [_ [T ->]]].
  rewrite <- T, !in_map_iff. split.
  - intros [x [Hk Hx]]. apply merge_left_In in Hx. destruct Hx as [Hx _].
    exists (tok (lhs x)). split; auto. now apply in_map.
  - intros [t [Hk Ht]]. apply in_map_iff in Ht. destruct Ht as [x [<- Hx]].
    apply (merge_left_covers R (make_ref R)) in Hx. destruct Hx as [y [Hy <-]].
    exists y. auto.
Qed.

(** X10. The frame returned by sentence has a row for a (docid, sentid)
    pair exactly when a retained row of the table carries it, and the frame
    returned by document has a row for a docid exactly when a retained row
    carries it: no group is lost and none is made up.  A table that retains
    nothing gives frames without rows. *)
Theorem rows_are_the_groups (d : DataFrame) (by_sentence : bool)
  (frame : AggFrame) :
  calc_mdd d by_sentence = Ok frame ->
  match frame with
  | BySentence rows =>
      forall k, (exists r, In r rows /\ (s_docid r, s_sentid r) = k)
                <-> (exists t, In t (remove_punct d) /\ group_key t = Some k)
  | ByDocument rows =>
      forall k, (exists r, In r rows /\ d_docid r = k)
                <-> (exists t, In t (remove_punct d) /\ docid t = Some k)
  end.
Proof.
  intro E. apply calc_mdd_inv in E. destruct E as [m [E ->]].
  destruct by_sentence; intro k.
  - unfold agg_by_sentence. split.
    + intros [r [Hr Hk]]. apply in_map_iff in Hr.
      destruct Hr as [[k1 k2] [<- Hin]]. simpl in Hk. subst k.
      apply (proj1 (sorted_keys_In key_compare key_compare_eq _ _)) in Hin.
      apply (proj1 (dropna_In _ _)) in Hin.
      apply (proj1 (merged_keys d m _ E)) in Hin.
      apply in_map_iff in Hin. destruct Hin as [t [Hk Ht]]. eauto.
    + intros [t [Ht Hk]]. exists (sent_row m k). split.
      * apply in_map.
        apply (proj2 (sorted_keys_In key_compare key_compare_eq k _)).
        apply (proj2 (dropna_In k _)).
        apply (proj2 (merged_keys d m (Some k) E)).
        rewrite <- Hk. now apply in_map.
      * now destruct k.
  - unfold agg_by_document. split.
    + intros [r [Hr Hk]]. apply in_map_iff in Hr.
      destruct Hr as [k' [<- Hin]]. simpl in Hk. subst k'.
      apply (proj1 (sorted_keys_In pyval_compare pyval_compare_eq _ _)) in Hin.
      apply (proj1 (dropna_In _ _)) in Hin.
      apply (proj1 (merged_docids d m _ E)) in Hin.
      apply in_map_iff in Hin. destruct Hin as [t [Hk Ht]]. eauto.
    + intros [t [Ht Hk]]. exists (doc_row m k). split; [|reflexivity].
      apply in_map.
      apply (proj2 (sorted_keys_In pyval_compare pyval_compare_eq k _)).
      apply (proj2 (dropna_In k _)).
      apply (proj2 (merged_docids d m (Some k) E)).
      rewrite <- Hk. now apply in_map.
Qed.

Lemma rows_are_the_groups_witness :
  (exists r, In r [mkSentRow (PyStr "d") (PyStr "1") 0 2 (Pd.to_float 0)]
             /\ (s_docid r, s_sentid r) = (PyStr "d", PyStr "1"))
  <-> (exists t, In t (remove_punct Cases.comma_head)
                 /\ group_key t = Some (PyStr "d", PyStr "1")).
Proof.
  apply (rows_are_the_groups Cases.comma_head true
           (BySentence [mkSentRow (PyStr "d") (PyStr "1") 0 2
                                  (Pd.to_float 0)])).
  vm_compute. reflexivity.
Defined.

(** ** The order of the rows *)

Lemma ascii_compare_lt_trans (a b c : ascii) :
  Ascii.compare a b = Lt -> Ascii.compare b c = Lt -> Ascii.compare a c = Lt.
Proof.
  unfold Ascii.compare. rewrite !N.compare_lt_iff. apply N.lt_trans.
Qed.

Lemma string_compare_lt_trans (a b c : string) :
  String.compare a b = Lt -> String.compare b c = Lt ->
  String.compare a c = Lt.
Proof.
  revert b c. induction a as [|x a IH]; intros [|y b] [|z c]; simpl;
    try discriminate; auto.
  destruct (Ascii.compare x y) eqn:Exy; try discriminate;
    destruct (Ascii.compare y z) eqn:Eyz; try discriminate; intros H1 H2.
  - apply Ascii.compare_eq_iff in Exy, Eyz. subst.
    assert (R : Ascii.compare z z = Eq).
    { unfold Ascii.compare. apply N.compare_refl. }
    rewrite R. eapply IH; eauto.
  - apply Ascii.compare_eq_iff in Exy. subst. now rewrite Eyz.
  - apply Ascii.compare_eq_iff in Eyz. subst. now rewrite Exy.
  - now rewrite (ascii_compare_lt_trans x y z Exy Eyz).
Qed.

Lemma pyval_compare_antisym (a b : pyval) :
  pyval_compare a b = CompOpp (pyval_compare b a).
Proof.
  destruct a, b; simpl; auto.
  - apply Z.compare_antisym.
  - apply String.compare_antisym.
Qed.

Lemma pyval_lt_trans (a b c : pyval) :
  pyval_lt a b -> pyval_lt b c -> pyval_lt a c.
Proof.
  unfold pyval_lt. destruct a, b, c; simpl; try discriminate; auto.
  - rewrite !Z.compare_lt_iff. apply Z.lt_trans.
  - apply string_compare_lt_trans.
Qed.

Lemma key_compare_antisym (a b : key) :
  key_compare a b = CompOpp (key_compare b a).
Proof.
  unfold key_compare. rewrite (pyval_compare_antisym (fst a) (fst b)).
  destruct (pyval_compare (fst b) (fst a)); simpl; auto.
  apply pyval_compare_antisym.
Qed.

Lemma key_lt_trans (a b c : key) : key_lt a b -> key_lt b c -> key_lt a c.
Proof.
  unfold key_lt, key_compare.
  destruct (pyval_compare (fst a) (fst b)) eqn:E1; try discriminate;
    destruct (pyval_compare (fst b) (fst c)) eqn:E2; try discriminate;
    intros H1 H2.
  - apply pyval_compare_eq in E1, E2. rewrite E1, E2, pyval_compare_refl.
    apply (pyval_lt_trans _ _ _ H1 H2).
  - apply pyval_compare_eq in E1. now rewrite E1, E2.
  - apply pyval_compare_eq in E2. now rewrite <- E2, E1.
  - now rewrite (pyval_lt_trans _ _ _ E1 E2).
Qed.

Section SortedInsert.
Context {K : Type} (cmp : K -> K -> comparison).
Hypothesis cmp_eq : forall a b, cmp a b = Eq -> a = b.
Hypothesis cmp_antisym : forall a b, cmp a b = CompOpp (cmp b a).
Hypothesis cmp_trans :
  forall a b c, cmp a b = Lt -> cmp b c = Lt -> cmp a c = Lt.

Lemma insert_key_sorted (k : K) (l : list K) :
  StronglySorted (fun a b => cmp a b = Lt) l ->
  StronglySorted (fun a b => cmp a b = Lt) (Pd.insert_key cmp k l).
Proof.
  induction 1 as [|h t Ht IH Hh]; simpl.
  - repeat constructor.
  - destruct (cmp k h) eqn:E.
    + now constructor.
    + constructor; [now constructor|]. constructor; auto.
      eapply Forall_impl; [|exact Hh]. intros x Hx. now apply (cmp_trans k h x).
    + constructor; auto. apply Forall_forall. intros x Hx.
      apply (insert_key_In cmp cmp_eq) in Hx. destruct Hx as [->|Hx].
      * rewrite cmp_antisym, E. reflexivity.
      * rewrite Forall_forall in Hh. now apply Hh.
Qed.

Lemma sorted_keys_sorted (l : list K) :
  StronglySorted (fun a b => cmp a b = Lt) (Pd.sorted_keys cmp l).
Proof.
  induction l as [|k l IH]; simpl; [constructor|].
  now apply insert_key_sorted.
Qed.

Lemma sorted_NoDup (l : list K) :
  StronglySorted (fun a b => cmp a b = Lt) l -> NoDup l.
Proof.
  induction 1 as [|h t Ht IH Hh]; constructor; auto.
  intro Hin. rewrite Forall_forall in Hh. specialize (Hh h Hin).
  pose proof (cmp_antisym h h) as A. rewrite Hh in A. discriminate.
Qed.

Lemma sorted_keys_NoDup (l : list K) : NoDup (Pd.sorted_keys cmp l).
Proof. apply sorted_NoDup, sorted_keys_sorted. Qed.
End SortedInsert.

Lemma sent_rows_keys (m : list MRow) (keys : list key) :
  map sent_key (map (sent_row m) keys) = keys.
Proof.
  rewrite map_map. induction keys as [|[k1 k2] t IH]; simpl; auto.
  now rewrite IH.
Qed.

Lemma doc_rows_keys (m : list MRow) (keys : list pyval) :
  map d_docid (map (doc_row m) keys) = keys.
Proof.
  rewrite map_map. change (map (fun x : pyval => x) keys = keys).
  apply map_id.
Qed.

(** X11. The rows of a returned frame are in strictly increasing order of
    their key (the pair (docid, sentid) by sentence, the docid by document;
    integers before strings, strings by code points), so no two rows have
    the same key: every sentence and every document has one row. *)
Theorem rows_are_sorted_by_key (d : DataFrame) (by_sentence : bool)
  (frame : AggFrame) :
  calc_mdd d by_sentence = Ok frame ->
  match frame with
  | BySentence rows =>
      StronglySorted key_lt (map sent_key rows)
      /\ NoDup (map sent_key rows)
  | ByDocument rows =>
      StronglySorted pyval_lt (map d_docid rows)
      /\ NoDup (map d_docid rows)
  end.
Proof.
  intro E. apply calc_mdd_inv in E. destruct E as [m [_ ->]].
  destruct by_sentence.
  - unfold agg_by_sentence. rewrite sent_rows_keys. split.
    + apply (sorted_keys_sorted key_compare key_compare_eq
               key_compare_antisym key_lt_trans).
    + apply (sorted_keys_NoDup key_compare key_compare_eq
               key_compare_antisym key_lt_trans).
  - unfold agg_by_document. rewrite doc_rows_keys. split.
    + apply (sorted_keys_sorted pyval_compare pyval_compare_eq
               pyval_compare_antisym pyval_lt_trans).
    + apply (sorted_keys_NoDup pyval_compare pyval_compare_eq
               pyval_compare_antisym pyval_lt_trans).
Qed.

Lemma rows_are_sorted_by_key_witness :
  exists rows,
    calc_mdd (table Cases.unsorted_sentences) true = Ok (BySentence rows)
    /\ map sent_key rows
       = [(PyStr "d", PyInt 2); (PyStr "d", PyStr "10"); (PyStr "d", PyStr "9")]
    /\ StronglySorted key_lt (map sent_key rows)
    /\ NoDup (map sent_key rows).
Proof.
  eexists. split; [vm_compute; reflexivity|].
  split; [reflexivity|].
  apply (rows_are_sorted_by_key (table Cases.unsorted_sentences) true
           (BySentence _)).
  vm_compute. reflexivity.
Defined.

(** ** Documents and their sentences *)

Lemma zsum_map_add {A : Type} (f g : A -> Z) (l : list A) :
  zsum (map (fun x => (f x + g x)%Z) l)
  = (zsum (map f l) + zsum (map g l))%Z.
Proof. induction l as [|x l IH]; simpl; auto. rewrite IH. lia. Qed.

Lemma zsum_zero {A : Type} (f : A -> Z) (l : list A) :
  (forall x, In x l -> f x = 0%Z) -> zsum (map f l) = 0%Z.
Proof.
  induction l as [|x l IH]; simpl; intro H; auto.
  rewrite (H x (or_introl eq_refl)), IH; auto.
Qed.

Lemma zsum_pick (k0 : key) (v : Z) (ks : list key) :
  NoDup ks -> In k0 ks ->
  zsum (map (fun k => if key_eqb k0 k then v else 0%Z) ks) = v.
Proof.
  induction 1 as [|k ks Hk Hnd IH]; simpl; [tauto|].
  intros [->|Hin].
  - rewrite key_eqb_refl, zsum_zero; [lia|].
    intros x Hx. destruct (key_eqb k0 x) eqn:E; auto.
    apply key_eqb_eq in E. subst. contradiction.
  - rewrite IH by assumption.
    destruct (key_eqb k0 k) eqn:E; [|lia].
    apply key_eqb_eq in E. subst. contradiction.
Qed.

Lemma sum_weights (g : list MRow) :
  Pd.sum (map dd g) = zsum (map dd_weight g).
Proof.
  unfold Pd.sum, zsum. induction g as [|x g IH]; simpl; auto.
  unfold dd_weight at 1. destruct (dd x); simpl; rewrite IH; lia.
Qed.

Lemma count_weights (g : list MRow) :
  Pd.count (map (fun r => token (tok (lhs r))) g)
  = zsum (map token_weight g).
Proof.
  unfold Pd.count. induction g as [|x g IH]; [reflexivity|].
  cbn [map zsum fold_right]. fold (zsum (map token_weight g)).
  rewrite <- IH. unfold token_weight.
  destruct (token (tok (lhs x))); cbn [Pd.dropna List.length]; lia.
Qed.

Lemma in_group_key (k : key) (x : MRow) :
  in_group k x = true <-> m_key x = Some k.
Proof. unfold in_group. apply opt_key_eqb_eq. Qed.

Lemma in_doc_docid (k : pyval) (x : MRow) :
  in_doc k x = true <-> m_docid x = Some k.
Proof. unfold in_doc. apply opt_pyval_eqb_eq. Qed.

Lemma m_key_docid (k : key) (x : MRow) :
  m_key x = Some k ->
  m_docid x = Some (fst k) /\ sentid (tok (lhs x)) = snd k.
Proof. apply group_key_docid. Qed.

Lemma m_docid_key (dk : pyval) (x : MRow) :
  m_docid x = Some dk -> m_key x = Some (dk, sentid (tok (lhs x))).
Proof. unfold m_docid, m_key, group_key. now intros ->. Qed.

(** A weight summed over the rows of a document is the sum, over its
    sentences, of the weight summed over the rows of the sentence. *)
Lemma weight_by_sentence (w : MRow -> Z) (dk : pyval) (ks : list key)
  (m : list MRow) :
  NoDup ks ->
  (forall k, In k ks -> fst k = dk) ->
  (forall x, In x m -> in_doc dk x = true ->
             exists k, In k ks /\ m_key x = Some k) ->
  zsum (map (fun k => zsum (map w (filter (in_group k) m))) ks)
  = zsum (map w (filter (in_doc dk) m)).
Proof.
  intros Hnd Hfst. induction m as [|x m IH]; intro Hcov; simpl.
  - apply zsum_zero. auto.
  - rewrite (map_ext _
      (fun k => ((if in_group k x then w x else 0)
                 + zsum (map w (filter (in_group k) m)))%Z)).
    2:{ intro k. destruct (in_group k x); simpl; lia. }
    rewrite zsum_map_add, IH by (intros y Hy; apply Hcov; now right).
    assert (P : zsum (map (fun k => if in_group k x then w x else 0%Z) ks)
                = if in_doc dk x then w x else 0%Z).
    { destruct (in_doc dk x) eqn:D.
      - destruct (Hcov x (or_introl eq_refl) D) as [k0 [Hk0 Hx]].
        rewrite (map_ext _ (fun k => if key_eqb k0 k then w x else 0%Z)).
        + now apply zsum_pick.
        + intro k. unfold in_group. now rewrite Hx.
      - apply zsum_zero. intros k Hk. destruct (in_group k x) eqn:G; auto.
        apply in_group_key, m_key_docid in G. destruct G as [G _].
        rewrite (Hfst k Hk) in G. apply in_doc_docid in G. congruence. }
    rewrite P. destruct (in_doc dk x); simpl; lia.
Qed.

Lemma unique_In (l : list pyval) (x : pyval) :
  In x (Pd.unique l) <-> In x l.
Proof.
  induction l as [|y l IH]; simpl; [tauto|].
  rewrite filter_In, IH. split.
  - intros [H|[H _]]; auto.
  - intros [H|H]; auto.
    destruct (pyval_eqb y x) eqn:E.
    + apply pyval_eqb_eq in E. auto.
    + right. auto.
Qed.

Lemma unique_NoDup (l : list pyval) : NoDup (Pd.unique l).
Proof.
  induction l as [|y l IH]; simpl; constructor.
  - rewrite filter_In. intros [_ H]. now rewrite pyval_eqb_refl in H.
  - now apply NoDup_filter.
Qed.

Lemma snd_NoDup (dk : pyval) (ks : list key) :
  NoDup ks -> (forall k, In k ks -> fst k = dk) -> NoDup (map snd ks).
Proof.
  induction 1 as [|k ks Hk Hnd IH]; simpl; intro H; constructor.
  - intro Hin. apply in_map_iff in Hin. destruct Hin as [k' [E Hk']].
    apply Hk. replace k with k'; auto.
    destruct k, k'. simpl in E. subst.
    pose proof (H _ (or_introl eq_refl)) as F1.
    pose proof (H _ (or_intror Hk')) as F2. simpl in *. congruence.
  - apply IH. auto.
Qed.

(** The keys of the rows returned by sentence, and those of one document. *)
Lemma rows_of_doc_keys (dk : pyval) (m : list MRow) :
  rows_of_doc dk (agg_by_sentence m)
  = map (sent_row m)
        (filter (fun k => pyval_eqb (fst k) dk)
                (Pd.sorted_keys key_compare (Pd.dropna (map m_key m)))).
Proof.
  unfold rows_of_doc, agg_by_sentence.
  rewrite <- (map_filter_comm (sent_row m)
                (fun r => pyval_eqb (s_docid r) dk)).
  reflexivity.
Qed.

Lemma doc_keys_facts (dk : pyval) (m : list MRow) :
  let ks := filter (fun k => pyval_eqb (fst k) dk)
                   (Pd.sorted_keys key_compare (Pd.dropna (map m_key m))) in
  NoDup ks
  /\ (forall k, In k ks -> fst k = dk)
  /\ (forall x, In x m -> in_doc dk x = true ->
                exists k, In k ks /\ m_key x = Some k).
Proof.
  intro ks. split; [|split].
  - apply NoDup_filter.
    apply (sorted_keys_NoDup key_compare key_compare_eq
             key_compare_antisym key_lt_trans).
  - intros k Hk. apply filter_In in Hk. destruct Hk as [_ Hk].
    now apply pyval_eqb_eq in Hk.
  - intros x Hx D. apply in_doc_docid, m_docid_key in D.
    exists (dk, sentid (tok (lhs x))). split; auto.
    apply filter_In. split; [|apply pyval_eqb_refl].
    apply (proj2 (sorted_keys_In key_compare key_compare_eq
                    (dk, sentid (tok (lhs x))) _)).
    apply (proj2 (dropna_In (dk, sentid (tok (lhs x))) _)).
    rewrite <- D. now apply in_map.
Qed.

Lemma doc_sentence_ids (dk : pyval) (m : list MRow) :
  Pd.nunique (map (fun r => sentid (tok (lhs r))) (filter (in_doc dk) m))
  = Z.of_nat
      (List.length
         (filter (fun k => pyval_eqb (fst k) dk)
                 (Pd.sorted_keys key_compare (Pd.dropna (map m_key m))))).
Proof.
  destruct (doc_keys_facts dk m) as [Hnd [Hfst Hcov]].
  set (ks := filter (fun k => pyval_eqb (fst k) dk)
               (Pd.sorted_keys key_compare (Pd.dropna (map m_key m)))) in *.
  unfold Pd.nunique. f_equal.
  rewrite <- (length_map snd ks). apply Permutation_length.
  apply NoDup_Permutation.
  - apply unique_NoDup.
  - now apply (snd_NoDup dk).
  - intro s. rewrite unique_In, !in_map_iff. split.
    + intros [x [Hs Hx]]. apply filter_In in Hx. destruct Hx as [Hx D].
      destruct (Hcov x Hx D) as [k [Hk Hkey]].
      exists k. split; auto.
      apply m_key_docid in Hkey. destruct Hkey as [_ Hkey]. congruence.
    + intros [k [Hs Hk]]. pose proof (Hfst k Hk) as F.
      unfold ks in Hk. apply filter_In in Hk. destruct Hk as [Hk _].
      apply (proj1 (sorted_keys_In key_compare key_compare_eq k _)) in Hk.
      apply (proj1 (dropna_In k _)) in Hk.
      apply in_map_iff in Hk. destruct Hk as [x [Hkey Hx]].
      exists x. apply m_key_docid in Hkey. destruct Hkey as [Hd Hsent].
      split; [congruence|]. apply filter_In. split; auto.
      apply in_doc_docid. congruence.
Qed.

Lemma zsum_map_pred (f : SentRow -> Z) (l : list SentRow) :
  zsum (map (fun r => (f r - 1)%Z) l)
  = (zsum (map f l) - Z.of_nat (List.length l))%Z.
Proof. induction l as [|x l IH]; simpl zsum; simpl List.length; lia. Qed.

(** The row of a document, from the rows of its sentences. *)
Lemma doc_row_from_sentences (dk : pyval) (m : list MRow) :
  d_sum_dd (doc_row m dk)
  = zsum (map s_sum_dd (rows_of_doc dk (agg_by_sentence m)))
  /\ d_n_tokens (doc_row m dk)
     = zsum (map s_n_tokens (rows_of_doc dk (agg_by_sentence m)))
  /\ d_n_sents (doc_row m dk)
     = Z.of_nat (List.length (rows_of_doc dk (agg_by_sentence m))).
Proof.
  destruct (doc_keys_facts dk m) as [Hnd [Hfst Hcov]].
  rewrite rows_of_doc_keys, !map_map, length_map.
  unfold doc_row, sent_row. cbn [d_sum_dd d_n_tokens d_n_sents
                                 s_sum_dd s_n_tokens].
  split; [|split].
  - rewrite sum_weights.
    rewrite <- (weight_by_sentence dd_weight dk _ m Hnd Hfst Hcov).
    f_equal. apply map_ext. intro k. symmetry. apply sum_weights.
  - rewrite count_weights.
    rewrite <- (weight_by_sentence token_weight dk _ m Hnd Hfst Hcov).
    f_equal. apply map_ext. intro k. symmetry. apply count_weights.
  - apply doc_sentence_ids.
Qed.

(** X12. The row of a document is made of the rows of its sentences: its
    sum_dd and its n_tokens are the sums of theirs, its n_sents is their
    number, and so its denominator n_tokens - n_sents is the sum of their
    denominators n_tokens - 1.  The document's mdd weights every token
    alike; it is not the mean of the sentences' mdd. *)
Theorem document_row_sums_sentence_rows
  (d : DataFrame) (srows : list SentRow) (drows : list DocRow) (r : DocRow) :
  calc_mdd d true = Ok (BySentence srows) ->
  calc_mdd d false = Ok (ByDocument drows) ->
  In r drows ->
  d_sum_dd r = zsum (map s_sum_dd (rows_of_doc (d_docid r) srows))
  /\ d_n_tokens r = zsum (map s_n_tokens (rows_of_doc (d_docid r) srows))
  /\ d_n_sents r = Z.of_nat (List.length (rows_of_doc (d_docid r) srows))
  /\ (d_n_tokens r - d_n_sents r)%Z
     = zsum (map (fun s => (s_n_tokens s - 1)%Z)
                 (rows_of_doc (d_docid r) srows)).
Proof.
  intros ES ED Hr.
  apply calc_mdd_inv in ES. destruct ES as [m [Em Hs]].
  apply calc_mdd_inv in ED. destruct ED as [m' [Em' Hd]].
  assert (m' = m) by congruence. subst m'.
  inversion Hs. inversion Hd. subst srows drows.
  unfold agg_by_document in Hr. apply in_map_iff in Hr.
  destruct Hr as [dk [<- _]].
  change (d_docid (doc_row m dk)) with dk.
  destruct (doc_row_from_sentences dk m) as [S [N C]].
  rewrite zsum_map_pred, <- N, <- C. auto.
Qed.

Lemma document_row_sums_sentence_rows_witness :
  d_sum_dd Cases.two_sentences_doc_row
  = zsum (map s_sum_dd
              (rows_of_doc (d_docid Cases.two_sentences_doc_row)
                           Cases.two_sentences_rows))
  /\ d_n_tokens Cases.two_sentences_doc_row
     = zsum (map s_n_tokens
                 (rows_of_doc (d_docid Cases.two_sentences_doc_row)
                              Cases.two_sentences_rows))
  /\ d_n_sents Cases.two_sentences_doc_row
     = Z.of_nat (List.length
                   (rows_of_doc (d_docid Cases.two_sentences_doc_row)
                                Cases.two_sentences_rows))
  /\ (d_n_tokens Cases.two_sentences_doc_row
      - d_n_sents Cases.two_sentences_doc_row)%Z
     = zsum (map (fun s => (s_n_tokens s - 1)%Z)
                 (rows_of_doc (d_docid Cases.two_sentences_doc_row)
                              Cases.two_sentences_rows)).
Proof.
  apply (document_row_sums_sentence_rows (table Cases.two_sentences)
           Cases.two_sentences_rows [Cases.two_sentences_doc_row]).
  - vm_compute. reflexivity.
  - vm_compute. reflexivity.
  - left. reflexivity.
Defined.

(** ** Bounds on the aggregates *)

Lemma zsum_nonneg {A : Type} (f : A -> Z) (l : list A) :
  (forall x, In x l -> (0 <= f x)%Z) -> (0 <= zsum (map f l))%Z.
Proof.
  induction l as [|x l IH]; intro H; [simpl; lia|].
  pose proof (H x (or_introl eq_refl)).
  assert (0 <= zsum (map f l))%Z by (apply IH; intros; apply H; now right).
  change (0 <= f x + zsum (map f l))%Z. lia.
Qed.

Lemma zsum_ge_length {A : Type} (f : A -> Z) (l : list A) :
  (forall x, In x l -> (1 <= f x)%Z) ->
  (Z.of_nat (List.length l) <= zsum (map f l))%Z.
Proof.
  induction l as [|x l IH]; intro H; [simpl; lia|].
  pose proof (H x (or_introl eq_refl)).
  assert (Z.of_nat (List.length l) <= zsum (map f l))%Z
    by (apply IH; intros; apply H; now right).
  change (Z.of_nat (S (List.length l)) <= f x + zsum (map f l))%Z. lia.
Qed.

Lemma dd_weight_nonneg (x : MRow) : (0 <= dd_weight x)%Z.
Proof.
  unfold dd_weight, dd. destruct (new_head x); [apply Z.abs_nonneg|lia].
Qed.

Lemma merged_tokens (d : DataFrame) (m : list MRow) (x : MRow) :
  merged d = Ok m -> In x m -> In (tok (lhs x)) (remove_punct d).
Proof.
  intros E Hx. apply merged_inv in E. destruct E as [R [_ [T ->]]].
  apply merge_left_In in Hx. destruct Hx as [Hx _].
  rewrite <- T. now apply in_map.
Qed.

Lemma sent_row_bounds (m : list MRow) (r : SentRow) :
  (forall x, In x m -> token (tok (lhs x)) <> None) ->
  In r (agg_by_sentence m) ->
  (0 <= s_sum_dd r)%Z /\ (1 <= s_n_tokens r)%Z.
Proof.
  intros Htok Hr. unfold agg_by_sentence in Hr. apply in_map_iff in Hr.
  destruct Hr as [k [<- Hk]].
  apply (proj1 (sorted_keys_In key_compare key_compare_eq k _)) in Hk.
  apply (proj1 (dropna_In k _)) in Hk.
  apply (proj1 (key_in_merged k m)) in Hk. destruct Hk as [x Hx].
  unfold sent_row. cbn [s_sum_dd s_n_tokens].
  rewrite sum_weights, count_weights. split.
  - apply zsum_nonneg. intros y _. apply dd_weight_nonneg.
  - assert (L : (Z.of_nat (List.length (filter (in_group k) m))
                 <= zsum (map token_weight (filter (in_group k) m)))%Z).
    { apply zsum_ge_length. intros y Hy. apply filter_In in Hy.
      destruct Hy as [Hy _]. unfold token_weight.
      destruct (token (tok (lhs y))) eqn:E; [lia|].
      now apply Htok in Hy. }
    destruct (filter (in_group k) m); [destruct Hx|]. simpl List.length in L.
    lia.
Qed.

(** X13. On a table whose retained rows all have a [token] cell, every
    returned row has a sum_dd that is not negative and counts at least one
    token; a row by document counts at least one sentence and at least as
    many tokens as sentences.  So neither denominator, n_tokens - 1 nor
    n_tokens - n_sents, is ever negative. *)
Theorem aggregates_are_bounded (d : DataFrame) (by_sentence : bool)
  (frame : AggFrame) :
  (forall t, In t (remove_punct d) -> token t <> None) ->
  calc_mdd d by_sentence = Ok frame ->
  match frame with
  | BySentence rows =>
      forall r, In r rows ->
        (0 <= s_sum_dd r)%Z /\ (0 <= s_n_tokens r - 1)%Z
  | ByDocument rows =>
      forall r, In r rows ->
        (0 <= d_sum_dd r)%Z /\ (1 <= d_n_sents r)%Z
        /\ (0 <= d_n_tokens r - d_n_sents r)%Z
  end.
Proof.
  intros Htok E. apply calc_mdd_inv in E. destruct E as [m [Em ->]].
  assert (Hm : forall x, In x m -> token (tok (lhs x)) <> None).
  { intros x Hx. apply Htok. now apply (merged_tokens d m). }
  destruct by_sentence; intros r Hr.
  - destruct (sent_row_bounds m r Hm Hr). split; lia.
  - unfold agg_by_document in Hr. apply in_map_iff in Hr.
    destruct Hr as [dk [<- Hk]].
    destruct (doc_row_from_sentences dk m) as [S [N C]].
    rewrite S, N, C.
    assert (B : forall s, In s (rows_of_doc dk (agg_by_sentence m)) ->
                          (0 <= s_sum_dd s)%Z /\ (1 <= s_n_tokens s)%Z).
    { intros s Hs. unfold rows_of_doc in Hs. apply filter_In in Hs.
      apply (sent_row_bounds m s Hm). tauto. }
    split; [apply zsum_nonneg; intros s Hs; now apply B|].
    split.
    + apply (proj1 (sorted_keys_In pyval_compare pyval_compare_eq dk _)) in Hk.
      apply (proj1 (dropna_In dk _)) in Hk.
      apply in_map_iff in Hk. destruct Hk as [x [Hd Hx]].
      destruct (doc_keys_facts dk m) as [_ [_ Hcov]].
      destruct (Hcov x Hx (proj2 (in_doc_docid dk x) Hd)) as [k [Hin _]].
      rewrite rows_of_doc_keys, length_map.
      destruct (filter _ _); [destruct Hin|]. simpl List.length. lia.
    + pose proof (zsum_ge_length s_n_tokens
                    (rows_of_doc dk (agg_by_sentence m))
                    (fun s Hs => proj2 (B s Hs))). lia.
Qed.

Lemma aggregates_are_bounded_witness :
  (0 <= d_sum_dd Cases.two_sentences_doc_row)%Z
  /\ (1 <= d_n_sents Cases.two_sentences_doc_row)%Z
  /\ (0 <= d_n_tokens Cases.two_sentences_doc_row
          - d_n_sents Cases.two_sentences_doc_row)%Z.
Proof.
  refine (aggregates_are_bounded (table Cases.two_sentences) false
            (ByDocument [Cases.two_sentences_doc_row]) _ _
            Cases.two_sentences_doc_row (or_introl eq_refl)).
  - vm_compute. intros t H.
    repeat (destruct H as [<-|H]; [discriminate|]). destruct H.
  - vm_compute. reflexivity.
Defined.

(** ** The head of a token after the join *)

Lemma reindex_tok (d : DataFrame) (R : list IRow) :
  reindex d = Ok R -> map tok R = remove_punct d.
Proof.
  intro E. destruct (reindex_ok d (reindex_has_docid d R E)) as [R' [E' [T _]]].
  congruence.
Qed.

Lemma at_most_one {A : Type} (l : list A) (x : A) :
  List.length l <= 1 -> In x l -> l = [x].
Proof.
  destruct l as [|y [|z l]]; simpl; intros L H; try tauto; try lia.
  destruct H as [->|[]]. reflexivity.
Qed.

Lemma join_row_matched (R : list IRow) (x y : IRow) :
  NoDup (map index_key (map tok R)) ->
  In y R ->
  docid (tok x) = docid (tok y) ->
  sentid (tok x) = sentid (tok y) ->
  head (tok x) = id (tok y) ->
  join_row (make_ref R) x = [mkMRow x (Some (new_id y))].
Proof.
  intros Hnd Hy Hd Hs Hh. unfold join_row.
  set (f := mkRefRow (docid (tok y)) (sentid (tok y)) (id (tok y)) (new_id y)).
  assert (Hf : In f (filter (on_keys x) (make_ref R))).
  { apply filter_In. split.
    - unfold make_ref. apply in_map_iff. exists y. auto.
    - apply on_keys_true. simpl. auto. }
  rewrite (at_most_one _ f (unique_match x R Hnd) Hf). reflexivity.
Qed.

(** X14. With unique indices, a retained token whose head is the index of
    a retained token of its sentence has exactly one row in the merged
    frame; its [new_head] is the [new_id] of that head, and its [dd] is the
    distance between the two new indices. *)
Theorem head_gets_new_id_of_head_token
  (d : DataFrame) (R : list IRow) (x y : IRow) :
  reindex d = Ok R ->
  unique_ids d ->
  In x R -> In y R ->
  docid (tok x) = docid (tok y) ->
  sentid (tok x) = sentid (tok y) ->
  head (tok x) = id (tok y) ->
  exists m,
    merged d = Ok m
    /\ In (mkMRow x (Some (new_id y))) m
    /\ (forall r, In r m -> lhs r = x ->
          r = mkMRow x (Some (new_id y))
          /\ dd r = Some (Z.abs (new_id y - new_id x))).
Proof.
  intros E Hu Hx Hy Hd Hs Hh.
  pose proof (reindex_tok d R E) as T.
  unfold unique_ids in Hu. rewrite <- T in Hu.
  pose proof (join_row_matched R x y Hu Hy Hd Hs Hh) as J.
  exists (merge_left R (make_ref R)).
  split; [unfold merged; now rewrite E|]. split.
  - unfold merge_left. apply in_flat_map. exists x. split; auto.
    rewrite J. now left.
  - intros r Hr Hl. apply merge_left_In in Hr. destruct Hr as [_ Hr].
    rewrite Hl, J in Hr. destruct Hr as [<-|[]]. split; reflexivity.
Qed.

Lemma head_gets_new_id_of_head_token_witness :
  exists m,
    merged Cases.without_comma = Ok m
    /\ In (mkMRow (mkIRow (Cases.word "d" "1" "1" "well" "INTJ" "2") 1)
                  (Some 2%Z)) m
    /\ (forall r, In r m ->
          lhs r = mkIRow (Cases.word "d" "1" "1" "well" "INTJ" "2") 1 ->
          r = mkMRow (mkIRow (Cases.word "d" "1" "1" "well" "INTJ" "2") 1)
                     (Some 2%Z)
          /\ dd r = Some (Z.abs (2 - 1))).
Proof.
  apply (head_gets_new_id_of_head_token Cases.without_comma
           [mkIRow (Cases.word "d" "1" "1" "well" "INTJ" "2") 1;
            mkIRow (Cases.word "d" "1" "2" "go" "VERB" "0") 2]
           (mkIRow (Cases.word "d" "1" "1" "well" "INTJ" "2") 1)
           (mkIRow (Cases.word "d" "1" "2" "go" "VERB" "0") 2)).
  - vm_compute. reflexivity.
  - unfold unique_ids. simpl.
    repeat constructor; simpl; intuition discriminate.
  - left. reflexivity.
  - right. left. reflexivity.
  - reflexivity.
  - reflexivity.
  - reflexivity.
Defined.

(** ** Distances inside a sentence *)

Lemma merged_sentence (D : sentences) (k : key) (s : list Token) :
  well_formed D -> In (k, s) D ->
  filter (in_group k)
         (merge_left (flat_map (fun ks => number (remove_punct (snd ks))) D)
            (make_ref (flat_map (fun ks => number (remove_punct (snd ks))) D)))
  = merge_left (number (remove_punct s)) (make_ref (number (remove_punct s))).
Proof.
  intros HD Hin.
  rewrite merge_group, (reindexed_group D k HD),
    (group_rows_sentence D k s HD Hin).
  reflexivity.
Qed.

Lemma range1_In (n : nat) (z : Z) :
  In z (range1 n) -> (1 <= z <= Z.of_nat n)%Z.
Proof.
  unfold range1. rewrite in_map_iff. intros [i [<- Hi]].
  apply in_seq in Hi. lia.
Qed.

Lemma number_new_id_bounds (l : list Token) (x : IRow) :
  In x (number l) -> (1 <= new_id x <= Z.of_nat (List.length l))%Z.
Proof.
  intro H. apply range1_In. rewrite <- number_new_id. now apply in_map.
Qed.

Lemma join_row_new_head (ref : list RefRow) (x : IRow) (r : MRow) (h : Z) :
  In r (join_row ref x) -> new_head r = Some h ->
  exists f, In f ref /\ ref_new_head f = h.
Proof.
  unfold join_row. destruct (filter (on_keys x) ref) as [|f fs] eqn:F.
  - intros [<-|[]]. discriminate.
  - intro H. apply in_map_iff in H. destruct H as [g [<- Hg]]. simpl.
    intro E. inversion E. exists g. split; auto.
    assert (In g (filter (on_keys x) ref)) by now rewrite F.
    apply filter_In in H. tauto.
Qed.

(** X15. In a table made of whole sentences, each with its own key, the
    new index of a token and the new index of its head, when it has one,
    lie between 1 and the number k of retained tokens of the sentence, and
    its dependency distance is at most k - 1. *)
Theorem distances_stay_inside_the_sentence
  (D : sentences) (k : key) (s : list Token) :
  well_formed D ->
  In (k, s) D ->
  exists m,
    merged (table D) = Ok m
    /\ forall r, In r m -> m_key r = Some k ->
         (1 <= new_id (lhs r) <= Z.of_nat (List.length (remove_punct s)))%Z
         /\ (forall h, new_head r = Some h ->
               (1 <= h <= Z.of_nat (List.length (remove_punct s)))%Z)
         /\ (forall v, dd r = Some v ->
               (0 <= v <= Z.of_nat (List.length (remove_punct s)) - 1)%Z).
Proof.
  intros HD Hin.
  set (RD := flat_map (fun ks => number (remove_punct (snd ks))) D).
  exists (merge_left RD (make_ref RD)).
  split; [unfold merged; now rewrite (reindex_blocks D HD)|].
  intros r Hr Hk.
  assert (Hg : In r (filter (in_group k) (merge_left RD (make_ref RD)))).
  { apply filter_In. split; auto. now apply in_group_key. }
  unfold RD in Hg. rewrite (merged_sentence D k s HD Hin) in Hg.
  apply merge_left_In in Hg. destruct Hg as [Hl Hj].
  pose proof (number_new_id_bounds _ _ Hl) as B.
  assert (H : forall h, new_head r = Some h ->
                (1 <= h <= Z.of_nat (List.length (remove_punct s)))%Z).
  { intros h Hh. destruct (join_row_new_head _ _ r h Hj Hh) as [f [Hf <-]].
    apply make_ref_In in Hf. destruct Hf as [y [Hy [_ [_ [_ ->]]]]].
    now apply number_new_id_bounds. }
  split; auto. split; auto.
  intros v Hv. unfold dd in Hv.
  destruct (new_head r) as [h|] eqn:Eh; [|discriminate].
  inversion Hv. specialize (H h eq_refl). lia.
Qed.

Lemma distances_stay_inside_the_sentence_witness :
  exists m,
    merged (table Cases.two_sentences) = Ok m
    /\ forall r, In r m -> m_key r = Some (PyStr "d", PyStr "2") ->
         (1 <= new_id (lhs r)
          <= Z.of_nat (List.length (remove_punct Cases.second)))%Z
         /\ (forall h, new_head r = Some h ->
               (1 <= h <= Z.of_nat (List.length (remove_punct Cases.second)))%Z)
         /\ (forall v, dd r = Some v ->
               (0 <= v
                <= Z.of_nat (List.length (remove_punct Cases.second)) - 1)%Z).
Proof.
  apply (distances_stay_inside_the_sentence Cases.two_sentences
           (PyStr "d", PyStr "2") Cases.second).
  - split.
    + repeat constructor; simpl; intuition discriminate.
    + repeat constructor.
  - right. left. reflexivity.
Defined.

(** ** Selecting a sentence by its identifier *)

Lemma block_sentid (k : key) (l : list Token) :
  Forall (fun t => group_key t = Some k) l ->
  Forall (fun t => sentid t = snd k) l.
Proof.
  intro H. eapply Forall_impl; [|exact H].
  intros t Ht. now apply group_key_docid in Ht.
Qed.

(** X16. In the table of one document made of whole sentences, each with
    its own identifier, the rows whose [sentid] is that of a sentence are
    the rows of that sentence, punctuation included, in order: the selection
    [doc_df[doc_df.sentid == s]] takes the sentence out of the document. *)
Theorem select_sentid_is_the_sentence
  (D : sentences) (dk : pyval) (k : key) (s : list Token) :
  well_formed D ->
  (forall ks, In ks D -> fst (fst ks) = dk) ->
  In (k, s) D ->
  select_sentid (snd k) (table D) = s.
Proof.
  unfold select_sentid, table.
  induction D as [|[k' s'] D IH]; intros [Hnd Hbl] Hdoc Hin; [destruct Hin|].
  inversion Hnd as [|? ? Hk Hnd']. subst.
  inversion Hbl as [|? ? Hs Hbl']. subst. simpl in Hs.
  simpl. rewrite filter_app.
  destruct Hin as [Heq|Hin'].
  - inversion Heq. subst k' s'.
    rewrite (filter_all _ s).
    2:{ eapply Forall_impl; [|apply (block_sentid k s Hs)].
        intros t Ht. simpl in Ht. rewrite Ht. apply pyval_eqb_refl. }
    rewrite (filter_none _ (flat_map snd D)); [apply app_nil_r|].
    apply Forall_forall. intros t Ht. apply in_flat_map in Ht.
    destruct Ht as [[k2 s2] [H2 Ht]]. simpl in Ht.
    assert (Hne : k2 <> k).
    { intros ->. apply Hk. apply in_map_iff. exists (k, s2). auto. }
    rewrite Forall_forall in Hbl'. specialize (Hbl' _ H2). simpl in Hbl'.
    pose proof (block_sentid k2 s2 Hbl') as Hsid.
    rewrite Forall_forall in Hsid. rewrite (Hsid t Ht).
    destruct (pyval_eqb (snd k2) (snd k)) eqn:E; auto.
    apply pyval_eqb_eq in E. exfalso. apply Hne.
    pose proof (Hdoc (k2, s2) (or_intror H2)) as F2.
    pose proof (Hdoc (k, s) (or_introl eq_refl)) as F1. simpl in F1, F2.
    destruct k2, k. simpl in *. congruence.
  - assert (Hne : k' <> k).
    { intros ->. apply Hk. apply in_map_iff. exists (k, s). auto. }
    rewrite (filter_none _ s').
    + simpl. apply IH; [split; auto| |auto].
      intros ks Hks. apply Hdoc. now right.
    + eapply Forall_impl; [|apply (block_sentid k' s' Hs)].
      intros t Ht. simpl in Ht. rewrite Ht.
      destruct (pyval_eqb (snd k') (snd k)) eqn:E; auto.
      apply pyval_eqb_eq in E. exfalso. apply Hne.
      pose proof (Hdoc (k', s') (or_introl eq_refl)) as F2.
      pose proof (Hdoc (k, s) (or_intror Hin')) as F1. simpl in F1, F2.
      destruct k', k. simpl in *. congruence.
Qed.

Lemma select_sentid_is_the_sentence_witness :
  select_sentid (PyStr "2") (table Cases.two_sentences) = Cases.second.
Proof.
  apply (select_sentid_is_the_sentence Cases.two_sentences (PyStr "d")
           (PyStr "d", PyStr "2") Cases.second).
  - split.
    + repeat constructor; simpl; intuition discriminate.
    + repeat constructor.
  - intros ks [<-|[<-|[]]]; reflexivity.
  - right. left. reflexivity.
Defined.

(** * The returned rows in terms of the retained tokens *)

(** ** The merged frame when the indices are unique *)

Lemma find_filter {A : Type} (p : A -> bool) (l : list A) :
  find p l = match filter p l with
             | [] => None
             | y :: _ => Some y
             end.
Proof.
  induction l as [|x l IH]; simpl; auto. destruct (p x); auto.
Qed.

Lemma matches_are_head_tokens (R : list IRow) (x : IRow) :
  filter (on_keys x) (make_ref R) = make_ref (filter (head_index_of x) R).
Proof.
  induction R as [|y R IH]; simpl; auto.
  change (on_keys x (mkRefRow (docid (tok y)) (sentid (tok y)) (id (tok y))
                              (new_id y)))
    with (head_index_of x y).
  destruct (head_index_of x y); simpl; now rewrite IH.
Qed.

(** With unique indices the join gives a token the one row that carries
    the new index of its head. *)
Lemma join_row_by_token (R : list IRow) (x : IRow) :
  NoDup (map index_key (map tok R)) ->
  join_row (make_ref R) x = [mkMRow x (new_head_of R x)].
Proof.
  intro H. pose proof (unique_match x R H) as L.
  unfold join_row, new_head_of, head_token.
  rewrite find_filter. rewrite matches_are_head_tokens in *.
  destruct (filter (head_index_of x) R) as [|y [|z l]]; simpl in *;
    try reflexivity. lia.
Qed.

Lemma merged_by_token (R : list IRow) :
  NoDup (map index_key (map tok R)) ->
  merge_left R (make_ref R) = map (fun x => mkMRow x (new_head_of R x)) R.
Proof.
  intro H. unfold merge_left.
  assert (G : forall R',
             flat_map (join_row (make_ref R)) R'
             = map (fun x => mkMRow x (new_head_of R x)) R').
  { induction R' as [|x R' IH]; simpl; auto.
    now rewrite (join_row_by_token R x H), IH. }
  apply G.
Qed.

Lemma filter_map_rows {A B : Type} (p : B -> bool) (q : A -> bool)
  (g : A -> B) (l : list A) :
  (forall x, p (g x) = q x) -> filter p (map g l) = map g (filter q l).
Proof.
  intro H. induction l as [|x l IH]; simpl; auto.
  rewrite H. destruct (q x); simpl; now rewrite IH.
Qed.

Lemma count_present {A : Type} (l : list (option A)) :
  ~ In None l -> Pd.count l = Z.of_nat (List.length l).
Proof.
  intro H. unfold Pd.count. f_equal. now apply dropna_length_full.
Qed.

Lemma reindexed_group_rows (d : DataFrame) (R : list IRow) (k : key) :
  map tok R = remove_punct d ->
  map tok (filter (i_in_group k) R) = group_rows k d.
Proof.
  intro T. unfold group_rows. rewrite <- T.
  apply (map_filter_comm tok
           (fun t => opt_eqb key_eqb (group_key t) (Some k))).
Qed.

Lemma reindexed_doc_rows (d : DataFrame) (R : list IRow) (k : pyval) :
  map tok R = remove_punct d ->
  map tok (filter (i_in_doc k) R) = doc_rows_kept k d.
Proof.
  intro T. unfold doc_rows_kept. rewrite <- T.
  apply (map_filter_comm tok
           (fun t => opt_eqb pyval_eqb (docid t) (Some k))).
Qed.

(** The rows of a sentence in the merged frame, from its retained tokens. *)
Lemma sentence_by_token (d : DataFrame) (R : list IRow) (k : key) :
  map tok R = remove_punct d ->
  unique_ids d ->
  let M := merge_left R (make_ref R) in
  filter (in_group k) M
  = map (fun x => mkMRow x (new_head_of R x)) (filter (i_in_group k) R)
  /\ Pd.sum (map dd (filter (in_group k) M))
     = zsum (map (token_distance R) (filter (i_in_group k) R))
  /\ Pd.count (map (fun r => token (tok (lhs r))) (filter (in_group k) M))
     = Pd.count (map token (group_rows k d)).
Proof.
  intros T Hu M. unfold unique_ids in Hu. rewrite <- T in Hu.
  assert (F : filter (in_group k) M
              = map (fun x => mkMRow x (new_head_of R x))
                    (filter (i_in_group k) R)).
  { unfold M. rewrite (merged_by_token R Hu).
    apply filter_map_rows. reflexivity. }
  split; [exact F|]. rewrite F. split.
  - rewrite sum_weights, map_map. reflexivity.
  - rewrite <- (reindexed_group_rows d R k T), !map_map. reflexivity.
Qed.

(** The rows of a document in the merged frame, from its retained tokens. *)
Lemma document_by_token (d : DataFrame) (R : list IRow) (k : pyval) :
  map tok R = remove_punct d ->
  unique_ids d ->
  let M := merge_left R (make_ref R) in
  filter (in_doc k) M
  = map (fun x => mkMRow x (new_head_of R x)) (filter (i_in_doc k) R)
  /\ Pd.sum (map dd (filter (in_doc k) M))
     = zsum (map (token_distance R) (filter (i_in_doc k) R))
  /\ Pd.count (map (fun r => token (tok (lhs r))) (filter (in_doc k) M))
     = Pd.count (map token (doc_rows_kept k d))
  /\ Pd.nunique (map (fun r => sentid (tok (lhs r))) (filter (in_doc k) M))
     = Pd.nunique (map sentid (doc_rows_kept k d)).
Proof.
  intros T Hu M. unfold unique_ids in Hu. rewrite <- T in Hu.
  assert (F : filter (in_doc k) M
              = map (fun x => mkMRow x (new_head_of R x))
                    (filter (i_in_doc k) R)).
  { unfold M. rewrite (merged_by_token R Hu).
    apply filter_map_rows. reflexivity. }
  split; [exact F|]. rewrite F. split; [|split].
  - rewrite sum_weights, map_map. reflexivity.
  - rewrite <- (reindexed_doc_rows d R k T), !map_map. reflexivity.
  - rewrite <- (reindexed_doc_rows d R k T), !map_map. reflexivity.
Qed.

Lemma tokens_present_count (d : DataFrame) (l : list Token) :
  tokens_present d -> (forall t, In t l -> In t (remove_punct d)) ->
  Pd.count (map token l) = Z.of_nat (List.length l).
Proof.
  intros H Hl. rewrite count_present; [now rewrite length_map|].
  intro Hin. apply in_map_iff in Hin. destruct Hin as [t [Ht Hin]].
  exact (H t (Hl t Hin) Ht).
Qed.

Lemma find_doc_row_map (k : pyval) (m : list MRow) (keys : list pyval) :
  find_doc_row k (map (doc_row m) keys)
  = if existsb (fun x => pyval_eqb x k) keys then Some (doc_row m k) else None.
Proof.
  unfold find_doc_row. induction keys as [|x t IH]; simpl; auto.
  destruct (pyval_eqb x k) eqn:E; simpl; auto.
  apply pyval_eqb_eq in E. now subst.
Qed.

(** The row of a document in the frame returned by document. *)
Lemma find_doc_row_agg (k : pyval) (m : list MRow) :
  find_doc_row k (agg_by_document m)
  = match filter (in_doc k) m with
    | [] => None
    | _ :: _ => Some (doc_row m k)
    end.
Proof.
  unfold agg_by_document. rewrite find_doc_row_map.
  destruct (existsb _ _) eqn:E.
  - apply existsb_exists in E. destruct E as [x [Hx Hk]].
    apply pyval_eqb_eq in Hk. subst x.
    apply (proj1 (sorted_keys_In pyval_compare pyval_compare_eq k _)) in Hx.
    apply (proj1 (dropna_In k _)) in Hx.
    apply in_map_iff in Hx. destruct Hx as [r [Hd Hr]].
    assert (In r (filter (in_doc k) m)).
    { apply filter_In. split; auto. now apply in_doc_docid. }
    destruct (filter (in_doc k) m); [contradiction|reflexivity].
  - destruct (filter (in_doc k) m) as [|r g] eqn:F; auto.
    assert (Hr : In r (filter (in_doc k) m)) by (rewrite F; now left).
    apply filter_In in Hr. destruct Hr as [Hr Hd].
    apply in_doc_docid in Hd.
    assert (H : In (Some k) (map m_docid m)).
    { rewrite <- Hd. now apply in_map. }
    apply (proj2 (dropna_In k _)) in H.
    apply (proj2 (sorted_keys_In pyval_compare pyval_compare_eq k _)) in H.
    assert (existsb (fun x => pyval_eqb x k)
              (Pd.sorted_keys pyval_compare (Pd.dropna (map m_docid m)))
            = true).
    { apply existsb_exists. exists k. split; auto. apply pyval_eqb_refl. }
    congruence.
Qed.

Lemma map_nonempty {A B : Type} (f : A -> B) (l : list A) :
  map f l <> [] -> l <> [].
Proof. destruct l; simpl; congruence. Qed.

(** ** The frames that [calc_mdd] returns *)

Lemma calc_mdd_frames (d : DataFrame) (M : list MRow) :
  merged d = Ok M ->
  calc_mdd d true = Ok (BySentence (agg_by_sentence M))
  /\ calc_mdd d false = Ok (ByDocument (agg_by_document M)).
Proof. intro E. unfold calc_mdd. rewrite E. split; reflexivity. Qed.

Lemma find_sent_row_present (k : key) (M : list MRow) (r : MRow) :
  In r M -> m_key r = Some k ->
  find_sent_row k (agg_by_sentence M) = Some (sent_row M k).
Proof.
  intros Hr Hk. rewrite find_sent_row_agg.
  assert (In r (filter (in_group k) M)).
  { apply filter_In. split; auto. now apply in_group_key. }
  destruct (filter (in_group k) M); [contradiction|reflexivity].
Qed.

Lemma find_doc_row_present (k : pyval) (M : list MRow) (r : MRow) :
  In r M -> m_docid r = Some k ->
  find_doc_row k (agg_by_document M) = Some (doc_row M k).
Proof.
  intros Hr Hk. rewrite find_doc_row_agg.
  assert (In r (filter (in_doc k) M)).
  { apply filter_In. split; auto. now apply in_doc_docid. }
  destruct (filter (in_doc k) M); [contradiction|reflexivity].
Qed.

(** In a table that [parse_conll] returns the cells of a row are filled
    from the left: a row that has a [head] cell has a [token] cell. *)
Lemma parsed_head_has_token (conll : string) (df : DataFrame) (t : Token) :
  parse_conll conll = Ok df -> In t df -> head t <> None -> token t <> None.
Proof.
  intros P Hin Hh. destruct (parse_ok_inv conll df P) as [st [_ ->]].
  apply in_map_iff in Hin. destruct Hin as [[[c s] f] [<- _]].
  simpl in *. destruct f as [|f0 [|f1 f]]; simpl in *;
    [now elim Hh | now elim Hh | discriminate].
Qed.

(** C5. A retained token whose head is the index of no retained token of
    its sentence (as when the head was punctuation and was filtered out)
    does not make [calc_mdd] raise.  Its row of the merged frame has no
    [new_head] and no [dd].  In the frames that [calc_mdd] returns, the row
    of its sentence and the row of its document have the sum_dd of the other
    rows of the merged frame, to which the token adds nothing, and an
    n_tokens that is their count plus one, for the token.  The token is a
    row with a [token] cell, which n_tokens counts; every parsed row that
    names a head is one ([parsed_head_has_token]). *)
Theorem dangling_head_counted_not_summed
  (d : DataFrame) (t : Token) (k : key) :
  has_docid (remove_punct d) ->
  In t (remove_punct d) ->
  group_key t = Some k ->
  token t <> None ->
  (forall u, In u (remove_punct d) -> group_key u = Some k ->
             id u <> head t) ->
  exists srows drows sr dr m1 r m2,
    calc_mdd d true = Ok (BySentence srows)
    /\ calc_mdd d false = Ok (ByDocument drows)
    /\ find_sent_row k srows = Some sr
    /\ find_doc_row (fst k) drows = Some dr
    /\ merged d = Ok (m1 ++ r :: m2)
    /\ tok (lhs r) = t
    /\ new_head r = None
    /\ dd r = None
    /\ s_sum_dd sr = Pd.sum (map dd (filter (in_group k) (m1 ++ m2)))
    /\ s_n_tokens sr
       = (Pd.count (map (fun x => token (tok (lhs x)))
                        (filter (in_group k) (m1 ++ m2))) + 1)%Z
    /\ d_sum_dd dr = Pd.sum (map dd (filter (in_doc (fst k)) (m1 ++ m2)))
    /\ d_n_tokens dr
       = (Pd.count (map (fun x => token (tok (lhs x)))
                        (filter (in_doc (fst k)) (m1 ++ m2))) + 1)%Z.
Proof.
  intros Hdoc Hin Hk Htok Hdangling.
  destruct (merged_ok d Hdoc) as [R [_ [T E]]].
  destruct (in_split _ _ Hin) as [l1 [l2 Hs]].
  rewrite Hs in T. destruct (map_tok_split R l1 l2 t T) as [R1 [x [R2 [HR Hx]]]].
  assert (J : join_row (make_ref R) x = [mkMRow x None]).
  { apply join_row_unmatched, dangling_unmatched.
    intros u Hu Hku. rewrite Hx. apply Hdangling.
    - rewrite Hs, <- T. now apply in_map.
    - rewrite Hku, Hx. exact Hk. }
  set (m1 := merge_left R1 (make_ref R)).
  set (m2 := merge_left R2 (make_ref R)).
  set (r := mkMRow x None).
  assert (M : merge_left R (make_ref R) = m1 ++ r :: m2).
  { rewrite HR at 1. rewrite merge_left_app.
    change (x :: R2) with ([x] ++ R2). rewrite merge_left_app.
    unfold merge_left at 2. simpl flat_map. rewrite app_nil_r, J.
    reflexivity. }
  rewrite M in E.
  destruct (calc_mdd_frames d _ E) as [ES ED].
  destruct (group_key_docid t k Hk) as [Hd _].
  assert (Kr : m_key r = Some k) by (unfold m_key; simpl; now rewrite Hx).
  assert (Dr : m_docid r = Some (fst k)) by (unfold m_docid; simpl; now rewrite Hx).
  assert (Tr : token (tok (lhs r)) <> None) by (simpl; now rewrite Hx).
  assert (Ir : In r (m1 ++ r :: m2)) by (apply in_or_app; right; now left).
  destruct (sent_row_insert m1 m2 r k Kr eq_refl Tr) as [S1 S2].
  destruct (doc_row_insert m1 m2 r (fst k) Dr eq_refl Tr) as [D1 D2].
  exists (agg_by_sentence (m1 ++ r :: m2)), (agg_by_document (m1 ++ r :: m2)),
         (sent_row (m1 ++ r :: m2) k), (doc_row (m1 ++ r :: m2) (fst k)),
         m1, r, m2.
  split; [exact ES|]. split; [exact ED|].
  split; [exact (find_sent_row_present k _ r Ir Kr)|].
  split; [exact (find_doc_row_present (fst k) _ r Ir Dr)|].
  split; [exact E|]. split; [exact Hx|].
  split; [reflexivity|]. split; [reflexivity|].
  split; [exact S1|]. split; [exact S2|]. split; [exact D1|exact D2].
Qed.

Lemma dangling_head_counted_not_summed_witness :
  exists srows drows sr dr m1 r m2,
    calc_mdd Cases.comma_head true = Ok (BySentence srows)
    /\ calc_mdd Cases.comma_head false = Ok (ByDocument drows)
    /\ find_sent_row (PyStr "d", PyStr "1") srows = Some sr
    /\ find_doc_row (PyStr "d") drows = Some dr
    /\ merged Cases.comma_head = Ok (m1 ++ r :: m2)
    /\ tok (lhs r) = Cases.word "d" "1" "1" "well" "INTJ" "2"
    /\ new_head r = None
    /\ dd r = None
    /\ s_sum_dd sr
       = Pd.sum (map dd (filter (in_group (PyStr "d", PyStr "1")) (m1 ++ m2)))
    /\ s_n_tokens sr
       = (Pd.count (map (fun x => token (tok (lhs x)))
                        (filter (in_group (PyStr "d", PyStr "1")) (m1 ++ m2)))
          + 1)%Z
    /\ d_sum_dd dr
       = Pd.sum (map dd (filter (in_doc (PyStr "d")) (m1 ++ m2)))
    /\ d_n_tokens dr
       = (Pd.count (map (fun x => token (tok (lhs x)))
                        (filter (in_doc (PyStr "d")) (m1 ++ m2))) + 1)%Z.
Proof.
  apply (dangling_head_counted_not_summed Cases.comma_head
           (Cases.word "d" "1" "1" "well" "INTJ" "2")
           (PyStr "d", PyStr "1")).
  - intros u [<-|[<-|[]]]; discriminate.
  - left. reflexivity.
  - reflexivity.
  - discriminate.
  - intros u [<-|[<-|[]]] _; discriminate.
Defined.

(** With unique indices: the rows of the returned frames, for the groups
    that retain a token. *)
Lemma returned_rows_by_token (d : DataFrame) :
  has_docid (remove_punct d) ->
  unique_ids d ->
  exists R,
    reindex d = Ok R
    /\ map tok R = remove_punct d
    /\ merged d = Ok (merge_left R (make_ref R))
    /\ (forall k, group_rows k d <> [] ->
          find_sent_row k (agg_by_sentence (merge_left R (make_ref R)))
          = Some (sent_row (merge_left R (make_ref R)) k))
    /\ (forall k, doc_rows_kept k d <> [] ->
          find_doc_row k (agg_by_document (merge_left R (make_ref R)))
          = Some (doc_row (merge_left R (make_ref R)) k)).
Proof.
  intros Hdoc Hu. destruct (merged_ok d Hdoc) as [R [E [T EM]]].
  exists R. split; auto. split; auto. split; auto. split.
  - intros k Hne. rewrite find_sent_row_agg.
    destruct (sentence_by_token d R k T Hu) as [F _]. rewrite F.
    rewrite <- (reindexed_group_rows d R k T) in Hne.
    apply map_nonempty in Hne.
    destruct (filter (i_in_group k) R); [congruence|reflexivity].
  - intros k Hne. rewrite find_doc_row_agg.
    destruct (document_by_token d R k T Hu) as [F _]. rewrite F.
    rewrite <- (reindexed_doc_rows d R k T) in Hne.
    apply map_nonempty in Hne.
    destruct (filter (i_in_doc k) R); [congruence|reflexivity].
Qed.

Lemma group_rows_kept (k : key) (d : DataFrame) (t : Token) :
  In t (group_rows k d) -> In t (remove_punct d).
Proof. unfold group_rows. intro H. apply filter_In in H. tauto. Qed.

Lemma doc_rows_kept_kept (k : pyval) (d : DataFrame) (t : Token) :
  In t (doc_rows_kept k d) -> In t (remove_punct d).
Proof. unfold doc_rows_kept. intro H. apply filter_In in H. tauto. Qed.




Lemma merged_rows_are_tokens (d : DataFrame) (R : list IRow) :
  map tok R = remove_punct d ->
  unique_ids d ->
  map (fun r => tok (lhs r)) (merge_left R (make_ref R)) = remove_punct d.
Proof.
  intros T Hu. unfold unique_ids in Hu. rewrite <- T in Hu.
  rewrite <- T, <- (map_map lhs tok), (merge_left_rows R Hu). reflexivity.
Qed.

(** C10, as the code has it.  When the original indices are unique within
    every group of retained rows and every retained row has a [token] cell,
    the left join gives exactly one row per retained token, in order, and
    in the frames that [calc_mdd] returns the n_tokens of every sentence and
    of every document that retains a token is the number of its retained
    tokens.  With a repeated index this fails: in [Cases.twice] two retained
    tokens give four rows and n_tokens = 4. *)
Theorem unique_ids_keep_row_count (d : DataFrame) :
  has_docid (remove_punct d) ->
  unique_ids d ->
  tokens_present d ->
  (exists m srows drows,
     merged d = Ok m
     /\ map (fun r => tok (lhs r)) m = remove_punct d
     /\ calc_mdd d true = Ok (BySentence srows)
     /\ calc_mdd d false = Ok (ByDocument drows)
     /\ (forall k, group_rows k d <> [] ->
           exists r, find_sent_row k srows = Some r
                     /\ s_n_tokens r
                        = Z.of_nat (List.length (group_rows k d)))
     /\ (forall k, doc_rows_kept k d <> [] ->
           exists r, find_doc_row k drows = Some r
                     /\ d_n_tokens r
                        = Z.of_nat (List.length (doc_rows_kept k d))))
  /\ (has_docid (remove_punct Cases.twice)
      /\ tokens_present Cases.twice
      /\ ~ unique_ids Cases.twice
      /\ List.length (group_rows (PyStr "d", PyStr "1") Cases.twice) = 2
      /\ exists m' r',
           merged Cases.twice = Ok m'
           /\ List.length m' = 4
           /\ calc_mdd Cases.twice true = Ok (BySentence [r'])
           /\ s_n_tokens r' = 4%Z).
Proof.
  intros Hdoc Hu Htok. split.
  - destruct (returned_rows_by_token d Hdoc Hu) as [R [E [T [EM [FS FD]]]]].
    destruct (calc_mdd_frames d _ EM) as [ES ED].
    exists (merge_left R (make_ref R)),
           (agg_by_sentence (merge_left R (make_ref R))),
           (agg_by_document (merge_left R (make_ref R))).
    split; auto. split; [now apply merged_rows_are_tokens|].
    split; auto. split; auto. split.
    + intros k Hne. exists (sent_row (merge_left R (make_ref R)) k).
      split; [now apply FS|].
      destruct (sentence_by_token d R k T Hu) as [_ [_ N]].
      unfold sent_row. cbn [s_n_tokens]. rewrite N.
      apply (tokens_present_count d _ Htok (group_rows_kept k d)).
    + intros k Hne. exists (doc_row (merge_left R (make_ref R)) k).
      split; [now apply FD|].
      destruct (document_by_token d R k T Hu) as [_ [_ [N _]]].
      unfold doc_row. cbn [d_n_tokens]. rewrite N.
      apply (tokens_present_count d _ Htok (doc_rows_kept_kept k d)).
  - split; [intros t [<-|[<-|[]]]; discriminate|].
    split; [intros t [<-|[<-|[]]]; discriminate|].
    split.
    { unfold unique_ids. intro N. inversion N as [|? ? Hx _]. subst.
      apply Hx. left. reflexivity. }
    split; [reflexivity|].
    eexists. eexists. split; [vm_compute; reflexivity|].
    split; [reflexivity|]. split; [vm_compute; reflexivity|]. reflexivity.
Qed.

Lemma unique_ids_keep_row_count_witness :
  exists m srows drows,
    merged (table Cases.two_sentences) = Ok m
    /\ map (fun r => tok (lhs r)) m = remove_punct (table Cases.two_sentences)
    /\ calc_mdd (table Cases.two_sentences) true = Ok (BySentence srows)
    /\ calc_mdd (table Cases.two_sentences) false = Ok (ByDocument drows)
    /\ (forall k, group_rows k (table Cases.two_sentences) <> [] ->
          exists r, find_sent_row k srows = Some r
                    /\ s_n_tokens r
                       = Z.of_nat
                           (List.length
                              (group_rows k (table Cases.two_sentences))))
    /\ (forall k, doc_rows_kept k (table Cases.two_sentences) <> [] ->
          exists r, find_doc_row k drows = Some r
                    /\ d_n_tokens r
                       = Z.of_nat
                           (List.length
                              (doc_rows_kept k (table Cases.two_sentences)))).
Proof.
  apply (unique_ids_keep_row_count (table Cases.two_sentences)).
  - vm_compute. intros t H.
    repeat (destruct H as [<-|H]; [discriminate|]). destruct H.
  - unfold unique_ids. vm_compute.
    repeat constructor; simpl; intuition discriminate.
  - vm_compute. intros t H.
    repeat (destruct H as [<-|H]; [discriminate|]). destruct H.
Defined.

(** C10 as stated fails on a row without [token] cell.  The text
    [Cases.bare_index] parses into two rows of one sentence with the
    indices 1 and 2; both are retained and the join gives one row for each,
    but only one has a [token], and [calc_mdd] returns n_tokens = 1. *)
Lemma unique_ids_but_one_token_counted :
  exists df m,
    parse_conll Cases.bare_index = Ok df
    /\ has_docid (remove_punct df)
    /\ unique_ids df
    /\ List.length (group_rows (PyStr "d", PyInt 1) df) = 2
    /\ merged df = Ok m
    /\ map (fun r => tok (lhs r)) m = remove_punct df
    /\ calc_mdd df true
       = Ok (BySentence [mkSentRow (PyStr "d") (PyInt 1) 1 1 infinity])
    /\ calc_mdd df false
       = Ok (ByDocument [mkDocRow (PyStr "d") 1 1 1 infinity]).
Proof.
  eexists. eexists. split; [vm_compute; reflexivity|].
  split; [intros t [<-|[<-|[]]]; discriminate|].
  split.
  { unfold unique_ids. simpl.
    repeat constructor; simpl; intuition discriminate. }
  split; [reflexivity|].
  split; [vm_compute; reflexivity|].
  split; [reflexivity|].
  split; vm_compute; reflexivity.
Qed.
